(** * abs-kosync-bridge: the position reconciliation engine

  A shallow embedding of the parts of [main.py], [transcriber.py],
  [api_clients.py] and [storyteller_db.py] that decide how reading
  positions are normalised, compared, propagated and written back.

  Conventions of the embedding.
  - A Python [float] is an exact rational ([Q]); NaN and the infinities are
    not values of the model ([float('inf')] is the [None] of an [option Q]).
    Millisecond timestamps ([int]) are [Z].
  - A [str] is a [string]; [len] is [String.length].
  - A Python [dict] decoded from JSON is an association list with unique
    keys, read, written and deleted like the dict; the engine's own state
    document, keyed by the audiobook id, is a [gmap].
  - A function that catches its exceptions and returns [None] returns
    [option]; a function or collaborator that may raise returns [res].
  - Every HTTP, SQL or file read is an explicit argument (a [World]); every
    write to a collaborator is an entry of the returned log. *)

From Stdlib Require Import List String Ascii ZArith QArith Qabs Lqa Lia Bool.
From stdpp Require Import gmap strings.
Import ListNotations.

Local Open Scope Q_scope.

(** ** Python primitives *)

Module Py.

(** [a < b] on floats. *)
Definition ltb (a b : Q) : bool := negb (Qle_bool b a).

(** [max(a, b)]: the first argument unless the second is strictly greater. *)
Definition max (a b : Q) : Q := if ltb a b then b else a.

(** [min(a, b)]: the first argument unless the second is strictly smaller. *)
Definition min (a b : Q) : Q := if ltb b a then b else a.

(** Truth value of a float: [0.0] is falsy. *)
Definition truthy (x : Q) : bool := negb (Qeq_bool x 0).

(** Truth value of a string: the empty string is falsy. *)
Definition truthy_str (s : string) : bool :=
  match s with EmptyString => false | _ => true end.

Definition truthy_ostr (s : option string) : bool :=
  match s with Some v => truthy_str v | None => false end.

(** [x or 0.0] for an optional float. *)
Definition or_zero (x : option Q) : Q :=
  match x with Some v => if truthy v then v else 0 | None => 0 end.

(** Results of collaborators that may raise. *)
Inductive res (A : Type) : Type :=
| Ret (a : A)
| Raise.
Arguments Ret {A} a.
Arguments Raise {A}.

End Py.

(** ** Transcripts ([transcriber.py]) *)

(** One segment of a transcript, as [process_audio] writes it. *)
Record segment : Type := Segment {
  seg_start : Q;
  seg_end : Q;
  seg_text : string
}.

(** What a duration lookup finds in a decoded file: a number of seconds,
    or a value that is no number ([null], a string, a list, an object).
    JSON's [true] and [false] count as the numbers [1] and [0], as they do
    in Python. *)
Inductive duration_value : Type :=
| Seconds (d : Q)
| NotANumber.

(** What [json.load] finds behind a transcript path.
    - [Unreadable]: no path, no file, or bad JSON.
    - [SegList]: a list of segments.
    - [OtherList]: a list with an element that is no such segment. It
      comes with what [data[-1].get('end', 0)] gives for it ([0] when the
      last element is no object or has no ['end']) and with what the two
      searches of the transcriber return on it, which depends on where
      the irregular elements are.
    - [DurDict]: an object, with its ['duration'] when it has one.
    - [OtherJson]: a number, a string, a boolean or [null]. *)
Inductive transcript_file : Type :=
| Unreadable
| SegList (data : list segment)
| OtherList (last_end : duration_value)
    (text_at_time : Q -> option string)
    (time_for_text : (string -> string -> Q) -> string -> option Q)
| DurDict (duration : option duration_value)
| OtherJson.

Module AudioTranscriber.

Definition TARGET_LEN : nat := 400.

(** [data[i]], for an index in range. *)
Definition seg_at (data : list segment) (i : nat) : segment :=
  nth i data (Segment 0 0 "").

(** [len(data[i]['text'])]. *)
Definition text_len (data : list segment) (i : nat) : nat :=
  String.length (seg_text (seg_at data i)).

(** [seg['start'] <= timestamp <= seg['end']]. *)
Definition contains (seg : segment) (timestamp : Q) : bool :=
  Qle_bool (seg_start seg) timestamp && Qle_bool timestamp (seg_end seg).

(** First loop of [get_text_at_time]: the first segment, from index [i] on,
    that contains the timestamp; [None] is [target_idx == -1]. *)
Fixpoint find_containing (data : list segment) (timestamp : Q) (i : nat)
  : option nat :=
  match data with
  | [] => None
  | seg :: rest =>
      if contains seg timestamp then Some i
      else find_containing rest timestamp (S i)
  end.

(** [min(abs(timestamp - seg['start']), abs(timestamp - seg['end']))]. *)
Definition boundary_dist (seg : segment) (timestamp : Q) : Q :=
  Py.min (Qabs (timestamp - seg_start seg)) (Qabs (timestamp - seg_end seg)).

(** [dist < closest_dist], where [closest_dist] starts as [float('inf')]. *)
Definition closer (dist : Q) (closest_dist : option Q) : bool :=
  match closest_dist with
  | None => true
  | Some c => Py.ltb dist c
  end.

(** Second loop: the running minimum of the boundary distances. *)
Fixpoint find_closest (data : list segment) (timestamp : Q) (i : nat)
  (closest_dist : option Q) (target_idx : option nat) : option nat :=
  match data with
  | [] => target_idx
  | seg :: rest =>
      let dist := boundary_dist seg timestamp in
      if closer dist closest_dist
      then find_closest rest timestamp (S i) (Some dist) (Some i)
      else find_closest rest timestamp (S i) closest_dist target_idx
  end.

(** The index the expansion starts from. *)
Definition locate (data : list segment) (timestamp : Q) : option nat :=
  match find_containing data timestamp 0 with
  | Some i => Some i
  | None => find_closest data timestamp 0 None None
  end.

(** The variables of the expansion loop. *)
Record window : Type := Window {
  segments_indices : list nat;
  current_len : nat;
  left : Z;
  right : nat
}.

(** One pass of the body of [while current_len < TARGET_LEN]; the boolean
    says whether the loop goes round again ([false] is a [break]). *)
Definition step (data : list segment) (w : window) : window * bool :=
  let added_left := (0 <=? left w)%Z in
  let w1 :=
    if added_left
    then {| segments_indices := Z.to_nat (left w) :: segments_indices w;
            current_len := (current_len w + text_len data (Z.to_nat (left w)))%nat;
            left := (left w - 1)%Z;
            right := right w |}
    else w in
  if (TARGET_LEN <=? current_len w1)%nat then (w1, false)
  else
    let added_right := (right w1 <? length data)%nat in
    let w2 :=
      if added_right
      then {| segments_indices := segments_indices w1 ++ [right w1];
              current_len := (current_len w1 + text_len data (right w1))%nat;
              left := left w1;
              right := S (right w1) |}
      else w1 in
    (w2, added_left || added_right).

(** The loop, with a bound on the number of passes; [None] only when the
    bound is used up. *)
Fixpoint expand (fuel : nat) (data : list segment) (w : window) : option window :=
  if (TARGET_LEN <=? current_len w)%nat then Some w
  else
    match fuel with
    | O => None
    | S fuel' =>
        let '(w', go_on) := step data w in
        if go_on then expand fuel' data w' else Some w'
    end.

(** [" ".join([data[i]['text'] for i in segments_indices])]. *)
Definition join_texts (data : list segment) (indices : list nat) : string :=
  String.concat " " (map (fun i => seg_text (seg_at data i)) indices).

(** [get_text_at_time], on the decoded transcript. Anything that is not a
    list of segments raises inside the [try] and gives [None]. *)
Definition get_text_at_time (f : transcript_file) (timestamp : Q) : option string :=
  match f with
  | SegList data =>
      match locate data timestamp with
      | None => None
      | Some target_idx =>
          let w0 := {| segments_indices := [target_idx];
                       current_len := text_len data target_idx;
                       left := (Z.of_nat target_idx - 1)%Z;
                       right := S target_idx |} in
          match expand (length data) data w0 with
          | Some w => Some (join_texts data (segments_indices w))
          | None => None
          end
      end
  | OtherList _ text_at_time _ => text_at_time timestamp
  | Unreadable => None
  | DurDict _ => None
  | OtherJson => None
  end.

(** Modelled from the spec: rapidfuzz's [process.extractOne] is a library
    function outside the repository. It scores the query against every
    choice and returns [(choice, score, index)] of the best one, the first
    in order among equals, and [None] for no choices. The scorer
    ([fuzz.partial_ratio], a similarity out of 100) is an argument. *)
Fixpoint extractOne_from (scorer : string -> string -> Q) (query : string)
  (choices : list string) (i : nat) (best : option (string * Q * nat))
  : option (string * Q * nat) :=
  match choices with
  | [] => best
  | c :: rest =>
      let s := scorer query c in
      match best with
      | None => extractOne_from scorer query rest (S i) (Some (c, s, i))
      | Some (_, bs, _) =>
          if Py.ltb bs s
          then extractOne_from scorer query rest (S i) (Some (c, s, i))
          else extractOne_from scorer query rest (S i) best
      end
  end.

Definition extractOne (scorer : string -> string -> Q) (query : string)
  (choices : list string) : option (string * Q * nat) :=
  extractOne_from scorer query choices 0 None.

(** [find_time_for_text]. *)
Definition find_time_for_text (scorer : string -> string -> Q)
  (f : transcript_file) (search_text : string) : option Q :=
  match f with
  | SegList data =>
      let texts := map seg_text data in
      match extractOne scorer search_text texts with
      | Some (_, score, index) =>
          if Py.ltb 80 score then Some (seg_start (seg_at data index)) else None
      | None => None
      end
  | OtherList _ _ time_for_text => time_for_text scorer search_text
  | Unreadable => None
  | DurDict _ => None
  | OtherJson => None
  end.

End AudioTranscriber.

(** ** JSON values and Python dicts *)

Module Json.

#[local] Unset Elimination Schemes.

Inductive json : Type :=
| JNull
| JBool (b : bool)
| JNum (q : Q)
| JStr (s : string)
| JArr (items : list json)
| JObj (fields : list (string * json)).

#[local] Set Elimination Schemes.

(** [d.get(k)]. *)
Fixpoint get {V : Type} (k : string) (d : list (string * V)) : option V :=
  match d with
  | [] => None
  | (k', v) :: rest => if String.eqb k k' then Some v else get k rest
  end.

(** [k in d]. *)
Definition mem {V : Type} (k : string) (d : list (string * V)) : bool :=
  match get k d with Some _ => true | None => false end.

(** [d[k] = v]: in place when the key is there, at the end otherwise. *)
Fixpoint set {V : Type} (k : string) (v : V) (d : list (string * V))
  : list (string * V) :=
  match d with
  | [] => [(k, v)]
  | (k', v') :: rest =>
      if String.eqb k k' then (k', v) :: rest else (k', v') :: set k v rest
  end.

(** [del d[k]]. *)
Fixpoint del {V : Type} (k : string) (d : list (string * V))
  : list (string * V) :=
  match d with
  | [] => []
  | (k', v') :: rest =>
      if String.eqb k k' then del k rest else (k', v') :: del k rest
  end.

(** The value as an operand of float arithmetic; [None] is a [TypeError]. *)
Definition as_number (j : json) : option Q :=
  match j with
  | JNum q => Some q
  | JBool true => Some 1
  | JBool false => Some 0
  | _ => None
  end.

(** Truth value of a decoded JSON value. *)
Definition truthy (j : json) : bool :=
  match j with
  | JNull => false
  | JBool b => b
  | JNum q => Py.truthy q
  | JStr s => Py.truthy_str s
  | JArr [] => false
  | JArr _ => true
  | JObj [] => false
  | JObj _ => true
  end.

End Json.

(** ** The alternate reader's SQLite store ([storyteller_db.py]) *)

Module StorytellerDB.

Import Json.

Record book_row : Type := BookRow {
  b_uuid : string;
  b_title : string
}.

(** A row of [position]. The [locator] column is [None] when it is NULL,
    empty, or text that [json.loads] rejects (all three leave the code
    with [locator = {}]), and the decoded value otherwise. *)
Record position_row : Type := PositionRow {
  p_uuid : string;
  p_book_uuid : string;
  p_locator : option json;
  p_timestamp : Z
}.

Record database : Type := Database {
  book : list book_row;
  position : list position_row
}.

(** [UPDATE position SET locator = ?, timestamp = ? WHERE uuid = ?]. *)
Record sql_update : Type := SqlUpdate {
  u_locator : json;
  u_timestamp : Z;
  u_uuid : string
}.

Definition apply_update (u : sql_update) (db : database) : database :=
  {| book := book db;
     position :=
       map (fun r =>
              if String.eqb (p_uuid r) (u_uuid u)
              then {| p_uuid := p_uuid r; p_book_uuid := p_book_uuid r;
                      p_locator := Some (u_locator u);
                      p_timestamp := u_timestamp u |}
              else r)
           (position db) |}.

(** What one call leaves behind: the store, the returned boolean, and the
    UPDATE it executed, if any. *)
Record outcome : Type := Outcome {
  db_after : database;
  returned : bool;
  issued : option sql_update
}.

Definition no_write (db : database) (ret : bool) : outcome :=
  {| db_after := db; returned := ret; issued := None |}.

Definition write (db : database) (u : sql_update) : outcome :=
  {| db_after := apply_update u db; returned := true; issued := Some u |}.

(** [... ORDER BY timestamp DESC LIMIT 1] over the rows of one book: the
    first row, in table order, with the greatest timestamp. *)
Fixpoint latest_from (book_uuid : string) (rows : list position_row)
  (best : option position_row) : option position_row :=
  match rows with
  | [] => best
  | r :: rest =>
      if String.eqb (p_book_uuid r) book_uuid
      then match best with
           | None => latest_from book_uuid rest (Some r)
           | Some b =>
               if (p_timestamp b <? p_timestamp r)%Z
               then latest_from book_uuid rest (Some r)
               else latest_from book_uuid rest best
           end
      else latest_from book_uuid rest best
  end.

Definition latest_position (db : database) (book_uuid : string)
  : option position_row :=
  latest_from book_uuid (position db) None.

(** The anchors that [update_progress] deletes. *)
Definition anchor_keys : list string :=
  ["cssSelector"; "fragments"; "position"; "progression"]%string.

Definition strip_anchors (locations : list (string * json))
  : list (string * json) :=
  fold_left (fun d k => del k d) anchor_keys locations.

Definition LEAP_MS : Z := 10000.
Definition FORCE_LEAP_MS : Z := 60000.

Section Queries.

(** [title LIKE '%<stem of the file name>%'], as SQLite decides it. *)
Variable title_like : string -> string -> bool.

(** [SELECT uuid FROM book WHERE title LIKE ?], first row. *)
Definition select_book (db : database) (ebook_filename : string)
  : option string :=
  match List.find (fun b => title_like ebook_filename (b_title b)) (book db) with
  | Some b => Some (b_uuid b)
  | None => None
  end.

(** [update_progress]; [now_ms] is [int(time.time() * 1000)]. Every branch
    that ends in [no_write db false] is a [return False], taken directly or
    through the [except] clause. *)
Definition update_progress (db : database) (ebook_filename : string)
  (percentage : Q) (now_ms : Z) : outcome :=
  match select_book db ebook_filename with
  | None => no_write db false
  | Some book_uuid =>
      match latest_position db book_uuid with
      | None => no_write db false
      | Some pos_row =>
          let current_ts := p_timestamp pos_row in
          let new_ts := (Z.max now_ms current_ts + LEAP_MS)%Z in
          let loaded :=
            match p_locator pos_row with
            | Some j => j
            | None => JObj []
            end in
          match loaded with
          | JObj locator =>
              let locator :=
                if mem "locations" locator then locator
                else set "locations" (JObj []) locator in
              match get "locations" locator with
              | Some (JObj locations) =>
                  let old :=
                    match get "totalProgression" locations with
                    | Some v => v
                    | None => JNum 0
                    end in
                  match as_number old with
                  | Some old_pct =>
                      if Py.ltb (Qabs (percentage - old_pct)) (1 # 1000)
                      then no_write db true
                      else
                        let locations :=
                          set "totalProgression" (JNum percentage) locations in
                        let locations := strip_anchors locations in
                        let locator := set "locations" (JObj locations) locator in
                        write db {| u_locator := JObj locator;
                                    u_timestamp := new_ts;
                                    u_uuid := p_uuid pos_row |}
                  | None => no_write db false
                  end
              | _ => no_write db false
              end
          | _ => no_write db false
          end
      end
  end.

(** [force_position_update]; [target_href] defaults to [None]. *)
Definition force_position_update (db : database) (ebook_filename : string)
  (percentage : Q) (target_href : option string) (now_ms : Z) : outcome :=
  match select_book db ebook_filename with
  | None => no_write db false
  | Some book_uuid =>
      match latest_position db book_uuid with
      | None => no_write db false
      | Some pos_row =>
          let new_ts := (now_ms + FORCE_LEAP_MS)%Z in
          let loaded :=
            match p_locator pos_row with
            | Some j => j
            | None => JObj []
            end in
          match loaded with
          | JObj old_locator =>
              let type_ :=
                match get "type" old_locator with
                | Some v => v
                | None => JStr "application/xhtml+xml"
                end in
              let locator :=
                [("type", type_);
                 ("locations", JObj [("totalProgression", JNum percentage)])]%string in
              let locator :=
                if Py.truthy_ostr target_href
                then match target_href with
                     | Some h => set "href" (JStr h) locator
                     | None => locator
                     end
                else match get "href" old_locator with
                     | Some h => if truthy h then set "href" h locator else locator
                     | None => locator
                     end in
              write db {| u_locator := JObj locator;
                          u_timestamp := new_ts;
                          u_uuid := p_uuid pos_row |}
          | _ => no_write db false
          end
      end
  end.

End Queries.

End StorytellerDB.

(** ** The HTTP clients ([api_clients.py]) *)

(** The answer to a progress request: no answer at all (the request, or
    decoding its body, raised), or a status code with the progress field of
    the body, when the body has one; the field is a number, as the two
    servers give it. *)
Inductive http_response : Type :=
| NoResponse
| Response (status_code : nat) (field : option Q).

Module ABSClient.

(** [get_progress]: ['currentTime'] of a 200 answer, [0.0] otherwise. *)
Definition get_progress (r : http_response) : Q :=
  match r with
  | Response status_code field =>
      if Nat.eqb status_code 200
      then match field with
           | Some current_time => current_time
           | None => 0
           end
      else 0
  | NoResponse => 0
  end.

End ABSClient.

Module KoSyncClient.

(** [get_progress]: ['percentage'] of a 200 answer, [0.0] otherwise. *)
Definition get_progress (r : http_response) : Q :=
  match r with
  | Response status_code field =>
      if Nat.eqb status_code 200
      then match field with
           | Some percentage => percentage
           | None => 0
           end
      else 0
  | NoResponse => 0
  end.

End KoSyncClient.

(** ** Mappings, sync state and the sync cycle ([main.py]) *)

Record mapping : Type := Mapping {
  abs_id : string;
  kosync_doc_id : string;
  ebook_filename : string;
  status : string;
  transcript_path : option string
}.

Definition set_status (m : mapping) (s : string) : mapping :=
  {| abs_id := abs_id m; kosync_doc_id := kosync_doc_id m;
     ebook_filename := ebook_filename m; status := s;
     transcript_path := transcript_path m |}.

(** One entry of the state document [last_state.json]. *)
Module State.

Record t : Type := Make {
  abs_ts : Q;
  abs_pct : Q;
  kosync_pct : Q;
  storyteller_pct : Q;
  last_updated : Q
}.

(** [prev.get(field, 0)] with [prev = self.state.get(abs_id, {})]. *)
Definition get (field : t -> Q) (prev : option t) : Q :=
  match prev with
  | Some s => field s
  | None => 0
  end.

End State.

Inductive source : Type := KOSYNC | STORYTELLER | ABS.

(** The calls that change a collaborator's stored position, as they are
    made. [StorytellerRaised] is a call of [storyteller_db.update_progress]
    that raised; what it did to the store before is not known. The last
    one stands for the reading-log step ([_automatch_hardcover] and
    [_sync_to_hardcover]), whose client is outside the model. *)
Inductive write_call : Type :=
| KoSyncUpdate (doc_id : string) (percentage : Q) (xpath : option string)
| StorytellerUpdate (epub : string) (percentage : Q)
| StorytellerRaised (epub : string) (percentage : Q)
| ABSUpdate (item_id : string) (timestamp : Q)
| HardcoverSync (item_id : string) (percentage : Q).

(** Everything the cycle reads from outside. The client of the alternate
    reader is [StorytellerDBWithAPI] when that imports and [StorytellerDB]
    otherwise; the second catches every exception, the first can raise
    (its REST client decodes the book list outside any [try]). *)
Record World : Type := {
  abs_progress : string -> http_response;
  kosync_progress : string -> http_response;
  (* first component of [storyteller_db.get_progress(epub)] *)
  storyteller_progress : string -> Py.res (option Q);
  (* [href] and [frag] of [get_progress_with_fragment(epub)] *)
  storyteller_fragment : string -> Py.res (option string * option string);
  (* whether [storyteller_db.update_progress(epub, pct)] raises *)
  storyteller_update_raises : string -> Q -> bool;
  (* [get_text_from_storyteller_fragment(epub, href, frag)] *)
  fragment_text : string -> option string -> string -> option string;
  (* the transcript files on disk, by path *)
  transcripts : gmap string transcript_file;
  (* [ebook_parser.find_text_location(epub, txt, hint_percentage)]:
     the percentage and the xpath *)
  find_text_location :
    string -> string -> option Q -> Py.res (option Q * option string);
  (* [ebook_parser.get_text_at_percentage(epub, pct)] *)
  get_text_at_percentage : string -> Q -> Py.res (option string);
  (* [rapidfuzz.fuzz.partial_ratio] *)
  partial_ratio : string -> string -> Q
}.

Record Config : Type := {
  delta_abs_thresh : Q;
  delta_kosync_thresh : Q
}.

Module SyncManager.

(** [cleanup_stale_jobs]: one pass over the mappings; the second component
    is [changed], that is whether the mapping document is saved. *)
Fixpoint cleanup_stale_jobs (mappings : list mapping) : list mapping * bool :=
  match mappings with
  | [] => ([], false)
  | m :: rest =>
      let '(rest', changed) := cleanup_stale_jobs rest in
      if String.eqb (status m) "crashed"
      then (set_status m "active" :: rest', true)
      else (m :: rest', changed)
  end.

(** What [open] and [json.load] give for [mapping.get('transcript_file')]. *)
Definition load_transcript (w : World) (path : option string) : transcript_file :=
  match path with
  | Some p =>
      match transcripts w !! p with
      | Some f => f
      | None => Unreadable
      end
  | None => Unreadable
  end.

(** [_get_transcript_duration]: the ['end'] of the last element of a
    list, the ['duration'] of an object, and [0] whenever there is neither.
    The value is returned as it is found, a number or not. *)
Definition _get_transcript_duration (f : transcript_file) : duration_value :=
  match f with
  | SegList data =>
      match data with
      | [] => Seconds 0
      | _ => Seconds (seg_end (List.last data (Segment 0 0 "")))
      end
  | OtherList last_end _ _ => last_end
  | DurDict (Some d) => d
  | DurDict None => Seconds 0
  | Unreadable => Seconds 0
  | OtherJson => Seconds 0
  end.

(** [_abs_to_percentage]; [duration > 0] raises a [TypeError] for a
    duration that is no number. *)
Definition _abs_to_percentage (abs_seconds : Q) (f : transcript_file)
  : Py.res (option Q) :=
  match _get_transcript_duration f with
  | Seconds duration =>
      Py.Ret (if Py.ltb 0 duration
              then Some (Py.min (Py.max (abs_seconds / duration) 0) 1)
              else None)
  | NotANumber => Py.Raise
  end.

(** The four readings at the head of the loop body. *)
Record readings : Type := Readings {
  r_abs_ts : Q;
  r_ko_pct : Q;
  r_st_pct : Q;
  r_abs_pct : option Q
}.

(** The [try] block that reads the positions. The two HTTP clients catch
    their own exceptions and answer [0.0]; the client of the alternate
    reader and [_abs_to_percentage] can raise, and [Raise] is the [except]
    branch, which goes on to the next mapping. *)
Definition read_positions (w : World) (m : mapping) : Py.res readings :=
  let abs_ts := Py.or_zero (Some (ABSClient.get_progress (abs_progress w (abs_id m)))) in
  let ko_pct := Py.or_zero (Some (KoSyncClient.get_progress (kosync_progress w (kosync_doc_id m)))) in
  match storyteller_progress w (ebook_filename m) with
  | Py.Raise => Py.Raise
  | Py.Ret st =>
      let st_pct := Py.or_zero st in
      match _abs_to_percentage abs_ts (load_transcript w (transcript_path m)) with
      | Py.Raise => Py.Raise
      | Py.Ret abs_pct =>
          Py.Ret {| r_abs_ts := abs_ts; r_ko_pct := ko_pct;
                    r_st_pct := st_pct; r_abs_pct := abs_pct |}
      end
  end.

(** [abs(current - prev.get(key, 0)) > threshold]. *)
Definition moved (current baseline threshold : Q) : bool :=
  Py.ltb threshold (Qabs (current - baseline)).

(** [any([abs_changed, ko_changed, st_changed])]. *)
Definition any_changed (cfg : Config) (r : readings) (prev : option State.t) : bool :=
  let abs_changed := moved (r_abs_ts r) (State.get State.abs_ts prev) (delta_abs_thresh cfg) in
  let ko_changed := moved (r_ko_pct r) (State.get State.kosync_pct prev) (delta_kosync_thresh cfg) in
  let st_changed := moved (r_st_pct r) (State.get State.storyteller_pct prev) (delta_kosync_thresh cfg) in
  abs_changed || ko_changed || st_changed.

(** The state entry written by a cycle in which nothing moved. *)
Definition refreshed (r : readings) (prev : option State.t) : State.t :=
  {| State.abs_ts := r_abs_ts r;
     State.abs_pct := Py.or_zero (r_abs_pct r);
     State.kosync_pct := r_ko_pct r;
     State.storyteller_pct := r_st_pct r;
     State.last_updated := State.get State.last_updated prev |}.

(** [progress_map], in insertion order. *)
Definition progress_map (r : readings) : list (source * Q) :=
  [(KOSYNC, r_ko_pct r); (STORYTELLER, r_st_pct r)] ++
  match r_abs_pct r with
  | Some p => [(ABS, p)]
  | None => []
  end.

(** [max(d, key=d.get)] over the remaining keys: the first key with the
    greatest value. *)
Fixpoint max_from (best : source * Q) (l : list (source * Q)) : source * Q :=
  match l with
  | [] => best
  | (k, v) :: rest =>
      if Py.ltb (snd best) v then max_from (k, v) rest else max_from best rest
  end.

(** [leader] and [leader_pct]. *)
Definition select_leader (r : readings) : source * Q :=
  max_from (KOSYNC, r_ko_pct r) (tl (progress_map r)).

(** What the [try] block of the propagation leaves behind. *)
Record propagation : Type := Propagation {
  final_ts : Q;
  final_pct : Q;
  sync_success : bool;
  writes : list write_call
}.

(** The reading-log step at the end of the [try] block. *)
Definition hardcover_step (m : mapping) (p : propagation) : propagation :=
  if sync_success p && Py.ltb (1 # 100) (final_pct p)
  then {| final_ts := final_ts p; final_pct := final_pct p;
          sync_success := sync_success p;
          writes := writes p ++ [HardcoverSync (abs_id m) (final_pct p)] |}
  else p.

(** The [try] block, by leader. An exception leaves [final_ts], [final_pct]
    and the calls already made as they are. *)
Definition propagate (w : World) (m : mapping) (r : readings)
  (leader : source) (leader_pct : Q) : propagation :=
  let tf := load_transcript w (transcript_path m) in
  let epub := ebook_filename m in
  let start := {| final_ts := r_abs_ts r; final_pct := leader_pct;
                  sync_success := false; writes := [] |} in
  match leader with
  | ABS =>
      match AudioTranscriber.get_text_at_time tf (r_abs_ts r) with
      | Some txt =>
          if Py.truthy_str txt then
            match find_text_location w epub txt (r_abs_pct r) with
            | Py.Ret (Some match_pct, xpath) =>
                if Py.truthy match_pct then
                  if storyteller_update_raises w epub match_pct then
                    {| final_ts := r_abs_ts r; final_pct := leader_pct;
                       sync_success := false;
                       writes := [KoSyncUpdate (kosync_doc_id m) match_pct xpath;
                                  StorytellerRaised epub match_pct] |}
                  else
                    hardcover_step m
                      {| final_ts := r_abs_ts r; final_pct := match_pct;
                         sync_success := true;
                         writes := [KoSyncUpdate (kosync_doc_id m) match_pct xpath;
                                    StorytellerUpdate epub match_pct] |}
                else start
            | Py.Ret (None, _) => start
            | Py.Raise => start
            end
          else start
      | None => start
      end
  | KOSYNC =>
      match get_text_at_percentage w epub (r_ko_pct r) with
      | Py.Ret (Some txt) =>
          if Py.truthy_str txt then
            match AudioTranscriber.find_time_for_text (partial_ratio w) tf txt with
            | Some ts =>
                if Py.truthy ts then
                  if storyteller_update_raises w epub (r_ko_pct r) then
                    {| final_ts := r_abs_ts r; final_pct := leader_pct;
                       sync_success := false;
                       writes := [ABSUpdate (abs_id m) ts;
                                  StorytellerRaised epub (r_ko_pct r)] |}
                  else
                    hardcover_step m
                      {| final_ts := ts; final_pct := leader_pct;
                         sync_success := true;
                         writes := [ABSUpdate (abs_id m) ts;
                                    StorytellerUpdate epub (r_ko_pct r)] |}
                else start
            | None => start
            end
          else start
      | Py.Ret None => start
      | Py.Raise => start
      end
  | STORYTELLER =>
      match storyteller_fragment w epub with
      | Py.Raise => start
      | Py.Ret (href, frag) =>
          let txt :=
            match frag with
            | Some fr =>
                if Py.truthy_str fr then fragment_text w epub href fr else None
            | None => None
            end in
          let txt :=
            if Py.truthy_ostr txt then Py.Ret txt
            else get_text_at_percentage w epub (r_st_pct r) in
          match txt with
          | Py.Ret (Some txt) =>
              if Py.truthy_str txt then
                match AudioTranscriber.find_time_for_text (partial_ratio w) tf txt with
                | Some ts =>
                    if Py.truthy ts then
                      match find_text_location w epub txt None with
                      | Py.Ret (_, xpath) =>
                          hardcover_step m
                            {| final_ts := ts; final_pct := leader_pct;
                               sync_success := true;
                               writes :=
                                 [ABSUpdate (abs_id m) ts;
                                  KoSyncUpdate (kosync_doc_id m) (r_st_pct r) xpath] |}
                      | Py.Raise =>
                          {| final_ts := r_abs_ts r; final_pct := leader_pct;
                             sync_success := false;
                             writes := [ABSUpdate (abs_id m) ts] |}
                      end
                    else start
                | None => start
                end
              else start
          | Py.Ret None => start
          | Py.Raise => start
          end
      end
  end.

(** [self._abs_to_percentage(final_ts, ...) or 0] in the state entry
    written after a propagation. The call stands outside the [try]
    blocks; it cannot raise there, because the same call on the same file
    returned when the positions were read. *)
Definition stored_abs_pct (final_ts : Q) (f : transcript_file) : Q :=
  match _abs_to_percentage final_ts f with
  | Py.Ret abs_pct => Py.or_zero abs_pct
  | Py.Raise => 0
  end.

(** The body of the loop of [sync_cycle] for one mapping; [now] is
    [time.time()]. It returns the state document and the calls made. *)
Definition sync_mapping (cfg : Config) (w : World) (now : Q)
  (state : gmap string State.t) (m : mapping)
  : gmap string State.t * list write_call :=
  if negb (String.eqb (status m) "active") then (state, [])
  else
    match read_positions w m with
    | Py.Raise => (state, [])
    | Py.Ret r =>
        let prev := state !! abs_id m in
        if negb (any_changed cfg r prev)
        then (<[abs_id m := refreshed r prev]> state, [])
        else
          let '(leader, leader_pct) := select_leader r in
          let p := propagate w m r leader leader_pct in
          let entry :=
            {| State.abs_ts := final_ts p;
               State.abs_pct :=
                 stored_abs_pct (final_ts p)
                   (load_transcript w (transcript_path m));
               State.kosync_pct := final_pct p;
               State.storyteller_pct := final_pct p;
               State.last_updated := now |} in
          (<[abs_id m := entry]> state, writes p)
    end.

(** [sync_cycle]: the mappings in order, the state threaded through;
    [clock] gives [time.time()] at the end of the pass of each audiobook. *)
Fixpoint sync_cycle (cfg : Config) (w : World) (clock : string -> Q)
  (state : gmap string State.t) (mappings : list mapping)
  : gmap string State.t * list write_call :=
  match mappings with
  | [] => (state, [])
  | m :: rest =>
      let '(state1, ws1) := sync_mapping cfg w (clock (abs_id m)) state m in
      let '(state2, ws2) := sync_cycle cfg w clock state1 rest in
      (state2, ws1 ++ ws2)
  end.

End SyncManager.

(** ** Vocabulary for the expansion loop *)

Module Window.

(** The segments numbered [lo], ..., [hi - 1], in transcript order. *)
Definition run (data : list segment) (lo hi : nat) : list segment :=
  map (AudioTranscriber.seg_at data) (seq lo (hi - lo)).

(** The sum of the lengths of their texts. *)
Definition run_len (data : list segment) (lo hi : nat) : nat :=
  list_sum (map (AudioTranscriber.text_len data) (seq lo (hi - lo))).

(** The sum of the lengths of all texts of the transcript. *)
Definition total_len (data : list segment) : nat :=
  list_sum (map (fun s => String.length (seg_text s)) data).

(** The loop variables describe the run from [lo] to [hi - 1] around the
    target. *)
Definition covers (data : list segment) (target : nat)
  (w : AudioTranscriber.window) (lo hi : nat) : Prop :=
  (lo <= target < hi)%nat /\ (hi <= length data)%nat /\
  AudioTranscriber.segments_indices w = seq lo (hi - lo) /\
  AudioTranscriber.left w = (Z.of_nat lo - 1)%Z /\
  AudioTranscriber.right w = hi /\
  AudioTranscriber.current_len w = run_len data lo hi.

(** Segments were taken in turn, left first: the left side is at most
    [slack] ahead of the right side unless the right side is used up, and
    the right side is not ahead of the left unless the left is used up. *)
Definition alternating (n target lo hi slack : nat) : Prop :=
  ((target - lo <= hi - 1 - target + slack)%nat \/ hi = n) /\
  ((hi - 1 - target <= target - lo)%nat \/ lo = 0%nat).

End Window.

(** ** Sample data *)

Module Sample.

Definition segments : list segment :=
  [Segment 0 100 "It was a bright cold day in April";
   Segment 100 200 "and the clocks were striking thirteen"].

Definition transcript : transcript_file := SegList segments.

(** A scorer that knows equal strings only. *)
Definition exact_ratio (s1 s2 : string) : Q :=
  if String.eqb s1 s2 then 100 else 0.

(** A mapping left in ['processing'] by a crash. *)
Definition stale_mapping : mapping :=
  Mapping "li_1" "doc_1" "book.epub" "processing" (Some "/data/transcripts/li_1.json").

Definition active_mapping : mapping :=
  Mapping "li_1" "doc_1" "book.epub" "active" (Some "/data/transcripts/li_1.json").

Definition cfg : Config :=
  {| delta_abs_thresh := 60; delta_kosync_thresh := 1 # 100 |}.

(** All three sources answer; the audio position is 130 s of 200 s. *)
Definition world : World :=
  {| abs_progress := fun _ => Response 200 (Some 130);
     kosync_progress := fun _ => Response 200 (Some (1 # 2));
     storyteller_progress := fun _ => Py.Ret (Some (1 # 2));
     storyteller_fragment := fun _ => Py.Ret (None, None);
     storyteller_update_raises := fun _ _ => false;
     fragment_text := fun _ _ _ => None;
     transcripts := {[ "/data/transcripts/li_1.json"%string := transcript ]};
     find_text_location := fun _ _ _ => Py.Ret (None, None);
     get_text_at_percentage := fun _ _ => Py.Ret None;
     partial_ratio := fun _ _ => 0 |}.


(** The state document after an earlier cycle. *)
Definition state : gmap string State.t :=
  {[ "li_1"%string :=
       {| State.abs_ts := 120; State.abs_pct := 3 # 5;
          State.kosync_pct := 1 # 2; State.storyteller_pct := 1 # 2;
          State.last_updated := 1700000000 |} ]}.

(** What the cycle reads in [world] for the sample mapping. *)
Definition readings : SyncManager.readings :=
  {| SyncManager.r_abs_ts := 130; SyncManager.r_ko_pct := 1 # 2;
     SyncManager.r_st_pct := 1 # 2; SyncManager.r_abs_pct := Some (130 # 200) |}.

(** [LIKE] on the sample titles: the file is the title with its extension. *)
Definition title_like (f title : string) : bool :=
  String.eqb f (title ++ ".epub").

(** A locator as the reader's client stores it. *)
Definition locator : Json.json :=
  Json.JObj
    [("href", Json.JStr "OEBPS/chapter3.xhtml#frag12");
     ("type", Json.JStr "application/xhtml+xml");
     ("locations",
      Json.JObj
        [("totalProgression", Json.JNum (1 # 5));
         ("cssSelector", Json.JStr "#frag12");
         ("fragments", Json.JArr [Json.JStr "frag12"]);
         ("position", Json.JNum 42);
         ("progression", Json.JNum (1 # 3))])]%string.

Definition db : StorytellerDB.database :=
  {| StorytellerDB.book := [StorytellerDB.BookRow "b-1" "book"];
     StorytellerDB.position :=
       [StorytellerDB.PositionRow "p-0" "b-1" None 1699990000000;
        StorytellerDB.PositionRow "p-1" "b-1" (Some locator) 1699999995000] |}.

(** The UPDATE that moves the sample book to 50 % at clock 1700000000000. *)
Definition expected_update : StorytellerDB.sql_update :=
  {| StorytellerDB.u_locator :=
       Json.JObj
         [("href", Json.JStr "OEBPS/chapter3.xhtml#frag12");
          ("type", Json.JStr "application/xhtml+xml");
          ("locations", Json.JObj [("totalProgression", Json.JNum (1 # 2))])]%string;
     StorytellerDB.u_timestamp := 1700000010000;
     StorytellerDB.u_uuid := "p-1" |}.

End Sample.

(** ** Reading the alternate reader's store ([storyteller_db.py]) *)

Module StorytellerQueries.

Import Json StorytellerDB.

(** The part of a string before its first ['#']. *)
Fixpoint before_hash (s : string) : string :=
  match s with
  | EmptyString => EmptyString
  | String c rest =>
      if Ascii.eqb c "#"%char then EmptyString else String c (before_hash rest)
  end.

(** The part after the first ['#']; [None] when there is none. *)
Fixpoint after_hash (s : string) : option string :=
  match s with
  | EmptyString => None
  | String c rest => if Ascii.eqb c "#"%char then Some rest else after_hash rest
  end.

(** [x == '#'] for an element of a decoded list. *)
Definition is_hash (j : json) : bool :=
  match j with
  | JStr s => String.eqb s "#"
  | _ => false
  end.

(** The [href] handling of [get_progress_with_fragment]:
    [if '#' in href: parts = href.split('#'); href, frag = parts[0], parts[1]].
    [None] is an exception ([in] on a value that is not iterable, or
    [split] on a value that is not a string). *)
Definition split_href (href : json) : option (json * option string) :=
  match href with
  | JStr s =>
      match after_hash s with
      | Some rest => Some (JStr (before_hash s), Some (before_hash rest))
      | None => Some (JStr s, None)
      end
  | JArr items => if existsb is_hash items then None else Some (JArr items, None)
  | JObj fields => if mem "#" fields then None else Some (JObj fields, None)
  | JNull => None
  | JBool _ => None
  | JNum _ => None
  end.

Section Reads.

(** [title LIKE '%<stem>%'] and [float(s)] for a string ([None] is a
    [ValueError]). *)
Variable title_like : string -> string -> bool.
Variable parse_float : string -> option Q.

(** [float(x)]; [None] is an exception. *)
Definition to_float (j : json) : option Q :=
  match j with
  | JNum q => Some q
  | JBool true => Some 1
  | JBool false => Some 0
  | JStr s => parse_float s
  | JNull => None
  | JArr _ => None
  | JObj _ => None
  end.

(** [data.get('locations', {}).get('totalProgression', 0)] for the decoded
    locator; [None] is an [AttributeError]. *)
Definition total_progression (data : json) : option json :=
  match data with
  | JObj fields =>
      match get "locations" fields with
      | Some (JObj locations) =>
          match get "totalProgression" locations with
          | Some v => Some v
          | None => Some (JNum 0)
          end
      | Some _ => None
      | None => Some (JNum 0)
      end
  | _ => None
  end.

(** [get_progress]; [connected] is [self.conn] being set. *)
Definition get_progress (connected : bool) (db : database)
  (ebook_filename : string) : option Q * option Z :=
  if negb connected then (None, None)
  else
    match select_book title_like db ebook_filename with
    | None => (None, None)
    | Some book_uuid =>
        match latest_position db book_uuid with
        | Some pos_row =>
            match p_locator pos_row with
            | Some data =>
                match total_progression data with
                | Some pct =>
                    match to_float pct with
                    | Some v => (Some v, Some (p_timestamp pos_row))
                    | None => (None, None)
                    end
                | None => (None, None)
                end
            | None => (None, None)
            end
        | None => (None, None)
        end
    end.

(** [get_progress_with_fragment]: percentage, timestamp, [href] and
    fragment id. *)
Definition get_progress_with_fragment (connected : bool) (db : database)
  (ebook_filename : string)
  : option Q * option Z * option json * option string :=
  let nothing := (None, None, None, None) in
  if negb connected then nothing
  else
    match select_book title_like db ebook_filename with
    | None => nothing
    | Some book_uuid =>
        match latest_position db book_uuid with
        | Some pos_row =>
            match p_locator pos_row with
            | Some data =>
                match total_progression data with
                | Some pct =>
                    let href :=
                      match data with
                      | JObj fields =>
                          match get "href" fields with
                          | Some h => h
                          | None => JStr ""
                          end
                      | _ => JStr ""
                      end in
                    match split_href href with
                    | Some (href', frag_id) =>
                        match to_float pct with
                        | Some v =>
                            (Some v, Some (p_timestamp pos_row),
                             Some href', frag_id)
                        | None => nothing
                        end
                    | None => nothing
                    end
                | None => nothing
                end
            | None => nothing
            end
        | None => nothing
        end
    end.

(** [get_book_uuid]. *)
Definition get_book_uuid (connected : bool) (db : database)
  (ebook_filename : string) : option string :=
  if negb connected then None else select_book title_like db ebook_filename.

End Reads.

End StorytellerQueries.

(** ** The job pipeline ([main.py], [check_pending_jobs]) *)

Module JobPipeline.

(** What [_automatch_hardcover] does at the end of a job: nothing (no
    token, no item, no match), a match (the document is saved once more),
    an exception before that save, or an exception after it. The catalogue
    fields it adds to the mapping are not part of [mapping]. *)
Inductive automatch_outcome : Type :=
| NoMatch
| Matched
| AutomatchRaises
| MatchedRaises.

(** What the one-time setup of a mapping does: an exception before the
    mapping is updated (no audio files, a failed download or transcription,
    a failed text extraction), or a transcript path followed by the
    catalogue step. *)
Inductive job_outcome : Type :=
| SetupRaises
| SetupDone (transcript_file : string) (automatch : automatch_outcome).

(** [mapping.update({'transcript_file': ..., 'status': 'active'})]. *)
Definition set_done (m : mapping) (transcript_file : string) : mapping :=
  {| abs_id := abs_id m; kosync_doc_id := kosync_doc_id m;
     ebook_filename := ebook_filename m; status := "active";
     transcript_path := Some transcript_file |}.

(** The loop of [check_pending_jobs] over the mappings not yet visited;
    [done] are the mappings already visited, as they are now, and [run]
    says what the setup does for the mapping at a position of the
    document. The result is the document at the end and the documents
    saved on the way, in order. *)
Fixpoint jobs_from (run : nat -> mapping -> job_outcome)
  (done todo : list mapping) : list mapping * list (list mapping) :=
  match todo with
  | [] => (done, [])
  | m :: rest =>
      if String.eqb (status m) "pending" then
        let m1 := set_status m "processing" in
        let save1 := done ++ m1 :: rest in
        match run (length done) m with
        | SetupRaises =>
            let m2 := set_status m1 "failed_retry_later" in
            let '(final, saves) := jobs_from run (done ++ [m2]) rest in
            (final, save1 :: (done ++ m2 :: rest) :: saves)
        | SetupDone path NoMatch =>
            let m2 := set_done m1 path in
            let '(final, saves) := jobs_from run (done ++ [m2]) rest in
            (final, save1 :: (done ++ m2 :: rest) :: saves)
        | SetupDone path Matched =>
            let m2 := set_done m1 path in
            let '(final, saves) := jobs_from run (done ++ [m2]) rest in
            (final, save1 :: (done ++ m2 :: rest) :: (done ++ m2 :: rest) :: saves)
        | SetupDone path AutomatchRaises =>
            let m2 := set_done m1 path in
            let m3 := set_status m2 "failed_retry_later" in
            let '(final, saves) := jobs_from run (done ++ [m3]) rest in
            (final, save1 :: (done ++ m2 :: rest) :: (done ++ m3 :: rest) :: saves)
        | SetupDone path MatchedRaises =>
            let m2 := set_done m1 path in
            let m3 := set_status m2 "failed_retry_later" in
            let '(final, saves) := jobs_from run (done ++ [m3]) rest in
            (final,
             save1 :: (done ++ m2 :: rest) :: (done ++ m2 :: rest)
                   :: (done ++ m3 :: rest) :: saves)
        end
      else jobs_from run (done ++ [m]) rest
  end.

(** [check_pending_jobs], on the document just loaded. *)
Definition check_pending_jobs (run : nat -> mapping -> job_outcome)
  (mappings : list mapping) : list mapping * list (list mapping) :=
  jobs_from run [] mappings.

(** What the mapping at position [i] has become at the end of the pass. *)
Definition job_result (run : nat -> mapping -> job_outcome) (i : nat)
  (m : mapping) : mapping :=
  if String.eqb (status m) "pending" then
    match run i m with
    | SetupRaises => set_status m "failed_retry_later"
    | SetupDone path NoMatch => set_done m path
    | SetupDone path Matched => set_done m path
    | SetupDone path AutomatchRaises =>
        set_status (set_done m path) "failed_retry_later"
    | SetupDone path MatchedRaises =>
        set_status (set_done m path) "failed_retry_later"
    end
  else m.

(** The results for the mappings from position [i] on. *)
Fixpoint job_results (run : nat -> mapping -> job_outcome) (i : nat)
  (todo : list mapping) : list mapping :=
  match todo with
  | [] => []
  | m :: rest => job_result run i m :: job_results run (S i) rest
  end.

End JobPipeline.

(** ** The reading log ([main.py], [_sync_to_hardcover]) *)

Module ReadingLog.

(** The catalogue fields of a mapping: [hardcover_book_id],
    [hardcover_edition_id], [hardcover_pages]. *)
Record link : Type := Link {
  hardcover_book_id : option Z;
  hardcover_edition_id : option Z;
  hardcover_pages : option Z
}.

(** The calls made on the catalogue client. *)
Inductive call : Type :=
| UpdateProgress (user_book_id : Z) (page : Z) (edition_id : option Z)
| UpdateStatus (book_id : Z) (status_id : Z) (edition_id : option Z).

(** [int(x)] for a float: truncation towards zero. *)
Definition py_int (x : Q) : Z := Z.quot (Qnum x) (Zpos (Qden x)).

(** [_sync_to_hardcover]; [token] is the client having a token and
    [find_user_book] gives the id of the user's record of a book. *)
Definition _sync_to_hardcover (token : bool) (find_user_book : Z -> option Z)
  (l : link) (percentage : Q) : list call :=
  if negb token then []
  else
    match hardcover_book_id l with
    | Some book_id =>
        if (book_id =? 0)%Z then []
        else
          match find_user_book book_id with
          | Some ub_id =>
              let pages :=
                match hardcover_pages l with
                | Some n => n
                | None => 0%Z
                end in
              let page_num := py_int (inject_Z pages * percentage) in
              UpdateProgress ub_id page_num (hardcover_edition_id l) ::
              (if Py.ltb (99 # 100) percentage
               then [UpdateStatus book_id 3 (hardcover_edition_id l)]
               else [])
          | None => []
          end
    | None => []
    end.

End ReadingLog.

(** ** The document hash ([api_clients.py], [compute_abs_hash]) *)

Module AbsHash.

(** The offsets of [for i in range(-1, 11)]: [0], then [1024 * 4 ** i]. *)
Definition offsets : list N :=
  0%N :: map (fun i => (1024 * 4 ^ N.of_nat i)%N) (seq 0 11).

(** The bytes given to [md5.update], in order: from each offset below the
    file size, up to 1024 bytes; the loop stops at the first offset at or
    beyond the end of the file, or at an empty read. *)
Fixpoint sample {A : Type} (file : list A) (offs : list N) : list A :=
  match offs with
  | [] => []
  | offset :: rest =>
      if (N.of_nat (length file) <=? offset)%N then []
      else
        match firstn 1024 (skipn (N.to_nat offset) file) with
        | [] => []
        | chunk => chunk ++ sample file rest
        end
  end.

(** [compute_abs_hash]: [download] is the file behind the item, when the
    download succeeds; [None] is returned otherwise. *)
Definition compute_abs_hash {A : Type} (md5 : list A -> string)
  (download : option (list A)) : option string :=
  match download with
  | Some file => Some (md5 (sample file offsets))
  | None => None
  end.

(** A position of the file lies in one of the windows read. *)
Definition in_window (pos : nat) : bool :=
  existsb (fun offset =>
             (offset <=? N.of_nat pos)%N && (N.of_nat pos <? offset + 1024)%N)
          offsets.

End AbsHash.

(** ** Stitching the transcript ([transcriber.py], [process_audio]) *)

Module Transcription.

Section Stitch.

(** [str.strip]. *)
Variable strip : string -> string.

(** The entry appended for one segment of a part. *)
Definition placed (cumulative_duration : Q) (s : segment) : segment :=
  {| seg_start := seg_start s + cumulative_duration;
     seg_end := seg_end s + cumulative_duration;
     seg_text := strip (seg_text s) |}.

(** Phase 2 of [process_audio]: each part comes with the duration that
    [_get_audio_duration] reports ([0.0] when the probe fails) and the
    segments the model returns for it. *)
Fixpoint transcribe_parts (parts : list (Q * list segment))
  (cumulative_duration : Q) : list segment :=
  match parts with
  | [] => []
  | (duration, segments) :: rest =>
      map (placed cumulative_duration) segments ++
      transcribe_parts rest (cumulative_duration + duration)
  end.

Definition full_transcript (parts : list (Q * list segment)) : list segment :=
  transcribe_parts parts 0.

End Stitch.

(** The segments follow one another without overlap inside [[lo, hi]]. *)
Fixpoint laid_out (lo hi : Q) (l : list segment) : Prop :=
  match l with
  | [] => lo <= hi
  | s :: rest =>
      lo <= seg_start s /\ seg_start s <= seg_end s /\
      laid_out (seg_end s) hi rest
  end.

(** The sum of the durations of the parts. *)
Definition total_duration (parts : list (Q * list segment)) : Q :=
  fold_right (fun p acc => fst p + acc) 0 parts.

End Transcription.

(** ** Audio files of an item ([api_clients.py], [get_audio_files]) *)

Module AudioFiles.

(** One entry of ['audioFiles']: its ['ino'] and its ['metadata']['ext'],
    each when there is one. *)
Record audio_file : Type := AudioFile {
  ino : option string;
  ext : option string
}.

(** One entry of the result. *)
Record stream : Type := Stream {
  stream_url : string;
  stream_ext : string
}.

(** [str.startswith('.')]. *)
Definition starts_with_dot (s : string) : bool :=
  match s with
  | String c _ => Ascii.eqb c "."%char
  | EmptyString => false
  end.

(** The extension of one file: ['mp3'] when missing or empty, a dot in
    front when there is none. *)
Definition extension_of (af : audio_file) : string :=
  let extension :=
    match ext af with
    | Some e => if Py.truthy_str e then e else "mp3"%string
    | None => "mp3"%string
    end in
  if starts_with_dot extension then extension
  else String.append "." extension.

(** The loop over the audio files; [af['ino']] raises for a file that has
    none. *)
Fixpoint streams_of (base_url token item_id : string)
  (audio_files : list audio_file) : option (list stream) :=
  match audio_files with
  | [] => Some []
  | af :: rest =>
      match ino af with
      | None => None
      | Some i =>
          let stream_url :=
            String.concat ""
              [base_url; "/api/items/"; item_id; "/file/"; i;
               "?token="; token]%string in
          match streams_of base_url token item_id rest with
          | Some files =>
              Some ({| stream_url := stream_url;
                       stream_ext := extension_of af |} :: files)
          | None => None
          end
      end
  end.

(** [get_audio_files]: the answer is the status code and the audio files
    of the body, or nothing when the request raised. A status other than
    200 and an exception both give the empty list. *)
Definition get_audio_files (base_url token item_id : string)
  (answer : option (nat * list audio_file)) : list stream :=
  match answer with
  | Some (status_code, audio_files) =>
      if Nat.eqb status_code 200 then
        match streams_of base_url token item_id audio_files with
        | Some files => files
        | None => []
        end
      else []
  | None => []
  end.

End AudioFiles.

(** ** Suggestions ([suggestion_manager.py]) *)

Module SuggestionManager.

(** One stored suggestion. *)
Record suggestion : Type := Suggestion {
  state : string;
  timestamp : Q;
  confidence : string;
  score : Q;
  source_type : string;
  source_title : string;
  source_id : string;
  match_type : string;
  match_title : option string;
  match_id : option string;
  match_filename : option string;
  source_filename : option string
}.

(** The item a suggestion is made for, and the match found for it. *)
Record source_item : Type := SourceItem {
  item_id : string;
  item_title : string;
  item_source : string
}.

Record match_item : Type := MatchItem {
  mi_id : option string;
  mi_title : option string;
  mi_filename : option string
}.

(** [a or b] for two optional strings. *)
Definition or_else (a b : option string) : option string :=
  if Py.truthy_ostr a then a else b.

(** [suggestion['state'] in ['pending', 'dismissed']] and older than the
    cutoff. *)
Definition stale (cutoff : Q) (s : suggestion) : bool :=
  (String.eqb (state s) "pending" || String.eqb (state s) "dismissed")
  && Py.ltb (timestamp s) cutoff.

(** [_cleanup_stale_suggestions]: what is left, and whether the document
    is saved (something was removed). *)
Definition _cleanup_stale_suggestions (suggestions : gmap string suggestion)
  (now max_age_days : Q) : gmap string suggestion * bool :=
  let cutoff := now - max_age_days * 86400 in
  let kept := filter (fun kv => stale cutoff (snd kv) = false) suggestions in
  (kept, negb (Nat.eqb (size kept) (size suggestions))).

Section Scoring.

(** [rapidfuzz.fuzz.token_sort_ratio] and [str.lower]. *)
Variable token_sort_ratio : string -> string -> Q.
Variable lower : string -> string.

(** [_calculate_confidence]. *)
Definition _calculate_confidence (title_a title_b : option string)
  : string * Q :=
  match title_a, title_b with
  | Some a, Some b =>
      if Py.truthy_str a && Py.truthy_str b then
        let score := token_sort_ratio (lower a) (lower b) in
        if Py.ltb 92 score then ("High"%string, score)
        else if Py.ltb 80 score then ("Medium"%string, score)
        else ("Low"%string, score)
      else ("Low"%string, 0)
  | _, _ => ("Low"%string, 0)
  end.

(** [_find_ebook_by_title] over the [*.epub] files, each with its name and
    its stem. *)
Fixpoint _find_ebook_by_title (files : list (string * string)) (title : string)
  : option string :=
  match files with
  | [] => None
  | (name, stem) :: rest =>
      if Py.ltb 90 (token_sort_ratio (lower title) (lower stem))
      then Some name
      else _find_ebook_by_title rest title
  end.

(** The loop of [_find_best_ebook_match]. *)
Fixpoint best_ebook_from (files : list (string * string)) (title : string)
  (highest_score : Q) (best_file : option string) : Q * option string :=
  match files with
  | [] => (highest_score, best_file)
  | (name, stem) :: rest =>
      let score := token_sort_ratio (lower title) (lower stem) in
      if Py.ltb highest_score score
      then best_ebook_from rest title score (Some name)
      else best_ebook_from rest title highest_score best_file
  end.

(** [_find_best_ebook_match]: the file name and the score. *)
Definition _find_best_ebook_match (files : list (string * string))
  (title : string) : option (option string * Q) :=
  let '(highest_score, best_file) := best_ebook_from files title 0 None in
  if Py.ltb 80 highest_score then Some (best_file, highest_score) else None.

(** [_create_suggestion]; [files] are the ebooks on disk and [now] is
    [time.time()]. *)
Definition _create_suggestion (files : list (string * string)) (now : Q)
  (suggestions : gmap string suggestion) (key : string)
  (source : source_item) (found : match_item) (match_type : string)
  : gmap string suggestion :=
  let '(confidence, score) :=
    _calculate_confidence (Some (item_title source))
      (or_else (mi_title found) (mi_filename found)) in
  if String.eqb confidence "Low" then suggestions
  else
    let data (source_filename : option string) :=
      {| state := "pending";
         timestamp := now;
         confidence := confidence;
         score := score;
         source_type := item_source source;
         source_title := item_title source;
         source_id := item_id source;
         match_type := match_type;
         match_title := or_else (mi_title found) (mi_filename found);
         match_id := mi_id found;
         match_filename := mi_filename found;
         source_filename := source_filename |} in
    if String.eqb (item_source source) "STORYTELLER" then
      match _find_ebook_by_title files (item_title source) with
      | Some ebook_file =>
          if Py.truthy_str ebook_file
          then <[key := data (Some ebook_file)]> suggestions
          else suggestions
      | None => suggestions
      end
    else <[key := data None]> suggestions.

End Scoring.

(** [_generate_key]. *)
Definition _generate_key (source source_id : string) : string :=
  String.append source (String.append ":" source_id).

End SuggestionManager.

(** ** Producing a transcript ([transcriber.py], [process_audio]) *)

Module ProcessAudio.

Import Transcription.

(** What fetching one part does: the part file is written and not empty,
    a file is left that is empty or broken (a [ValueError], or the stream
    raised), or the request raises before any file is written. *)
Inductive download : Type :=
| Fetched
| BadFile
| FetchRaises.

(** One audio part: its download, the duration [_get_audio_duration]
    reports for it and the segments the model returns ([None]: the model
    raises). *)
Record part : Type := Part {
  fetch : download;
  duration : Q;
  transcribed : option (list segment)
}.

(** What [json.dump] into the output file does. *)
Inductive dump : Type :=
| Dumped
| DumpRaises (file_left : bool).

(** The two places on disk: the transcript of the book ([None]: no such
    file) and the cache directory of the book with the numbers of the part
    files in it ([None]: no such directory). *)
Record disk : Type := Disk {
  output_file : option transcript_file;
  book_cache_dir : option (list nat)
}.

(** Phase 1: the download loop stops at the first part that fails. *)
Fixpoint download_from (idx : nat) (parts : list part) (cached : list nat)
  : Py.res unit * list nat :=
  match parts with
  | [] => (Py.Ret tt, cached)
  | p :: rest =>
      match fetch p with
      | Fetched => download_from (S idx) rest (cached ++ [idx])
      | BadFile => (Py.Raise, cached ++ [idx])
      | FetchRaises => (Py.Raise, cached)
      end
  end.

Section Body.

Variable strip : string -> string.

(** Phase 2, with a model that may raise. *)
Fixpoint transcribe_from (parts : list part) (cumulative_duration : Q)
  : option (list segment) :=
  match parts with
  | [] => Some []
  | p :: rest =>
      match transcribed p with
      | None => None
      | Some segments =>
          match transcribe_from rest (cumulative_duration + duration p) with
          | Some more =>
              Some (map (placed strip cumulative_duration) segments ++ more)
          | None => None
          end
      end
  end.

(** The body of the [try], from the empty cache directory; the disk is
    given as it is when the body returns or raises. *)
Definition try_body (model_loads : bool) (d : dump) (parts : list part)
  : Py.res unit * disk :=
  match download_from 0 parts [] with
  | (Py.Raise, cached) =>
      (Py.Raise, {| output_file := None; book_cache_dir := Some cached |})
  | (Py.Ret _, cached) =>
      if negb model_loads
      then (Py.Raise, {| output_file := None; book_cache_dir := Some cached |})
      else
        match transcribe_from parts 0 with
        | None =>
            (Py.Raise, {| output_file := None; book_cache_dir := Some cached |})
        | Some full_transcript =>
            match d with
            | Dumped =>
                (Py.Ret tt, {| output_file := Some (SegList full_transcript);
                               book_cache_dir := Some cached |})
            | DumpRaises file_left =>
                (Py.Raise,
                 {| output_file := if file_left then Some Unreadable else None;
                    book_cache_dir := Some cached |})
            end
        end
  end.

(** [except]: [if output_file.exists(): os.remove(output_file)]. *)
Definition except_clause (dk : disk) : disk :=
  {| output_file := None; book_cache_dir := book_cache_dir dk |}.

(** [finally]: [if book_cache_dir.exists(): shutil.rmtree(book_cache_dir)]. *)
Definition finally_clause (dk : disk) : disk :=
  {| output_file := output_file dk; book_cache_dir := None |}.

(** [process_audio]: [Ret] is the path of the transcript being returned,
    [Raise] the exception being raised again. *)
Definition process_audio (model_loads : bool) (d : dump) (dk : disk)
  (parts : list part) : Py.res unit * disk :=
  match output_file dk with
  | Some _ => (Py.Ret tt, dk)
  | None =>
      let '(r, dk1) := try_body model_loads d parts in
      let dk2 :=
        match r with
        | Py.Raise => except_clause dk1
        | Py.Ret _ => dk1
        end in
      (r, finally_clause dk2)
  end.

End Body.

End ProcessAudio.

(** ** The REST client of the alternate reader ([storyteller_api.py]) *)

Module StorytellerAPI.

(** The fields of [StorytellerAPIClient] that the token handling uses. *)
Record client : Type := Client {
  username : option string;
  password : option string;
  _token : option string;
  _token_timestamp : Q
}.

Definition _token_max_age : Q := 30.

(** The answer to [POST /api/token]: the request raises, or it has a
    status and, when the body is an object, the ['access_token'] of the
    body ([Some None]: no such field; [None]: the body does not decode or
    is no object). *)
Inductive login_answer : Type :=
| LoginRaises
| LoginStatus (status_code : nat) (access_token : option (option string)).

(** A response of the session. *)
Record response : Type := Response {
  status_code : nat;
  body : option Json.json
}.

(** The server and the clock: the n-th reading of [time.time()], the
    answer to the n-th login, and the answer to the n-th request of the
    session ([None]: the request raises). *)
Record server : Type := Server {
  time : nat -> Q;
  login : nat -> login_answer;
  answer : nat -> option response
}.

(** What goes over the wire. *)
Inductive event : Type :=
| LoginRequest
| Request (method endpoint : string) (token : option string).

(** The client together with the numbers of clock readings, logins and
    session requests so far, and the requests made. *)
Record state : Type := State {
  cl : client;
  ticks : nat;
  logins : nat;
  sends : nat;
  log : list event
}.

(** One reading of the clock. *)
Definition tick (st : state) : state :=
  {| cl := cl st; ticks := S (ticks st); logins := logins st;
     sends := sends st; log := log st |}.

(** [self._token = token]. *)
Definition set_token (st : state) (token : option string) : state :=
  {| cl := {| username := username (cl st); password := password (cl st);
              _token := token;
              _token_timestamp := _token_timestamp (cl st) |};
     ticks := ticks st; logins := logins st; sends := sends st;
     log := log st |}.

(** [self._token_timestamp = time.time()], the reading given. *)
Definition set_token_timestamp (st : state) (now : Q) : state :=
  {| cl := {| username := username (cl st); password := password (cl st);
              _token := _token (cl st);
              _token_timestamp := now |};
     ticks := ticks st; logins := logins st; sends := sends st;
     log := log st |}.

(** One [POST /api/token]. *)
Definition logged_in (st : state) : state :=
  {| cl := cl st; ticks := ticks st; logins := S (logins st);
     sends := sends st; log := log st ++ [LoginRequest] |}.

(** One request of the session. *)
Definition sent (st : state) (method endpoint : string)
  (token : option string) : state :=
  {| cl := cl st; ticks := ticks st; logins := logins st;
     sends := S (sends st);
     log := log st ++ [Request method endpoint token] |}.

(** [_get_fresh_token]. The clock is read for the age of the token only
    when there is a token. *)
Definition _get_fresh_token (s : server) (st : state)
  : option string * state :=
  let '(still_valid, st1) :=
    if Py.truthy_ostr (_token (cl st))
    then (Py.ltb (time s (ticks st) - _token_timestamp (cl st)) _token_max_age,
          tick st)
    else (false, st) in
  if still_valid then (_token (cl st1), st1)
  else if negb (Py.truthy_ostr (username (cl st1)))
          || negb (Py.truthy_ostr (password (cl st1)))
  then (None, st1)
  else
    let st2 := logged_in st1 in
    match login s (logins st1) with
    | LoginRaises => (None, st2)
    | LoginStatus code access_token =>
        if Nat.eqb code 200 then
          match access_token with
          | None => (None, st2)
          | Some token =>
              let st3 := set_token st2 token in
              let st4 := tick (set_token_timestamp st3 (time s (ticks st3))) in
              (_token (cl st4), st4)
          end
        else (None, st2)
    end.

Section Requests.

(** [str.upper]. *)
Variable upper : string -> string.

(** [_make_request]; the JSON body of a POST plays no part in what
    follows and is left out. *)
Definition _make_request (s : server) (st : state) (method endpoint : string)
  : option response * state :=
  let '(token, st1) := _get_fresh_token s st in
  if negb (Py.truthy_ostr token) then (None, st1)
  else if negb (String.eqb (upper method) "GET"
                || String.eqb (upper method) "POST")
  then (None, st1)
  else
    let st2 := sent st1 method endpoint token in
    match answer s (sends st1) with
    | None => (None, st2)
    | Some response =>
        if Nat.eqb (status_code response) 401 then
          let st3 := set_token st2 None in
          let '(token', st4) := _get_fresh_token s st3 in
          if negb (Py.truthy_ostr token') then (None, st4)
          else
            let st5 := sent st4 method endpoint token' in
            match answer s (sends st4) with
            | None => (None, st5)
            | Some response' => (Some response', st5)
            end
        else (Some response, st2)
    end.

End Requests.

End StorytellerAPI.

(** ** More sample data *)

Module SampleMore.

(** No string reads as a float. *)
Definition parse_float (_ : string) : option Q := None.

(** The UPDATE that forces the sample book to 50 % at clock 1700000000000. *)
Definition forced_update : StorytellerDB.sql_update :=
  {| StorytellerDB.u_locator :=
       Json.JObj
         [("type", Json.JStr "application/xhtml+xml");
          ("locations", Json.JObj [("totalProgression", Json.JNum (1 # 2))]);
          ("href", Json.JStr "OEBPS/chapter3.xhtml#frag12")]%string;
     StorytellerDB.u_timestamp := 1700000060000;
     StorytellerDB.u_uuid := "p-1" |}.

(** The newest position row of the sample book. *)
Definition newest_row : StorytellerDB.position_row :=
  StorytellerDB.PositionRow "p-1" "b-1" (Some Sample.locator) 1699999995000.

(** The fields of the sample locator. *)
Definition locator_fields : list (string * Json.json) :=
  match Sample.locator with
  | Json.JObj fields => fields
  | _ => []
  end.

(** The e-reader is ahead, at 75 %, and the text at that place is the
    second segment of the sample transcript. *)
Definition world : World :=
  {| abs_progress := fun _ => Response 200 (Some 130);
     kosync_progress := fun _ => Response 200 (Some (3 # 4));
     storyteller_progress := fun _ => Py.Ret (Some (1 # 2));
     storyteller_fragment := fun _ => Py.Ret (None, None);
     storyteller_update_raises := fun _ _ => false;
     fragment_text := fun _ _ _ => None;
     transcripts :=
       {[ "/data/transcripts/li_1.json"%string := Sample.transcript ]};
     find_text_location := fun _ _ _ => Py.Ret (None, None);
     get_text_at_percentage :=
       fun _ _ => Py.Ret (Some "and the clocks were striking thirteen"%string);
     partial_ratio := Sample.exact_ratio |}.

(** The same, with an alternate reader whose update raises. *)
Definition raising_world : World :=
  {| abs_progress := abs_progress world;
     kosync_progress := kosync_progress world;
     storyteller_progress := storyteller_progress world;
     storyteller_fragment := storyteller_fragment world;
     storyteller_update_raises := fun _ _ => true;
     fragment_text := fragment_text world;
     transcripts := transcripts world;
     find_text_location := find_text_location world;
     get_text_at_percentage := get_text_at_percentage world;
     partial_ratio := partial_ratio world |}.

(** What the cycle reads in both for the sample mapping. *)
Definition readings : SyncManager.readings :=
  {| SyncManager.r_abs_ts := 130; SyncManager.r_ko_pct := 3 # 4;
     SyncManager.r_st_pct := 1 # 2; SyncManager.r_abs_pct := Some (130 # 200) |}.

(** A mapping waiting for its setup. *)
Definition pending_mapping : mapping :=
  Mapping "li_2" "doc_2" "other.epub" "pending" None.

(** A setup that always fails. *)
Definition failing_run (_ : nat) (_ : mapping) : JobPipeline.job_outcome :=
  JobPipeline.SetupRaises.

(** A file of 5000 zero bytes, and a stand-in for the digest that keeps
    the bytes it is given. *)
Definition file : list nat := List.repeat 0%nat 5000.

Definition digest (bytes : list nat) : string :=
  string_of_list_ascii (map ascii_of_nat bytes).

(** Two audio parts of 200 and 100 seconds. *)
Definition parts : list (Q * list segment) :=
  [(200, Sample.segments); (100, [Segment 0 50 "Winston Smith"])].

(** A book of 300 pages in the catalogue. *)
Definition link : ReadingLog.link :=
  {| ReadingLog.hardcover_book_id := Some 7%Z;
     ReadingLog.hardcover_edition_id := Some 9%Z;
     ReadingLog.hardcover_pages := Some 300%Z |}.

(** A segment of 440 characters, followed by a short one. *)
Definition long_text : string :=
  String.concat "" (List.repeat "All work and no play makes Jack a dull boy. "%string 10).

Definition long_segments : list segment :=
  [Segment 0 100 long_text; Segment 100 200 "The end."].

End SampleMore.

(** * Properties *)

(** ** Python comparisons *)

(** Splits a conjunction into its parts, and nothing else. *)
Ltac conjs := repeat match goal with |- _ /\ _ => split end.

Lemma ltb_lt (a b : Q) : Py.ltb a b = true <-> a < b.
Proof.
  unfold Py.ltb. rewrite negb_true_iff. split.
  - intros H. apply Qnot_le_lt. intros Hle.
    apply Qle_bool_iff in Hle. congruence.
  - intros H. destruct (Qle_bool b a) eqn:E; [|reflexivity].
    apply Qle_bool_iff in E. exfalso. apply (Qlt_not_le _ _ H E).
Qed.

Lemma ltb_ge (a b : Q) : Py.ltb a b = false <-> b <= a.
Proof.
  unfold Py.ltb. rewrite negb_false_iff. apply Qle_bool_iff.
Qed.

(** ** Startup recovery (C1) *)

Lemma cleanup_keeps_other_statuses (ms : list mapping) :
  Forall (fun m => status m <> "crashed"%string) ms ->
  SyncManager.cleanup_stale_jobs ms = (ms, false).
Proof.
  induction 1 as [|m rest Hm _ IH]; simpl; [reflexivity|].
  rewrite IH. apply String.eqb_neq in Hm. now rewrite Hm.
Qed.

Lemma cleanup_keeps_mapping (ms : list mapping) (m : mapping) :
  In m ms ->
  status m <> "crashed"%string ->
  In m (fst (SyncManager.cleanup_stale_jobs ms)).
Proof.
  intros Hin Hst. induction ms as [|x rest IH]; simpl; [destruct Hin|].
  destruct (SyncManager.cleanup_stale_jobs rest) as [rest' changed].
  destruct (String.eqb (status x) "crashed") eqn:E; simpl.
  - destruct Hin as [<- | Hin].
    + apply String.eqb_eq in E. contradiction.
    + right. now apply IH.
  - destruct Hin as [<- | Hin]; [now left|]. right. now apply IH.
Qed.

(** C1. The recovery pass looks for the status ['crashed'], which nothing in
    the program ever assigns. A mapping found in ['processing'] is still in
    the document, still ['processing'], after the pass; and a document in
    which no mapping is ['crashed'] is returned as it was and is not
    saved. *)
Theorem cleanup_stale_jobs_leaves_processing (ms : list mapping) (m : mapping) :
  In m ms ->
  status m = "processing"%string ->
  In m (fst (SyncManager.cleanup_stale_jobs ms)) /\
  status m <> "active"%string /\
  (Forall (fun m' => status m' <> "crashed"%string) ms ->
     SyncManager.cleanup_stale_jobs ms = (ms, false)).
Proof.
  intros Hin Hst. conjs.
  - apply cleanup_keeps_mapping; [exact Hin|]. rewrite Hst. discriminate.
  - rewrite Hst. discriminate.
  - apply cleanup_keeps_other_statuses.
Qed.

Lemma cleanup_stale_jobs_leaves_processing_witness :
  In Sample.stale_mapping
     (fst (SyncManager.cleanup_stale_jobs [Sample.stale_mapping])) /\
  status Sample.stale_mapping <> "active"%string /\
  (Forall (fun m' => status m' <> "crashed"%string) [Sample.stale_mapping] ->
     SyncManager.cleanup_stale_jobs [Sample.stale_mapping]
       = ([Sample.stale_mapping], false)).
Proof.
  apply (cleanup_stale_jobs_leaves_processing
           [Sample.stale_mapping] Sample.stale_mapping).
  - simpl. left. reflexivity.
  - reflexivity.
Defined.

Example cleanup_stale_jobs_sample :
  SyncManager.cleanup_stale_jobs [Sample.stale_mapping; Sample.active_mapping]
  = ([Sample.stale_mapping; Sample.active_mapping], false).
Proof. reflexivity. Qed.

(** ** Normalisation of the audio position (C8) *)





(** Whether the normalisation raises depends on the file alone. *)
Lemma abs_to_percentage_returns (a a' : Q) (f : transcript_file)
  (v : option Q) :
  SyncManager._abs_to_percentage a f = Py.Ret v ->
  exists v', SyncManager._abs_to_percentage a' f = Py.Ret v'.
Proof.
  unfold SyncManager._abs_to_percentage.
  destruct (SyncManager._get_transcript_duration f); [|discriminate].
  intros _. eexists. reflexivity.
Qed.




(** The scenario of a transcript of 3600 s and an audio position of
    1800 s. *)
Example abs_to_percentage_sample :
  SyncManager._abs_to_percentage 1800
    (SegList [Segment 0 1800 "one"; Segment 1800 3600 "two"])
  = Py.Ret (Some (Py.min (Py.max (1800 / 3600) 0) 1)) /\
  Py.min (Py.max (1800 / 3600) 0) 1 == 1 # 2.
Proof. split; reflexivity. Qed.

(** ** Drift suppression (C5, C10) *)

Lemma moved_false (current baseline threshold : Q) :
  SyncManager.moved current baseline threshold = false <->
  Qabs (current - baseline) <= threshold.
Proof. unfold SyncManager.moved. apply ltb_ge. Qed.

Lemma any_changed_false (cfg : Config) (r : SyncManager.readings)
  (prev : option State.t) :
  SyncManager.any_changed cfg r prev = false <->
  Qabs (SyncManager.r_abs_ts r - State.get State.abs_ts prev)
    <= delta_abs_thresh cfg /\
  Qabs (SyncManager.r_ko_pct r - State.get State.kosync_pct prev)
    <= delta_kosync_thresh cfg /\
  Qabs (SyncManager.r_st_pct r - State.get State.storyteller_pct prev)
    <= delta_kosync_thresh cfg.
Proof.
  unfold SyncManager.any_changed.
  rewrite !orb_false_iff, !moved_false. tauto.
Qed.

Lemma sync_mapping_inactive (cfg : Config) (w : World) (now : Q)
  (state : gmap string State.t) (m : mapping) :
  status m <> "active"%string ->
  SyncManager.sync_mapping cfg w now state m = (state, []).
Proof.
  intros H. unfold SyncManager.sync_mapping.
  apply String.eqb_neq in H. now rewrite H.
Qed.

Lemma sync_mapping_skipped (cfg : Config) (w : World) (now : Q)
  (state : gmap string State.t) (m : mapping) :
  SyncManager.read_positions w m = Py.Raise ->
  SyncManager.sync_mapping cfg w now state m = (state, []).
Proof.
  intros H. unfold SyncManager.sync_mapping. rewrite H.
  now destruct (negb _).
Qed.

Lemma sync_mapping_suppressed (cfg : Config) (w : World) (now : Q)
  (state : gmap string State.t) (m : mapping) (r : SyncManager.readings) :
  status m = "active"%string ->
  SyncManager.read_positions w m = Py.Ret r ->
  SyncManager.any_changed cfg r (state !! abs_id m) = false ->
  SyncManager.sync_mapping cfg w now state m =
    (<[abs_id m := SyncManager.refreshed r (state !! abs_id m)]> state, []).
Proof.
  intros Hact Hr Hsame. unfold SyncManager.sync_mapping.
  apply String.eqb_eq in Hact. rewrite Hact, Hr. simpl.
  now rewrite Hsame.
Qed.

Lemma sync_mapping_attempted (cfg : Config) (w : World) (now : Q)
  (state : gmap string State.t) (m : mapping) (r : SyncManager.readings) :
  status m = "active"%string ->
  SyncManager.read_positions w m = Py.Ret r ->
  SyncManager.any_changed cfg r (state !! abs_id m) = true ->
  exists e ws,
    SyncManager.sync_mapping cfg w now state m = (<[abs_id m := e]> state, ws) /\
    State.last_updated e = now.
Proof.
  intros Hact Hr Hmoved. unfold SyncManager.sync_mapping.
  apply String.eqb_eq in Hact. rewrite Hact, Hr. simpl.
  rewrite Hmoved. simpl.
  destruct (SyncManager.select_leader _) as [leader leader_pct].
  eexists. eexists. split; reflexivity.
Qed.

(** The normalisation in the state entry written after a propagation
    returns whenever the positions were read, whatever the timestamp. *)
Lemma stored_abs_pct_returns (w : World) (m : mapping)
  (r : SyncManager.readings) (final_ts : Q) :
  SyncManager.read_positions w m = Py.Ret r ->
  exists abs_pct,
    SyncManager._abs_to_percentage final_ts
      (SyncManager.load_transcript w (transcript_path m)) = Py.Ret abs_pct /\
    SyncManager.stored_abs_pct final_ts
      (SyncManager.load_transcript w (transcript_path m))
    = Py.or_zero abs_pct.
Proof.
  unfold SyncManager.read_positions.
  destruct (storyteller_progress w (ebook_filename m)) as [st|]; [|discriminate].
  destruct (SyncManager._abs_to_percentage _ _) as [v|] eqn:E; [|discriminate].
  intros _.
  destruct (abs_to_percentage_returns _ final_ts _ v E) as (v' & Hv').
  exists v'. split; [exact Hv'|].
  unfold SyncManager.stored_abs_pct. now rewrite Hv'.
Qed.

(** C5. In a cycle whose readings [r] have the audio reading within
    [delta_abs_thresh] seconds of its baseline and the two percentage
    readings within [delta_kosync_thresh] of theirs, the mapping's pass
    makes no write to any source, whatever its status; and for an active
    mapping the stored baselines become the current readings. *)
Theorem no_movement_no_propagation (cfg : Config) (w : World) (now : Q)
  (state : gmap string State.t) (m : mapping) (r : SyncManager.readings) :
  let prev := state !! abs_id m in
  SyncManager.read_positions w m = Py.Ret r ->
  Qabs (SyncManager.r_abs_ts r - State.get State.abs_ts prev)
    <= delta_abs_thresh cfg ->
  Qabs (SyncManager.r_ko_pct r - State.get State.kosync_pct prev)
    <= delta_kosync_thresh cfg ->
  Qabs (SyncManager.r_st_pct r - State.get State.storyteller_pct prev)
    <= delta_kosync_thresh cfg ->
  snd (SyncManager.sync_mapping cfg w now state m) = [] /\
  (status m = "active"%string ->
   exists e,
     fst (SyncManager.sync_mapping cfg w now state m) !! abs_id m = Some e /\
     State.abs_ts e = SyncManager.r_abs_ts r /\
     State.abs_pct e = Py.or_zero (SyncManager.r_abs_pct r) /\
     State.kosync_pct e = SyncManager.r_ko_pct r /\
     State.storyteller_pct e = SyncManager.r_st_pct r /\
     forall other, other <> abs_id m ->
       fst (SyncManager.sync_mapping cfg w now state m) !! other = state !! other).
Proof.
  intros prev Hr Habs Hko Hst.
  assert (Hsame : SyncManager.any_changed cfg r prev = false)
    by (apply any_changed_false; auto).
  destruct (String.eqb (status m) "active") eqn:Hact.
  - apply String.eqb_eq in Hact.
    rewrite (sync_mapping_suppressed cfg w now state m r Hact Hr Hsame).
    split; [reflexivity|]. intros _. simpl.
    exists (SyncManager.refreshed r prev).
    rewrite lookup_insert_eq. repeat split.
    intros other Hne. now rewrite lookup_insert_ne.
  - apply String.eqb_neq in Hact.
    rewrite (sync_mapping_inactive cfg w now state m Hact).
    split; [reflexivity|]. intros Habsurd. contradiction.
Qed.

Lemma no_movement_no_propagation_witness :
  SyncManager.read_positions Sample.world Sample.active_mapping
    = Py.Ret Sample.readings /\
  snd (SyncManager.sync_mapping Sample.cfg Sample.world 1700000300
         Sample.state Sample.active_mapping) = [] /\
  (status Sample.active_mapping = "active"%string ->
   exists e,
     fst (SyncManager.sync_mapping Sample.cfg Sample.world 1700000300
            Sample.state Sample.active_mapping) !! abs_id Sample.active_mapping
       = Some e /\
     State.abs_ts e = SyncManager.r_abs_ts Sample.readings /\
     State.abs_pct e = Py.or_zero (SyncManager.r_abs_pct Sample.readings) /\
     State.kosync_pct e = SyncManager.r_ko_pct Sample.readings /\
     State.storyteller_pct e = SyncManager.r_st_pct Sample.readings /\
     forall other, other <> abs_id Sample.active_mapping ->
       fst (SyncManager.sync_mapping Sample.cfg Sample.world 1700000300
              Sample.state Sample.active_mapping) !! other
         = Sample.state !! other).
Proof.
  split; [reflexivity|].
  apply (no_movement_no_propagation Sample.cfg Sample.world 1700000300
           Sample.state Sample.active_mapping Sample.readings).
  - reflexivity.
  - apply Qle_bool_iff. vm_compute. reflexivity.
  - apply Qle_bool_iff. vm_compute. reflexivity.
  - apply Qle_bool_iff. vm_compute. reflexivity.
Defined.

(** C10. For an active mapping whose positions were read the pass leaves
    an entry for the mapping in the state document. When nothing moved,
    its [last_updated] is the one stored before ([0] when there was none)
    and no write is made; when something moved, so that propagation is
    attempted, it is the current time. A mapping that is not active, or
    whose positions could not be read, leaves the document as it was. *)
Theorem last_updated_marks_attempts (cfg : Config) (w : World) (now : Q)
  (state : gmap string State.t) (m : mapping) :
  let prev := state !! abs_id m in
  let result := SyncManager.sync_mapping cfg w now state m in
  (status m = "active"%string ->
   forall r, SyncManager.read_positions w m = Py.Ret r ->
   exists e,
     fst result !! abs_id m = Some e /\
     (SyncManager.any_changed cfg r prev = false ->
        State.last_updated e = State.get State.last_updated prev /\
        snd result = []) /\
     (SyncManager.any_changed cfg r prev = true ->
        State.last_updated e = now)) /\
  (status m <> "active"%string -> fst result = state) /\
  (SyncManager.read_positions w m = Py.Raise -> result = (state, [])).
Proof.
  intros prev result. subst result. conjs.
  - intros Hact r Hr.
    destruct (SyncManager.any_changed cfg r prev) eqn:Hc.
    + destruct (sync_mapping_attempted cfg w now state m r Hact Hr Hc)
        as (e & ws & -> & Hnow).
      exists e. simpl. rewrite lookup_insert_eq.
      split; [reflexivity|]. split; [discriminate|]. intros _. exact Hnow.
    + rewrite (sync_mapping_suppressed cfg w now state m r Hact Hr Hc).
      exists (SyncManager.refreshed r prev). simpl. rewrite lookup_insert_eq.
      split; [reflexivity|]. split; [|discriminate].
      intros _. split; reflexivity.
  - intros Hin. now rewrite (sync_mapping_inactive cfg w now state m Hin).
  - apply sync_mapping_skipped.
Qed.

Example last_updated_kept_sample :
  State.last_updated <$>
    (fst (SyncManager.sync_mapping Sample.cfg Sample.world 1700000300
            Sample.state Sample.active_mapping) !! "li_1"%string)
  = Some 1700000000.
Proof. vm_compute. reflexivity. Qed.

Example quiet_cycle_sample :
  SyncManager.sync_cycle Sample.cfg Sample.world (fun _ => 1700000300)
    Sample.state [Sample.stale_mapping; Sample.active_mapping]
  = (<["li_1"%string :=
        {| State.abs_ts := 130; State.abs_pct := Py.min (Py.max (130 / 200) 0) 1;
           State.kosync_pct := 1 # 2; State.storyteller_pct := 1 # 2;
           State.last_updated := 1700000000 |}]> Sample.state, []).
Proof. vm_compute. reflexivity. Qed.

(** ** Leader selection (C2) *)


Lemma select_leader_first (r : SyncManager.readings) :
  match SyncManager.select_leader r with
  | (KOSYNC, v) => v = SyncManager.r_ko_pct r
  | (STORYTELLER, v) =>
      v = SyncManager.r_st_pct r /\ SyncManager.r_ko_pct r < v
  | (ABS, v) =>
      SyncManager.r_abs_pct r = Some v /\
      SyncManager.r_ko_pct r < v /\ SyncManager.r_st_pct r < v
  end.
Proof.
  unfold SyncManager.select_leader, SyncManager.progress_map.
  destruct (SyncManager.r_abs_pct r) as [p|]; simpl.
  - destruct (Py.ltb (SyncManager.r_ko_pct r) (SyncManager.r_st_pct r)) eqn:E1;
      simpl.
    + destruct (Py.ltb (SyncManager.r_st_pct r) p) eqn:E2.
      * apply ltb_lt in E1, E2. split; [reflexivity|]. split; lra.
      * apply ltb_lt in E1. now split.
    + destruct (Py.ltb (SyncManager.r_ko_pct r) p) eqn:E2.
      * apply ltb_ge in E1. apply ltb_lt in E2. split; [reflexivity|]. split; lra.
      * reflexivity.
  - destruct (Py.ltb (SyncManager.r_ko_pct r) (SyncManager.r_st_pct r)) eqn:E1;
      simpl.
    + apply ltb_lt in E1. now split.
    + reflexivity.
Qed.







(** ** Python dicts *)

Section Dict.

Context {V : Type}.
Implicit Types (d : list (string * V)) (k : string) (v : V).

Lemma get_set_eq k v d : Json.get k (Json.set k v d) = Some v.
Proof.
  induction d as [|[k' v'] rest IH]; simpl.
  - now rewrite String.eqb_refl.
  - destruct (String.eqb k k') eqn:E; simpl; now rewrite E.
Qed.

Lemma get_set_ne k k0 v d :
  k <> k0 -> Json.get k (Json.set k0 v d) = Json.get k d.
Proof.
  intros Hne. induction d as [|[k' v'] rest IH]; simpl.
  - apply String.eqb_neq in Hne. now rewrite Hne.
  - destruct (String.eqb k0 k') eqn:E; simpl.
    + apply String.eqb_eq in E. subst k'.
      apply String.eqb_neq in Hne. now rewrite Hne.
    + now rewrite IH.
Qed.

Lemma set_set k v1 v2 d :
  Json.set k v2 (Json.set k v1 d) = Json.set k v2 d.
Proof.
  induction d as [|[k' v'] rest IH]; simpl.
  - now rewrite String.eqb_refl.
  - destruct (String.eqb k k') eqn:E; simpl; rewrite E; [reflexivity|].
    now rewrite IH.
Qed.

Lemma get_del_eq k d : Json.get k (Json.del k d) = None.
Proof.
  induction d as [|[k' v'] rest IH]; simpl; [reflexivity|].
  destruct (String.eqb k k') eqn:E; simpl; [exact IH|]. now rewrite E.
Qed.

Lemma get_del_ne k k0 d :
  k <> k0 -> Json.get k (Json.del k0 d) = Json.get k d.
Proof.
  intros Hne. induction d as [|[k' v'] rest IH]; simpl; [reflexivity|].
  destruct (String.eqb k0 k') eqn:E; simpl.
  - apply String.eqb_eq in E. subst k'.
    apply String.eqb_neq in Hne. now rewrite Hne.
  - now rewrite IH.
Qed.

Lemma get_del_none k k0 d :
  Json.get k d = None -> Json.get k (Json.del k0 d) = None.
Proof.
  intros H. destruct (String.eq_dec k k0) as [-> | Hne].
  - apply get_del_eq.
  - now rewrite get_del_ne.
Qed.

End Dict.

Lemma strip_anchors_removed (locations : list (string * Json.json)) (k : string) :
  In k StorytellerDB.anchor_keys ->
  Json.get k (StorytellerDB.strip_anchors locations) = None.
Proof.
  unfold StorytellerDB.strip_anchors, StorytellerDB.anchor_keys. simpl.
  intros [<- | [<- | [<- | [<- | []]]]];
    repeat first [apply get_del_eq | apply get_del_none].
Qed.

Lemma strip_anchors_kept (locations : list (string * Json.json)) (k : string) :
  ~ In k StorytellerDB.anchor_keys ->
  Json.get k (StorytellerDB.strip_anchors locations) = Json.get k locations.
Proof.
  unfold StorytellerDB.strip_anchors, StorytellerDB.anchor_keys. simpl.
  intros Hnot. rewrite !get_del_ne; [reflexivity| | | |];
    intros ->; apply Hnot; tauto.
Qed.

(** ** The newest position row *)

Lemma latest_from_some (b : string) (rows : list StorytellerDB.position_row)
  (best : option StorytellerDB.position_row) (r : StorytellerDB.position_row) :
  StorytellerDB.latest_from b rows best = Some r ->
  (best = Some r \/ (In r rows /\ StorytellerDB.p_book_uuid r = b)) /\
  (forall r', In r' rows -> StorytellerDB.p_book_uuid r' = b ->
     (StorytellerDB.p_timestamp r' <= StorytellerDB.p_timestamp r)%Z) /\
  (forall b0, best = Some b0 ->
     (StorytellerDB.p_timestamp b0 <= StorytellerDB.p_timestamp r)%Z).
Proof.
  revert best. induction rows as [|x rest IH]; intros best H; simpl in H.
  - subst best. split; [now left|]. split.
    + intros ? [].
    + intros b0 [= ->]. lia.
  - destruct (String.eqb (StorytellerDB.p_book_uuid x) b) eqn:Eb.
    + apply String.eqb_eq in Eb.
      destruct best as [b0|].
      * destruct (StorytellerDB.p_timestamp b0 <? StorytellerDB.p_timestamp x)%Z eqn:Et.
        -- apply Z.ltb_lt in Et.
           destruct (IH _ H) as (Hin & Hall & Hbest).
           specialize (Hbest x eq_refl).
           split; [|split].
           ++ right. destruct Hin as [[= ->] | [Hin Hb]].
              ** split; [now left | assumption].
              ** split; [now right | assumption].
           ++ intros r' [<- | Hin'] Hb'; [assumption | now apply Hall].
           ++ intros ? [= <-]. lia.
        -- apply Z.ltb_ge in Et.
           destruct (IH _ H) as (Hin & Hall & Hbest).
           specialize (Hbest b0 eq_refl).
           split; [|split].
           ++ destruct Hin as [Hin | [Hin Hb]]; [now left|].
              right. split; [now right | assumption].
           ++ intros r' [<- | Hin'] Hb'; [lia | now apply Hall].
           ++ intros ? [= <-]. assumption.
      * destruct (IH _ H) as (Hin & Hall & Hbest).
        specialize (Hbest x eq_refl).
        split; [|split].
        -- right. destruct Hin as [[= ->] | [Hin Hb]].
           ++ split; [now left | assumption].
           ++ split; [now right | assumption].
        -- intros r' [<- | Hin'] Hb'; [assumption | now apply Hall].
        -- intros ? [=].
    + apply String.eqb_neq in Eb.
      destruct (IH _ H) as (Hin & Hall & Hbest).
      split; [|split].
      * destruct Hin as [Hin | [Hin Hb]]; [now left|].
        right. split; [now right | assumption].
      * intros r' [<- | Hin'] Hb'; [contradiction | now apply Hall].
      * assumption.
Qed.

Lemma latest_from_exists (b : string) (rows : list StorytellerDB.position_row)
  (best : option StorytellerDB.position_row) :
  (is_Some best \/
   exists r, In r rows /\ StorytellerDB.p_book_uuid r = b) ->
  is_Some (StorytellerDB.latest_from b rows best).
Proof.
  revert best. induction rows as [|x rest IH]; intros best H; simpl.
  - destruct H as [H | (r & [] & _)]. exact H.
  - destruct (String.eqb (StorytellerDB.p_book_uuid x) b) eqn:Eb.
    + destruct best as [b0|].
      * destruct (_ <? _)%Z; apply IH; left; eexists; reflexivity.
      * apply IH. left. eexists; reflexivity.
    + apply IH. destruct H as [H | (r & [<- | Hin] & Hb)].
      * now left.
      * apply String.eqb_neq in Eb. contradiction.
      * right. exists r. now split.
Qed.

Lemma latest_position_spec (db : StorytellerDB.database) (b : string)
  (r : StorytellerDB.position_row) :
  StorytellerDB.latest_position db b = Some r ->
  In r (StorytellerDB.position db) /\
  StorytellerDB.p_book_uuid r = b /\
  (forall r', In r' (StorytellerDB.position db) ->
     StorytellerDB.p_book_uuid r' = b ->
     (StorytellerDB.p_timestamp r' <= StorytellerDB.p_timestamp r)%Z).
Proof.
  intros H. apply latest_from_some in H.
  destruct H as ([H | [Hin Hb]] & Hall & _); [discriminate|]. auto.
Qed.

(** ** The conflict arbiter (C3, C6, C9) *)


Section Arbiter.

Import Json StorytellerDB.

Variable title_like : string -> string -> bool.

(** What a call of [update_progress] that executes its UPDATE has read and
    what it writes. *)
Lemma update_progress_issued (db : database) (f : string) (p : Q) (now : Z)
  (u : sql_update) :
  issued (update_progress title_like db f p now) = Some u ->
  exists b row loc locs old_pct,
    select_book title_like db f = Some b /\
    latest_position db b = Some row /\
    (p_locator row = Some (JObj loc) \/ (p_locator row = None /\ loc = [])) /\
    (get "locations" loc = Some (JObj locs) \/
     (get "locations" loc = None /\ locs = [])) /\
    as_number (match get "totalProgression" locs with
               | Some v => v
               | None => JNum 0
               end) = Some old_pct /\
    Py.ltb (Qabs (p - old_pct)) (1 # 1000) = false /\
    u = {| u_locator :=
             JObj (set "locations"
                     (JObj (strip_anchors
                              (set "totalProgression" (JNum p) locs))) loc);
           u_timestamp := (Z.max now (p_timestamp row) + LEAP_MS)%Z;
           u_uuid := p_uuid row |} /\
    update_progress title_like db f p now = write db u.
Proof.
  unfold update_progress.
  destruct (select_book title_like db f) as [b|] eqn:Hb; [|discriminate].
  destruct (latest_position db b) as [row|] eqn:Hrow; [|discriminate].
  assert (Hloc : exists loc,
            (p_locator row = Some (JObj loc) \/ (p_locator row = None /\ loc = [])) /\
            match p_locator row with Some j => j | None => JObj [] end = JObj loc
            \/ forall loc, match p_locator row with Some j => j | None => JObj [] end
                           <> JObj loc).
  { destruct (p_locator row) as [[| | | | |loc]|];
      try (exists []; right; intros ? ?; discriminate).
    - exists loc. left. split; [now left | reflexivity].
    - exists []. left. split; [now right | reflexivity]. }
  destruct Hloc as (loc & [(Hsrc & ->) | Hnot]).
  2:{ destruct (match p_locator row with Some j => j | None => JObj [] end)
        as [| | | | |l]; try discriminate. now destruct (Hnot l). }
  unfold mem.
  destruct (get "locations" loc) as [v|] eqn:Hg.
  - rewrite Hg. destruct v as [| | | | |locs]; try discriminate.
    destruct (as_number _) as [old_pct|] eqn:Hold; [|discriminate].
    destruct (Py.ltb _ _) eqn:Hskip; [discriminate|].
    simpl. intros [= <-].
    exists b, row, loc, locs, old_pct. repeat split; auto.
  - rewrite get_set_eq. simpl.
    destruct (Py.ltb _ _) eqn:Hskip; [discriminate|].
    simpl. intros [= <-].
    exists b, row, loc, [], 0. rewrite set_set. repeat split; auto.
Qed.


Lemma update_progress_cases (db : database) (f : string) (p : Q) (now : Z) :
  (exists ret, update_progress title_like db f p now = no_write db ret) \/
  (exists u, update_progress title_like db f p now = write db u).
Proof.
  unfold update_progress.
  repeat match goal with
         | |- context [match ?x with _ => _ end] =>
             lazymatch x with
             | context [match _ with _ => _ end] => fail
             | _ => destruct x
             end
         end;
    try (left; eexists; reflexivity); right; eexists; reflexivity.
Qed.

Lemma update_progress_silent (db : database) (f : string) (p : Q) (now : Z) :
  issued (update_progress title_like db f p now) = None ->
  db_after (update_progress title_like db f p now) = db.
Proof.
  destruct (update_progress_cases db f p now) as [[ret ->] | [u ->]];
    [reflexivity | discriminate].
Qed.


(** After the UPDATE, the newest row of the book is one that carries the
    written locator and timestamp. *)
Lemma latest_after_update (db : database) (b : string) (row : position_row)
  (u : sql_update) :
  latest_position db b = Some row ->
  u_uuid u = p_uuid row ->
  (p_timestamp row < u_timestamp u)%Z ->
  exists r2,
    latest_position (apply_update u db) b = Some r2 /\
    p_locator r2 = Some (u_locator u) /\
    p_timestamp r2 = u_timestamp u.
Proof.
  intros Hrow Huuid Hts.
  destruct (latest_position_spec db b row Hrow) as (Hin & Hbook & Hmax).
  set (img := fun r : position_row =>
                if String.eqb (p_uuid r) (u_uuid u)
                then {| p_uuid := p_uuid r; p_book_uuid := p_book_uuid r;
                        p_locator := Some (u_locator u);
                        p_timestamp := u_timestamp u |}
                else r).
  assert (Hpos : position (apply_update u db) = map img (position db))
    by reflexivity.
  assert (Himg : img row = {| p_uuid := p_uuid row; p_book_uuid := p_book_uuid row;
                              p_locator := Some (u_locator u);
                              p_timestamp := u_timestamp u |}).
  { unfold img. rewrite Huuid, String.eqb_refl. reflexivity. }
  assert (Hsome : is_Some (latest_position (apply_update u db) b)).
  { unfold latest_position. apply latest_from_exists. right.
    exists (img row). split.
    - rewrite Hpos. now apply in_map.
    - rewrite Himg. exact Hbook. }
  destruct Hsome as [r2 Hr2]. exists r2. split; [exact Hr2|].
  destruct (latest_position_spec _ b r2 Hr2) as (Hin2 & Hbook2 & Hmax2).
  assert (Hge : (u_timestamp u <= p_timestamp r2)%Z).
  { assert (Hin' : In (img row) (position (apply_update u db)))
      by (rewrite Hpos; now apply in_map).
    pose proof (Hmax2 _ Hin') as Hm. rewrite Himg in Hm.
    apply Hm. exact Hbook. }
  rewrite Hpos in Hin2. apply in_map_iff in Hin2.
  destruct Hin2 as (r0 & Hr0 & Hin0). unfold img in Hr0.
  destruct (String.eqb (p_uuid r0) (u_uuid u)).
  - subst r2. split; reflexivity.
  - subst r2. specialize (Hmax r0 Hin0 Hbook2). lia.
Qed.

Lemma force_position_update_issued (db : database) (f : string) (p : Q)
  (href : option string) (now : Z) (u : sql_update) :
  issued (force_position_update title_like db f p href now) = Some u ->
  exists b row,
    select_book title_like db f = Some b /\
    latest_position db b = Some row /\
    u_timestamp u = (now + FORCE_LEAP_MS)%Z /\
    u_uuid u = p_uuid row.
Proof.
  unfold force_position_update.
  destruct (select_book title_like db f) as [b|] eqn:Hb; [|discriminate].
  destruct (latest_position db b) as [row|] eqn:Hrow; [|discriminate].
  destruct (match p_locator row with Some j => j | None => JObj [] end);
    try discriminate.
  simpl. intros [= <-]. exists b, row. repeat split; auto.
Qed.

(** C3, as the code has it. A write of [update_progress] carries the
    timestamp [max(now_ms, stored) + 10000], which is beyond
    [stored + 10000 - 1] and beyond the clock. A write of
    [force_position_update] carries [now_ms + 60000] whatever the stored
    timestamp is: it is beyond the clock, and it is
    [max(now_ms, stored) + 60000], beyond [stored + 60000 - 1], when the
    stored timestamp is not ahead of the clock. *)
Theorem leap_timestamps (db : database) (f : string) (p : Q)
  (href : option string) (now : Z) :
  (forall u, issued (update_progress title_like db f p now) = Some u ->
     exists b row,
       select_book title_like db f = Some b /\
       latest_position db b = Some row /\
       u_timestamp u = (Z.max now (p_timestamp row) + LEAP_MS)%Z /\
       (p_timestamp row + LEAP_MS - 1 < u_timestamp u)%Z /\
       (now < u_timestamp u)%Z) /\
  (forall u, issued (force_position_update title_like db f p href now) = Some u ->
     exists b row,
       select_book title_like db f = Some b /\
       latest_position db b = Some row /\
       u_timestamp u = (now + FORCE_LEAP_MS)%Z /\
       (now < u_timestamp u)%Z /\
       ((p_timestamp row <= now)%Z ->
          u_timestamp u = (Z.max now (p_timestamp row) + FORCE_LEAP_MS)%Z /\
          (p_timestamp row + FORCE_LEAP_MS - 1 < u_timestamp u)%Z)).
Proof.
  split; intros u Hu.
  - apply update_progress_issued in Hu.
    destruct Hu as (b & row & loc & locs & old_pct
                    & Hb & Hrow & _ & _ & _ & _ & -> & _).
    exists b, row. simpl. unfold LEAP_MS. repeat split; auto; lia.
  - apply force_position_update_issued in Hu.
    destruct Hu as (b & row & Hb & Hrow & Hts & _).
    exists b, row. rewrite Hts. unfold FORCE_LEAP_MS.
    repeat split; auto; lia.
Qed.

(** C9. A write of [update_progress] is one UPDATE, keyed by the uuid of
    the newest position row of the book, that carries the leapt timestamp
    and a locator which differs from the stored one (the empty object, when
    the stored text is empty or undecodable) only under ['locations']:
    there ['totalProgression'] is the new percentage, the four anchor keys
    are gone, and every other key is as before. Every other top-level key
    (['href'] and ['type'] among them) is as before. Rows with another uuid
    and the book table are untouched. *)
Theorem update_progress_frame (db : database) (f : string) (p : Q) (now : Z)
  (u : sql_update) :
  issued (update_progress title_like db f p now) = Some u ->
  exists b row loc locs loc' locs',
    select_book title_like db f = Some b /\
    latest_position db b = Some row /\
    (p_locator row = Some (JObj loc) \/ (p_locator row = None /\ loc = [])) /\
    (get "locations" loc = Some (JObj locs) \/
     (get "locations" loc = None /\ locs = [])) /\
    u_locator u = JObj loc' /\
    get "locations" loc' = Some (JObj locs') /\
    (forall k, k <> "locations"%string -> get k loc' = get k loc) /\
    get "totalProgression" locs' = Some (JNum p) /\
    (forall k, In k anchor_keys -> get k locs' = None) /\
    (forall k, k <> "totalProgression"%string -> ~ In k anchor_keys ->
       get k locs' = get k locs) /\
    u_uuid u = p_uuid row /\
    u_timestamp u = (Z.max now (p_timestamp row) + LEAP_MS)%Z /\
    db_after (update_progress title_like db f p now) = apply_update u db /\
    book (apply_update u db) = book db /\
    (forall r, In r (position db) -> p_uuid r <> p_uuid row ->
       In r (position (apply_update u db))) /\
    (forall r, In r (position (apply_update u db)) -> p_uuid r = p_uuid row ->
       p_locator r = Some (u_locator u) /\ p_timestamp r = u_timestamp u).
Proof.
  intros Hu. apply update_progress_issued in Hu.
  destruct Hu as (b & row & loc & locs & old_pct
                  & Hb & Hrow & Hsrc & Hlocs & _ & _ & -> & Hw).
  exists b, row, loc, locs. eexists. eexists.
  split; [exact Hb|]. split; [exact Hrow|].
  split; [exact Hsrc|]. split; [exact Hlocs|].
  split; [reflexivity|].
  split; [apply get_set_eq|].
  split; [intros k Hk; now apply get_set_ne|].
  split.
  { rewrite strip_anchors_kept; [apply get_set_eq|].
    unfold anchor_keys. simpl. intros [H | [H | [H | [H | []]]]]; discriminate. }
  split; [intros k Hk; now apply strip_anchors_removed|].
  split.
  { intros k Hk Hnot. rewrite strip_anchors_kept by assumption.
    now apply get_set_ne. }
  split; [reflexivity|]. split; [reflexivity|].
  split; [now rewrite Hw|]. split; [reflexivity|].
  split.
  - intros r Hin Hne. unfold apply_update. simpl.
    apply in_map_iff. exists r. split; [|exact Hin].
    apply String.eqb_neq in Hne. now rewrite Hne.
  - intros r Hin Heq. unfold apply_update in Hin. simpl in Hin.
    apply in_map_iff in Hin. destruct Hin as (r0 & Hr0 & _).
    destruct (String.eqb (p_uuid r0) (p_uuid row)) eqn:E.
    + subst r. split; reflexivity.
    + subst r. apply String.eqb_neq in E. contradiction.
Qed.


End Arbiter.

Example update_progress_sample :
  StorytellerDB.issued
    (StorytellerDB.update_progress Sample.title_like Sample.db "book.epub"
       (1 # 2) 1700000000000)
  = Some Sample.expected_update.
Proof. vm_compute. reflexivity. Qed.

(** C3, as stated, fails for the force tier. The normal write at clock
    1700000000000 stores the timestamp 1700000010000; a force write one
    second later carries 1700000061000, which is not
    [max(clock, stored) + 60000] and does not exceed
    [stored + 60000 - 1]. *)
Lemma force_leap_ignores_stored_timestamp :
  exists u1 u2 : StorytellerDB.sql_update,
    StorytellerDB.issued
      (StorytellerDB.update_progress Sample.title_like Sample.db "book.epub"
         (1 # 2) 1700000000000) = Some u1 /\
    StorytellerDB.p_timestamp <$>
      StorytellerDB.latest_position
        (StorytellerDB.db_after
           (StorytellerDB.update_progress Sample.title_like Sample.db
              "book.epub" (1 # 2) 1700000000000)) "b-1"
      = Some (StorytellerDB.u_timestamp u1) /\
    StorytellerDB.issued
      (StorytellerDB.force_position_update Sample.title_like
         (StorytellerDB.db_after
            (StorytellerDB.update_progress Sample.title_like Sample.db
               "book.epub" (1 # 2) 1700000000000))
         "book.epub" (3 # 5) None 1700000001000) = Some u2 /\
    StorytellerDB.u_timestamp u1 = 1700000010000%Z /\
    StorytellerDB.u_timestamp u2 = 1700000061000%Z /\
    StorytellerDB.u_timestamp u2 <>
      (Z.max 1700000001000 (StorytellerDB.u_timestamp u1)
       + StorytellerDB.FORCE_LEAP_MS)%Z /\
    ~ (StorytellerDB.u_timestamp u1 + StorytellerDB.FORCE_LEAP_MS - 1
       < StorytellerDB.u_timestamp u2)%Z.
Proof.
  eexists. eexists.
  split; [vm_compute; reflexivity|].
  split; [vm_compute; reflexivity|].
  split; [vm_compute; reflexivity|].
  cbn [StorytellerDB.u_timestamp]. unfold StorytellerDB.FORCE_LEAP_MS.
  repeat split; lia.
Qed.


Section ArbiterSample.

Import Json StorytellerDB.

Lemma update_progress_frame_witness :
  issued (update_progress Sample.title_like Sample.db "book.epub" (1 # 2)
            1700000000000) = Some Sample.expected_update /\
  exists b row loc locs loc' locs',
    select_book Sample.title_like Sample.db "book.epub" = Some b /\
    latest_position Sample.db b = Some row /\
    (p_locator row = Some (JObj loc) \/ (p_locator row = None /\ loc = [])) /\
    (get "locations" loc = Some (JObj locs) \/
     (get "locations" loc = None /\ locs = [])) /\
    u_locator Sample.expected_update = JObj loc' /\
    get "locations" loc' = Some (JObj locs') /\
    (forall k, k <> "locations"%string -> get k loc' = get k loc) /\
    get "totalProgression" locs' = Some (JNum (1 # 2)) /\
    (forall k, In k anchor_keys -> get k locs' = None) /\
    (forall k, k <> "totalProgression"%string -> ~ In k anchor_keys ->
       get k locs' = get k locs) /\
    u_uuid Sample.expected_update = p_uuid row /\
    u_timestamp Sample.expected_update
      = (Z.max 1700000000000 (p_timestamp row) + LEAP_MS)%Z /\
    db_after (update_progress Sample.title_like Sample.db "book.epub" (1 # 2)
                1700000000000)
      = apply_update Sample.expected_update Sample.db /\
    book (apply_update Sample.expected_update Sample.db) = book Sample.db /\
    (forall r, In r (position Sample.db) -> p_uuid r <> p_uuid row ->
       In r (position (apply_update Sample.expected_update Sample.db))) /\
    (forall r, In r (position (apply_update Sample.expected_update Sample.db)) ->
       p_uuid r = p_uuid row ->
       p_locator r = Some (u_locator Sample.expected_update) /\
       p_timestamp r = u_timestamp Sample.expected_update).
Proof.
  split.
  - vm_compute. reflexivity.
  - apply (update_progress_frame Sample.title_like Sample.db "book.epub"
             (1 # 2) 1700000000000 Sample.expected_update).
    vm_compute. reflexivity.
Defined.

End ArbiterSample.

(** ** Text to time (C4) *)

Lemma ltb_irrefl (a : Q) : Py.ltb a a = false.
Proof. apply ltb_ge. apply Qle_refl. Qed.

Section ExtractOne.

Variable scorer : string -> string -> Q.
Variable query : string.

Lemma extractOne_from_some (choices : list string) (i : nat)
  (c0 : string) (s0 : Q) (i0 : nat) :
  exists c s idx,
    AudioTranscriber.extractOne_from scorer query choices i (Some (c0, s0, i0))
      = Some (c, s, idx) /\
    (((c, s, idx) = (c0, s0, i0) /\
      forall c', In c' choices -> scorer query c' <= s0)
     \/
     (exists k, idx = (i + k)%nat /\ nth_error choices k = Some c /\
        s = scorer query c /\ s0 < s /\
        (forall j c', (j < k)%nat -> nth_error choices j = Some c' ->
           scorer query c' < s) /\
        (forall c', In c' choices -> scorer query c' <= s))).
Proof.
  revert i c0 s0 i0.
  induction choices as [|c1 rest IH]; intros i c0 s0 i0; simpl.
  - exists c0, s0, i0. split; [reflexivity|]. left.
    split; [reflexivity|]. intros ? [].
  - destruct (Py.ltb s0 (scorer query c1)) eqn:E.
    + apply ltb_lt in E.
      destruct (IH (S i) c1 (scorer query c1) i) as (c & s & idx & -> & Hcase).
      exists c, s, idx. split; [reflexivity|]. right.
      destruct Hcase as [([= -> -> ->] & Hall)
                        | (k & -> & Hnth & -> & Hlt & Hfirst & Hall)].
      * exists 0%nat. conjs.
        -- lia.
        -- reflexivity.
        -- reflexivity.
        -- exact E.
        -- intros j c' Hj. lia.
        -- intros c' [<- | Hin]; [apply Qle_refl | now apply Hall].
      * exists (S k). conjs.
        -- lia.
        -- exact Hnth.
        -- reflexivity.
        -- eapply Qlt_trans; eassumption.
        -- intros [|j] c' Hj Hc'; simpl in Hc'.
           ++ injection Hc' as <-. exact Hlt.
           ++ eapply Hfirst; [|eassumption]. lia.
        -- intros c' [<- | Hin]; [now apply Qlt_le_weak | now apply Hall].
    + apply ltb_ge in E.
      destruct (IH (S i) c0 s0 i0) as (c & s & idx & -> & Hcase).
      exists c, s, idx. split; [reflexivity|].
      destruct Hcase as [([= -> -> ->] & Hall)
                        | (k & -> & Hnth & -> & Hlt & Hfirst & Hall)].
      * left. split; [reflexivity|].
        intros c' [<- | Hin]; [exact E | now apply Hall].
      * right. exists (S k). conjs.
        -- lia.
        -- exact Hnth.
        -- reflexivity.
        -- exact Hlt.
        -- intros [|j] c' Hj Hc'; simpl in Hc'.
           ++ injection Hc' as <-. eapply Qle_lt_trans; eassumption.
           ++ eapply Hfirst; [|eassumption]. lia.
        -- intros c' [<- | Hin]; [|now apply Hall].
           apply Qlt_le_weak. eapply Qle_lt_trans; eassumption.
Qed.

(** [extractOne] returns nothing only for no choices; otherwise it returns
    a choice with its score and index, no choice scores higher, and every
    earlier choice scores strictly lower. *)
Lemma extractOne_spec (choices : list string) :
  match AudioTranscriber.extractOne scorer query choices with
  | None => choices = []
  | Some (c, s, idx) =>
      nth_error choices idx = Some c /\ s = scorer query c /\
      (forall c', In c' choices -> scorer query c' <= s) /\
      (forall j c', (j < idx)%nat -> nth_error choices j = Some c' ->
         scorer query c' < s)
  end.
Proof.
  unfold AudioTranscriber.extractOne.
  destruct choices as [|c1 rest]; simpl; [reflexivity|].
  destruct (extractOne_from_some rest 1 c1 (scorer query c1) 0)
    as (c & s & idx & -> & Hcase).
  destruct Hcase as [([= -> -> ->] & Hall)
                    | (k & -> & Hnth & -> & Hlt & Hfirst & Hall)].
  - conjs.
    + reflexivity.
    + reflexivity.
    + intros c' [<- | Hin]; [apply Qle_refl | now apply Hall].
    + intros j c' Hj. lia.
  - conjs.
    + exact Hnth.
    + reflexivity.
    + intros c' [<- | Hin]; [now apply Qlt_le_weak | now apply Hall].
    + intros [|j] c' Hj Hc'; simpl in Hc'.
      * injection Hc' as <-. exact Hlt.
      * eapply Hfirst; [|eassumption]. lia.
Qed.

End ExtractOne.

Lemma seg_at_nth_error (data : list segment) (i : nat) (seg : segment) :
  nth_error data i = Some seg -> AudioTranscriber.seg_at data i = seg.
Proof. intros H. unfold AudioTranscriber.seg_at. now apply nth_error_nth. Qed.

(** The general behaviour of [find_time_for_text] on a list of segments. *)
Lemma find_time_for_text_cases (scorer : string -> string -> Q)
  (data : list segment) (query : string) :
  match AudioTranscriber.find_time_for_text scorer (SegList data) query with
  | Some ts =>
      exists idx seg,
        nth_error data idx = Some seg /\ ts = seg_start seg /\
        80 < scorer query (seg_text seg) /\
        (forall seg', In seg' data ->
           scorer query (seg_text seg') <= scorer query (seg_text seg)) /\
        (forall j seg', (j < idx)%nat -> nth_error data j = Some seg' ->
           scorer query (seg_text seg') < scorer query (seg_text seg))
  | None => forall seg, In seg data -> scorer query (seg_text seg) <= 80
  end.
Proof.
  unfold AudioTranscriber.find_time_for_text.
  pose proof (extractOne_spec scorer query (map seg_text data)) as H.
  destruct (AudioTranscriber.extractOne scorer query (map seg_text data))
    as [[[c s] idx]|].
  - destruct H as (Hnth & -> & Hall & Hfirst).
    rewrite nth_error_map in Hnth.
    destruct (nth_error data idx) as [seg|] eqn:Hseg; [|discriminate].
    simpl in Hnth. injection Hnth as <-.
    destruct (Py.ltb 80 (scorer query (seg_text seg))) eqn:E.
    + apply ltb_lt in E. exists idx, seg.
      rewrite (seg_at_nth_error data idx seg Hseg).
      conjs; auto.
      * intros seg' Hin. apply Hall. now apply in_map.
      * intros j seg' Hj Hseg'. apply (Hfirst j); [exact Hj|].
        rewrite nth_error_map, Hseg'. reflexivity.
    + apply ltb_ge in E. intros seg' Hin.
      eapply Qle_trans; [|exact E]. apply Hall. now apply in_map.
  - apply map_eq_nil in H. subst data. intros ? [].
Qed.

(** C4, as the code has it. [find_time_for_text] answers with the start of
    the first segment of greatest score when that score is above 80, and
    with [None] when no score is above 80 (or the transcript is not a list
    of segments). Asked for the text of segment [i], whose score against
    itself is above 80 and is not exceeded, it answers with the start of
    segment [i], and so with a time in [[start, end]], when every earlier
    segment scores strictly lower. *)
Theorem find_time_for_text_spec (scorer : string -> string -> Q)
  (data : list segment) :
  (forall query,
     match AudioTranscriber.find_time_for_text scorer (SegList data) query with
     | Some ts =>
         exists idx seg,
           nth_error data idx = Some seg /\ ts = seg_start seg /\
           80 < scorer query (seg_text seg) /\
           (forall seg', In seg' data ->
              scorer query (seg_text seg') <= scorer query (seg_text seg)) /\
           (forall j seg', (j < idx)%nat -> nth_error data j = Some seg' ->
              scorer query (seg_text seg') < scorer query (seg_text seg))
     | None => forall seg, In seg data -> scorer query (seg_text seg) <= 80
     end) /\
  (forall query,
     AudioTranscriber.find_time_for_text scorer Unreadable query = None /\
     AudioTranscriber.find_time_for_text scorer OtherJson query = None /\
     forall d, AudioTranscriber.find_time_for_text scorer (DurDict d) query = None) /\
  (forall i seg,
     nth_error data i = Some seg ->
     80 < scorer (seg_text seg) (seg_text seg) ->
     (forall seg', In seg' data ->
        scorer (seg_text seg) (seg_text seg')
          <= scorer (seg_text seg) (seg_text seg)) ->
     (forall j seg', (j < i)%nat -> nth_error data j = Some seg' ->
        scorer (seg_text seg) (seg_text seg')
          < scorer (seg_text seg) (seg_text seg)) ->
     seg_start seg <= seg_end seg ->
     AudioTranscriber.find_time_for_text scorer (SegList data) (seg_text seg)
       = Some (seg_start seg) /\
     seg_start seg <= seg_start seg <= seg_end seg).
Proof.
  split; [|split].
  - intros query. apply find_time_for_text_cases.
  - intros query. repeat split.
  - intros i seg Hseg Hself Hmax Hearlier Horder.
    split; [|split; [apply Qle_refl | exact Horder]].
    pose proof (find_time_for_text_cases scorer data (seg_text seg)) as H.
    destruct (AudioTranscriber.find_time_for_text scorer (SegList data)
                (seg_text seg)) as [ts|].
    + destruct H as (idx & seg0 & Hseg0 & -> & _ & Hall & Hfirst).
      assert (Hin : In seg data) by (eapply nth_error_In; eassumption).
      assert (Hin0 : In seg0 data) by (eapply nth_error_In; eassumption).
      destruct (Nat.lt_trichotomy idx i) as [Hlt | [-> | Hgt]].
      * specialize (Hearlier idx seg0 Hlt Hseg0). specialize (Hall seg Hin).
        exfalso. eapply Qlt_not_le; eassumption.
      * rewrite Hseg in Hseg0. now injection Hseg0 as <-.
      * specialize (Hfirst i seg Hgt Hseg). specialize (Hmax seg0 Hin0).
        exfalso. eapply Qlt_not_le; eassumption.
    + assert (Hin : In seg data) by (eapply nth_error_In; eassumption).
      specialize (H seg Hin). exfalso. eapply Qlt_not_le; eassumption.
Qed.

(** C4, as stated, fails whatever the scorer is: in a transcript that says
    the same words twice, a query for the second segment's text is never
    answered with a time inside the second segment. *)
Lemma repeated_text_matches_first :
  ~ exists scorer : string -> string -> Q,
      forall (data : list segment) (i : nat) (seg : segment),
        nth_error data i = Some seg ->
        exists ts,
          AudioTranscriber.find_time_for_text scorer (SegList data) (seg_text seg)
            = Some ts /\
          seg_start seg <= ts <= seg_end seg.
Proof.
  intros [scorer H].
  specialize (H [Segment 0 4 "the end"; Segment 5 9 "the end"] 1%nat
                (Segment 5 9 "the end") eq_refl).
  destruct H as (ts & Hts & Hlo & _).
  unfold AudioTranscriber.find_time_for_text, AudioTranscriber.extractOne in Hts.
  simpl in Hts. rewrite ltb_irrefl in Hts.
  destruct (Py.ltb 80 (scorer "the end" "the end")); [|discriminate].
  injection Hts as <-. simpl in Hlo. revert Hlo. vm_compute. auto.
Qed.

Lemma find_time_for_text_spec_witness :
  AudioTranscriber.find_time_for_text Sample.exact_ratio
    (SegList Sample.segments) "and the clocks were striking thirteen"
    = Some 100 /\
  100 <= 100 <= 200.
Proof.
  apply (proj2 (proj2 (find_time_for_text_spec Sample.exact_ratio Sample.segments))
           1%nat (Segment 100 200 "and the clocks were striking thirteen")).
  - reflexivity.
  - reflexivity.
  - intros seg' [<- | [<- | []]]; apply Qle_bool_iff; reflexivity.
  - intros [|[|j]] seg' Hj Hseg'; [|lia|lia].
    injection Hseg' as <-. reflexivity.
  - apply Qle_bool_iff. reflexivity.
Defined.

(** ** Time to text (C7) *)

Section TimeToText.

Import AudioTranscriber.
Local Open Scope nat_scope.

Lemma string_length_append (s1 s2 : string) :
  String.length (s1 ++ s2) = String.length s1 + String.length s2.
Proof. induction s1 as [|a s1 IH]; simpl; [reflexivity|]. now rewrite IH. Qed.

Lemma concat_length_lower (sep : string) (l : list string) :
  list_sum (map String.length l) <= String.length (String.concat sep l).
Proof.
  induction l as [|x [|y r] IH].
  - simpl. lia.
  - simpl. lia.
  - change (String.concat sep (x :: y :: r))
      with (x ++ sep ++ String.concat sep (y :: r))%string.
    rewrite !string_length_append.
    change (list_sum (map String.length (x :: y :: r)))
      with (String.length x + list_sum (map String.length (y :: r))).
    lia.
Qed.

Lemma map_seg_at_seq (data : list segment) :
  map (seg_at data) (seq 0 (length data)) = data.
Proof.
  induction data as [|a l IH]; [reflexivity|].
  simpl. f_equal. rewrite <- seq_shift, map_map.
  exact IH.
Qed.

Lemma run_len_all (data : list segment) :
  Window.run_len data 0 (length data) = Window.total_len data.
Proof.
  unfold Window.run_len, Window.total_len. rewrite Nat.sub_0_r.
  rewrite <- (map_seg_at_seq data) at 3. now rewrite map_map.
Qed.

Lemma run_len_texts (data : list segment) (lo hi : nat) :
  list_sum (map String.length (map seg_text (Window.run data lo hi)))
  = Window.run_len data lo hi.
Proof. unfold Window.run, Window.run_len. now rewrite !map_map. Qed.

Lemma join_texts_run (data : list segment) (lo hi : nat) :
  join_texts data (seq lo (hi - lo))
  = String.concat " " (map seg_text (Window.run data lo hi)).
Proof. unfold join_texts, Window.run. now rewrite map_map. Qed.

Lemma run_len_left (data : list segment) (lo hi : nat) :
  S lo <= hi ->
  Window.run_len data lo hi = text_len data lo + Window.run_len data (S lo) hi.
Proof.
  intros H. unfold Window.run_len.
  replace (hi - lo) with (S (hi - S lo)) by lia. reflexivity.
Qed.

Lemma run_len_right (data : list segment) (lo hi : nat) :
  lo <= hi ->
  Window.run_len data lo (S hi) = Window.run_len data lo hi + text_len data hi.
Proof.
  intros H. unfold Window.run_len.
  replace (S hi - lo) with (S (hi - lo)) by lia.
  rewrite seq_S, map_app, list_sum_app. simpl.
  replace (lo + (hi - lo)) with hi by lia. lia.
Qed.

(** The two search loops. *)

Lemma contains_iff (seg : segment) (t : Q) :
  contains seg t = true <-> (seg_start seg <= t <= seg_end seg)%Q.
Proof.
  unfold contains. rewrite andb_true_iff, !Qle_bool_iff. tauto.
Qed.

Lemma find_containing_some (data : list segment) (t : Q) (i k : nat) :
  find_containing data t i = Some k ->
  exists j seg,
    k = i + j /\ nth_error data j = Some seg /\ contains seg t = true /\
    forall j' seg', j' < j -> nth_error data j' = Some seg' ->
      contains seg' t = false.
Proof.
  revert i. induction data as [|s rest IH]; intros i H; simpl in H.
  - discriminate.
  - destruct (contains s t) eqn:E.
    + injection H as <-. exists 0, s.
      conjs; [lia | reflexivity | exact E |].
      intros j' seg' Hj. lia.
    + destruct (IH _ H) as (j & seg & -> & Hnth & Hc & Hfirst).
      exists (S j), seg. conjs; [lia | exact Hnth | exact Hc |].
      intros [|j'] seg' Hj Hs; simpl in Hs.
      * now injection Hs as <-.
      * eapply Hfirst; [|eassumption]. lia.
Qed.

Lemma find_containing_none (data : list segment) (t : Q) (i : nat) :
  find_containing data t i = None ->
  forall seg, In seg data -> contains seg t = false.
Proof.
  revert i. induction data as [|s rest IH]; intros i H seg Hin; simpl in H.
  - destruct Hin.
  - destruct (contains s t) eqn:E; [discriminate|].
    destruct Hin as [<- | Hin]; [exact E|]. eapply IH; eassumption.
Qed.

Lemma find_closest_some (data : list segment) (t : Q) (i : nat) (d : Q)
  (k0 : nat) :
  exists res,
    find_closest data t i (Some d) (Some k0) = Some res /\
    ((res = k0 /\
      forall seg, In seg data -> (d <= boundary_dist seg t)%Q)
     \/
     (exists j seg,
        res = i + j /\ nth_error data j = Some seg /\
        (boundary_dist seg t < d)%Q /\
        (forall j' seg', j' < j -> nth_error data j' = Some seg' ->
           (boundary_dist seg t < boundary_dist seg' t)%Q) /\
        (forall seg', In seg' data ->
           (boundary_dist seg t <= boundary_dist seg' t)%Q))).
Proof.
  revert i d k0. induction data as [|s rest IH]; intros i d k0; simpl.
  - exists k0. split; [reflexivity|]. left. split; [reflexivity|]. intros ? [].
  - destruct (Py.ltb (boundary_dist s t) d) eqn:E.
    + apply ltb_lt in E.
      destruct (IH (S i) (boundary_dist s t) i) as (res & -> & Hcase).
      exists res. split; [reflexivity|]. right.
      destruct Hcase as [(-> & Hall) | (j & seg & -> & Hnth & Hlt & Hfirst & Hall)].
      * exists 0, s. conjs; [lia | reflexivity | exact E | |].
        -- intros j' seg' Hj. lia.
        -- intros seg' [<- | Hin]; [apply Qle_refl | now apply Hall].
      * exists (S j), seg. conjs; [lia | exact Hnth | | |].
        -- eapply Qlt_trans; eassumption.
        -- intros [|j'] seg' Hj Hs; simpl in Hs.
           ++ injection Hs as <-. exact Hlt.
           ++ eapply Hfirst; [|eassumption]. lia.
        -- intros seg' [<- | Hin]; [now apply Qlt_le_weak | now apply Hall].
    + apply ltb_ge in E.
      destruct (IH (S i) d k0) as (res & -> & Hcase).
      exists res. split; [reflexivity|].
      destruct Hcase as [(-> & Hall) | (j & seg & -> & Hnth & Hlt & Hfirst & Hall)].
      * left. split; [reflexivity|].
        intros seg' [<- | Hin]; [exact E | now apply Hall].
      * right. exists (S j), seg. conjs; [lia | exact Hnth | exact Hlt | |].
        -- intros [|j'] seg' Hj Hs; simpl in Hs.
           ++ injection Hs as <-. eapply Qlt_le_trans; eassumption.
           ++ eapply Hfirst; [|eassumption]. lia.
        -- intros seg' [<- | Hin]; [|now apply Hall].
           apply Qlt_le_weak. eapply Qlt_le_trans; eassumption.
Qed.

(** Where the expansion starts: at the first segment that contains the
    timestamp, or, when none does, at the first of the segments whose
    nearer boundary is nearest. *)
Lemma locate_spec (data : list segment) (t : Q) :
  data <> [] ->
  exists target seg,
    locate data t = Some target /\ nth_error data target = Some seg /\
    (((seg_start seg <= t <= seg_end seg)%Q /\
      forall j seg', j < target -> nth_error data j = Some seg' ->
        ~ (seg_start seg' <= t <= seg_end seg')%Q)
     \/
     ((forall seg', In seg' data -> ~ (seg_start seg' <= t <= seg_end seg')%Q) /\
      (forall seg', In seg' data ->
         (boundary_dist seg t <= boundary_dist seg' t)%Q) /\
      (forall j seg', j < target -> nth_error data j = Some seg' ->
         (boundary_dist seg t < boundary_dist seg' t)%Q))).
Proof.
  intros Hne. unfold locate.
  destruct (find_containing data t 0) as [k|] eqn:Hc.
  - apply find_containing_some in Hc.
    destruct Hc as (j & seg & -> & Hnth & Hin & Hfirst).
    exists j, seg. split; [reflexivity|]. split; [exact Hnth|]. left. split.
    + now apply contains_iff.
    + intros j' seg' Hj Hs Hin'. apply contains_iff in Hin'.
      rewrite (Hfirst j' seg' Hj Hs) in Hin'. discriminate.
  - assert (Hout : forall seg', In seg' data ->
                     ~ (seg_start seg' <= t <= seg_end seg')%Q).
    { intros seg' Hin Hin'. apply contains_iff in Hin'.
      rewrite (find_containing_none data t 0 Hc seg' Hin) in Hin'.
      discriminate. }
    destruct data as [|s rest]; [contradiction|]. simpl.
    destruct (find_closest_some rest t 1 (boundary_dist s t) 0)
      as (res & -> & Hcase).
    destruct Hcase as [(-> & Hall) | (j & seg & -> & Hnth & Hlt & Hfirst & Hall)].
    + exists 0, s. split; [reflexivity|]. split; [reflexivity|].
      right. conjs; [exact Hout | |].
      * intros seg' [<- | Hin]; [apply Qle_refl | now apply Hall].
      * intros j seg' Hj. lia.
    + exists (S j), seg. split; [reflexivity|]. split; [exact Hnth|].
      right. conjs; [exact Hout | |].
      * intros seg' [<- | Hin]; [now apply Qlt_le_weak | now apply Hall].
      * intros [|j'] seg' Hj Hs; simpl in Hs.
        -- injection Hs as <-. exact Hlt.
        -- eapply Hfirst; [|eassumption]. lia.
Qed.

(** The expansion loop. *)

Lemma covers_initial (data : list segment) (target : nat) :
  target < length data ->
  Window.covers data target
    {| segments_indices := [target];
       current_len := text_len data target;
       left := (Z.of_nat target - 1)%Z;
       right := S target |} target (S target) /\
  Window.alternating (length data) target target (S target) 0.
Proof.
  intros Hlt. split.
  - unfold Window.covers, Window.run_len. cbn [segments_indices current_len left right].
    replace (S target - target) with 1 by lia. simpl.
    conjs; try reflexivity; lia.
  - unfold Window.alternating. lia.
Qed.

(** One pass of the loop body from a state whose length is below the
    target length. *)
Lemma step_spec (data : list segment) (target : nat) (w : window) (lo hi : nat) :
  Window.covers data target w lo hi ->
  Window.alternating (length data) target lo hi 0 ->
  current_len w < TARGET_LEN ->
  exists lo' hi',
    Window.covers data target (fst (step data w)) lo' hi' /\
    if snd (step data w)
    then Window.alternating (length data) target lo' hi' 0 /\
         lo' + (length data - hi') < lo + (length data - hi)
    else Window.alternating (length data) target lo' hi' 1 /\
         (TARGET_LEN <= current_len (fst (step data w)) \/
          (lo' = 0 /\ hi' = length data)).
Proof.
  intros (Hrange & Hhi & Hidx & Hleft & Hright & Hlen) (Hbal1 & Hbal2) Hshort.
  unfold step. rewrite Hleft.
  destruct lo as [|lo0].
  - (* nothing on the left *)
    change (0 <=? Z.of_nat 0 - 1)%Z with false. cbv iota.
    assert (Hno : (TARGET_LEN <=? current_len w) = false)
      by (apply Nat.leb_gt; exact Hshort).
    rewrite Hno, Hright.
    destruct (hi <? length data) eqn:Er.
    + apply Nat.ltb_lt in Er. exists 0, (S hi). cbn [fst snd orb].
      split.
      * unfold Window.covers. cbn [segments_indices current_len left right].
        rewrite Hidx, Hlen, run_len_right by lia.
        replace (S hi - 0) with (S (hi - 0)) by lia. rewrite seq_S.
        replace (0 + (hi - 0)) with hi by lia.
        conjs; try reflexivity; lia.
      * unfold Window.alternating. split; lia.
    + apply Nat.ltb_ge in Er. exists 0, hi. cbn [fst snd orb].
      split.
      * unfold Window.covers. conjs; auto; lia.
      * unfold Window.alternating. split; [|lia]. split; lia.
  - (* the previous segment is taken *)
    assert (Hyes : (0 <=? Z.of_nat (S lo0) - 1)%Z = true)
      by (apply Z.leb_le; lia).
    rewrite Hyes. cbv iota. cbn [segments_indices current_len left right].
    replace (Z.to_nat (Z.of_nat (S lo0) - 1)) with lo0 by lia.
    assert (Hlen1 : current_len w + text_len data lo0 = Window.run_len data lo0 hi)
      by (rewrite Hlen, (run_len_left data lo0 hi) by lia; lia).
    assert (Hidx1 : lo0 :: segments_indices w = seq lo0 (hi - lo0)).
    { rewrite Hidx. replace (hi - lo0) with (S (hi - S lo0)) by lia. reflexivity. }
    destruct (TARGET_LEN <=? current_len w + text_len data lo0) eqn:Eb.
    + apply Nat.leb_le in Eb. exists lo0, hi. cbn [fst snd].
      split.
      * unfold Window.covers. cbn [segments_indices current_len left right].
        conjs; auto; lia.
      * cbn [current_len]. unfold Window.alternating. split; [|now left].
        split; lia.
    + rewrite Hright.
      destruct (hi <? length data) eqn:Er.
      * apply Nat.ltb_lt in Er. exists lo0, (S hi). cbn [fst snd orb].
        split.
        -- unfold Window.covers. cbn [segments_indices current_len left right].
           rewrite Hidx1, Hlen1, run_len_right by lia.
           replace (S hi - lo0) with (S (hi - lo0)) by lia. rewrite seq_S.
           replace (lo0 + (hi - lo0)) with hi by lia.
           conjs; try reflexivity; lia.
        -- unfold Window.alternating. split; lia.
      * apply Nat.ltb_ge in Er. exists lo0, hi. cbn [fst snd orb].
        split.
        -- unfold Window.covers. cbn [segments_indices current_len left right].
           conjs; auto; lia.
        -- unfold Window.alternating. split; lia.
Qed.

(** The loop ends within [length data] passes, on a run that reaches the
    target length or is the whole transcript. *)
Lemma expand_spec (data : list segment) (target : nat) (fuel : nat)
  (w : window) (lo hi : nat) :
  Window.covers data target w lo hi ->
  Window.alternating (length data) target lo hi 0 ->
  lo + (length data - hi) < fuel ->
  exists w' lo' hi',
    expand fuel data w = Some w' /\
    Window.covers data target w' lo' hi' /\
    Window.alternating (length data) target lo' hi' 1 /\
    (TARGET_LEN <= current_len w' \/ (lo' = 0 /\ hi' = length data)).
Proof.
  revert w lo hi. induction fuel as [|fuel IH]; intros w lo hi Hcov Halt Hfuel.
  - lia.
  - cbn [expand].
    destruct (TARGET_LEN <=? current_len w) eqn:E.
    + apply Nat.leb_le in E. exists w, lo, hi.
      conjs; [reflexivity | exact Hcov | | now left].
      destruct Halt as (H1 & H2). unfold Window.alternating. split; [|exact H2].
      destruct H1; [left; lia | now right].
    + apply Nat.leb_gt in E.
      destruct (step_spec data target w lo hi Hcov Halt E) as (lo' & hi' & Hcov' & Hres).
      destruct (step data w) as [w' go_on]. cbn [fst snd] in *.
      destruct go_on.
      * destruct Hres as (Halt' & Hdec).
        apply (IH w' lo' hi' Hcov' Halt'). lia.
      * destruct Hres as (Halt' & Hdone).
        exists w', lo', hi'. conjs; [reflexivity | exact Hcov' | exact Halt' | exact Hdone].
Qed.

(** C7, as the code has it. On a transcript with at least one segment
    [get_text_at_time] returns a text, for every timestamp. The text is the texts of the
    segments [lo], ..., [hi - 1], in transcript order and joined by single
    spaces. The run contains the segment the search settles on, which is the
    first one that contains the timestamp or, when none does, the first of
    those whose nearer boundary is nearest. The run grew by taking the
    previous and the next segment in turn, the previous one first, and it
    either reaches [TARGET_LEN] = 400 characters of segment text or is the
    whole transcript. So the text has at least 400 characters whenever the
    texts of the transcript add up to that many, and it is not empty
    whenever the transcript has any text. *)
Theorem get_text_at_time_spec (data : list segment) (t : Q) :
  data <> [] ->
  exists target seg lo hi txt,
    locate data t = Some target /\
    nth_error data target = Some seg /\
    (((seg_start seg <= t <= seg_end seg)%Q /\
      forall j seg', j < target -> nth_error data j = Some seg' ->
        ~ (seg_start seg' <= t <= seg_end seg')%Q)
     \/
     ((forall seg', In seg' data -> ~ (seg_start seg' <= t <= seg_end seg')%Q) /\
      (forall seg', In seg' data ->
         (boundary_dist seg t <= boundary_dist seg' t)%Q) /\
      (forall j seg', j < target -> nth_error data j = Some seg' ->
         (boundary_dist seg t < boundary_dist seg' t)%Q))) /\
    lo <= target < hi /\ hi <= length data /\
    Window.alternating (length data) target lo hi 1 /\
    get_text_at_time (SegList data) t = Some txt /\
    txt = String.concat " " (map seg_text (Window.run data lo hi)) /\
    (TARGET_LEN <= Window.run_len data lo hi \/ (lo = 0 /\ hi = length data)) /\
    Window.run_len data lo hi <= String.length txt /\
    (TARGET_LEN <= Window.total_len data -> TARGET_LEN <= String.length txt) /\
    (0 < Window.total_len data -> txt <> ""%string).
Proof.
  intros Hne.
  destruct (locate_spec data t Hne) as (target & seg & Hloc & Hseg & Hwhere).
  assert (Hlt : target < length data)
    by (apply nth_error_Some; rewrite Hseg; discriminate).
  destruct (covers_initial data target Hlt) as (Hcov0 & Halt0).
  destruct (expand_spec data target (length data) _ target (S target) Hcov0 Halt0)
    as (w & lo & hi & Hexp & Hcov & Halt & Hdone); [lia|].
  destruct Hcov as (Hrange & Hhi & Hidx & _ & _ & Hlen).
  rewrite Hlen in Hdone.
  exists target, seg, lo, hi,
    (String.concat " " (map seg_text (Window.run data lo hi))).
  assert (Hlower : Window.run_len data lo hi
                   <= String.length
                        (String.concat " " (map seg_text (Window.run data lo hi)))).
  { rewrite <- run_len_texts. apply concat_length_lower. }
  assert (Hall : lo = 0 /\ hi = length data ->
                 Window.run_len data lo hi = Window.total_len data).
  { intros [-> ->]. apply run_len_all. }
  conjs.
  - exact Hloc.
  - exact Hseg.
  - exact Hwhere.
  - lia.
  - lia.
  - exact Hhi.
  - exact Halt.
  - unfold get_text_at_time. rewrite Hloc. cbv zeta. rewrite Hexp, Hidx.
    now rewrite join_texts_run.
  - reflexivity.
  - exact Hdone.
  - exact Hlower.
  - intros Htotal. destruct Hdone as [Hd | Hd]; [lia|].
    rewrite (Hall Hd) in Hlower. lia.
  - intros Htotal Hempty. rewrite Hempty in Hlower. simpl in Hlower.
    destruct Hdone as [Hd | Hd].
    + unfold TARGET_LEN in Hd. lia.
    + rewrite (Hall Hd) in Hlower. lia.
Qed.

Lemma get_text_at_time_spec_witness :
  Sample.segments <> [] /\
  exists target seg lo hi txt,
    locate Sample.segments 130 = Some target /\
    nth_error Sample.segments target = Some seg /\
    (((seg_start seg <= 130 <= seg_end seg)%Q /\
      forall j seg', j < target -> nth_error Sample.segments j = Some seg' ->
        ~ (seg_start seg' <= 130 <= seg_end seg')%Q)
     \/
     ((forall seg', In seg' Sample.segments ->
         ~ (seg_start seg' <= 130 <= seg_end seg')%Q) /\
      (forall seg', In seg' Sample.segments ->
         (boundary_dist seg 130 <= boundary_dist seg' 130)%Q) /\
      (forall j seg', j < target -> nth_error Sample.segments j = Some seg' ->
         (boundary_dist seg 130 < boundary_dist seg' 130)%Q))) /\
    lo <= target < hi /\ hi <= length Sample.segments /\
    Window.alternating (length Sample.segments) target lo hi 1 /\
    get_text_at_time (SegList Sample.segments) 130 = Some txt /\
    txt = String.concat " " (map seg_text (Window.run Sample.segments lo hi)) /\
    (TARGET_LEN <= Window.run_len Sample.segments lo hi \/
     (lo = 0 /\ hi = length Sample.segments)) /\
    Window.run_len Sample.segments lo hi <= String.length txt /\
    (TARGET_LEN <= Window.total_len Sample.segments ->
       TARGET_LEN <= String.length txt) /\
    (0 < Window.total_len Sample.segments -> txt <> ""%string).
Proof.
  split.
  - discriminate.
  - apply (get_text_at_time_spec Sample.segments 130). discriminate.
Defined.

End TimeToText.

Example get_text_at_time_sample :
  AudioTranscriber.get_text_at_time Sample.transcript 130
  = Some "It was a bright cold day in April and the clocks were striking thirteen"%string.
Proof. vm_compute. reflexivity. Qed.

Example get_text_at_time_gap_sample :
  AudioTranscriber.get_text_at_time
    (SegList [Segment 0 10 "one"; Segment 20 30 "two"; Segment 40 50 "three"]) 32
  = Some "one two three"%string.
Proof. vm_compute. reflexivity. Qed.

(** C7, as stated, fails: a transcript may carry a segment without text
    (silence, after [strip]). On the transcript made of one such segment,
    of duration 10, the text returned for the timestamp 5 is empty. *)
Lemma silent_segment_gives_empty_text :
  SyncManager._get_transcript_duration (SegList [Segment 0 10 ""])
    = Seconds 10 /\
  0 <= 5 <= 10 /\
  AudioTranscriber.get_text_at_time (SegList [Segment 0 10 ""]) 5
    = Some ""%string.
Proof.
  split; [reflexivity|]. split.
  - split; apply Qle_bool_iff; reflexivity.
  - vm_compute. reflexivity.
Qed.

(** * Further properties of the code *)

(** ** Writing to the store and reading it back *)

Section StoreRoundTrip.

Import Json StorytellerDB StorytellerQueries.

Variable title_like : string -> string -> bool.
Variable parse_float : string -> option Q.

Lemma to_float_as_number (j : json) (q : Q) :
  as_number j = Some q -> to_float parse_float j = Some q.
Proof. destruct j as [|[|]| | | |]; simpl; congruence. Qed.

(** What a call of [update_progress] that returns [True] without an UPDATE
    has read. *)
Lemma update_progress_skipped (db : database) (f : string) (p : Q) (now : Z) :
  returned (update_progress title_like db f p now) = true ->
  issued (update_progress title_like db f p now) = None ->
  exists b row loc locs old_pct,
    select_book title_like db f = Some b /\
    latest_position db b = Some row /\
    (p_locator row = Some (JObj loc) \/ (p_locator row = None /\ loc = [])) /\
    (get "locations" loc = Some (JObj locs) \/
     (get "locations" loc = None /\ locs = [])) /\
    as_number (match get "totalProgression" locs with
               | Some v => v
               | None => JNum 0
               end) = Some old_pct /\
    Py.ltb (Qabs (p - old_pct)) (1 # 1000) = true.
Proof.
  unfold update_progress.
  destruct (select_book title_like db f) as [b|] eqn:Hb; [|discriminate].
  destruct (latest_position db b) as [row|] eqn:Hrow; [|discriminate].
  destruct (p_locator row) as [[| | | | |loc]|] eqn:Hloc; try discriminate.
  - unfold mem. destruct (get "locations" loc) as [v|] eqn:Hg.
    + rewrite Hg. destruct v as [| | | | |locs]; try discriminate.
      destruct (as_number _) as [old_pct|] eqn:Hold; [|discriminate].
      destruct (Py.ltb _ _) eqn:Hskip; [|discriminate].
      intros _ _. exists b, row, loc, locs, old_pct. conjs; auto.
    + rewrite get_set_eq. cbn [get as_number].
      destruct (Py.ltb _ _) eqn:Hskip; [|discriminate].
      intros _ _. exists b, row, loc, [], 0. conjs; auto.
  - cbn [mem get set String.eqb Ascii.eqb Bool.eqb as_number].
    destruct (Py.ltb _ _) eqn:Hskip; [|discriminate].
    intros _ _. exists b, row, [], [], 0. conjs; auto.
Qed.

Lemma get_progress_after_write (db : database) (f : string) (p : Q)
  (now : Z) (u : sql_update) :
  issued (update_progress title_like db f p now) = Some u ->
  get_progress title_like parse_float true
    (db_after (update_progress title_like db f p now)) f
    = (Some p, Some (u_timestamp u)).
Proof.
  intros Hu.
  destruct (update_progress_issued title_like db f p now u Hu)
    as (b & row & loc & locs & old_pct
        & Hb & Hrow & _ & _ & _ & _ & Hueq & Hw).
  assert (Hts : (p_timestamp row < u_timestamp u)%Z)
    by (rewrite Hueq; simpl; unfold LEAP_MS; lia).
  assert (Huuid : u_uuid u = p_uuid row) by (rewrite Hueq; reflexivity).
  destruct (latest_after_update db b row u Hrow Huuid Hts)
    as (r2 & Hr2 & Hloc2 & Hts2).
  rewrite Hw. cbn [db_after write]. unfold get_progress. cbn [negb].
  assert (Hsel : select_book title_like (apply_update u db) f = Some b)
    by exact Hb.
  rewrite Hsel, Hr2, Hloc2, Hts2, Hueq. cbn [u_locator u_timestamp].
  unfold total_progression. rewrite get_set_eq.
  rewrite strip_anchors_kept.
  2:{ unfold anchor_keys. simpl.
      intros [H | [H | [H | [H | []]]]]; discriminate. }
  rewrite get_set_eq. reflexivity.
Qed.

(** X1. After an UPDATE by [update_progress], [get_progress] answers with the
    percentage and the timestamp just written, and that timestamp is at
    least the leap later than the one [get_progress] reported before. *)
Theorem update_progress_then_get_progress (db : database) (f : string) (p : Q)
  (now : Z) (u : sql_update) :
  issued (update_progress title_like db f p now) = Some u ->
  get_progress title_like parse_float true
    (db_after (update_progress title_like db f p now)) f
    = (Some p, Some (u_timestamp u)) /\
  forall q ts,
    get_progress title_like parse_float true db f = (Some q, Some ts) ->
    (ts + LEAP_MS <= u_timestamp u)%Z.
Proof.
  intros Hu. split; [now apply get_progress_after_write|].
  destruct (update_progress_issued title_like db f p now u Hu)
    as (b & row & loc & locs & old_pct
        & Hb & Hrow & _ & _ & _ & _ & Hueq & Hw).
  intros q ts Hget. unfold get_progress in Hget. cbn [negb] in Hget.
  rewrite Hb, Hrow in Hget.
  destruct (p_locator row) as [data|]; [|discriminate].
  destruct (total_progression data) as [pct|]; [|discriminate].
  destruct (to_float parse_float pct); [|discriminate].
  injection Hget as _ <-. rewrite Hueq. cbn [u_timestamp]. lia.
Qed.

(** X2. A call of [update_progress] that returns [True] leaves the store in a
    state where [get_progress] reports a percentage within the epsilon of
    the target, with one exception: when the newest row has no decodable
    locator and the target is itself within the epsilon of zero, nothing
    is written and nothing can be read. *)
Theorem update_progress_true_postcondition (db : database) (f : string)
  (p : Q) (now : Z) :
  returned (update_progress title_like db f p now) = true ->
  (exists q ts,
     get_progress title_like parse_float true
       (db_after (update_progress title_like db f p now)) f
       = (Some q, Some ts) /\
     Qabs (p - q) < 1 # 1000) \/
  (get_progress title_like parse_float true
     (db_after (update_progress title_like db f p now)) f = (None, None) /\
   db_after (update_progress title_like db f p now) = db /\
   Qabs (p - 0) < 1 # 1000).
Proof.
  intros Hret.
  destruct (issued (update_progress title_like db f p now)) as [u|] eqn:Hu.
  - left. exists p, (u_timestamp u). split.
    + exact (get_progress_after_write db f p now u Hu).
    + assert (H0 : Qabs (p - p) == 0)
        by (rewrite (Qabs_wd (p - p) 0); [reflexivity | ring]).
      rewrite H0. reflexivity.
  - destruct (update_progress_skipped db f p now Hret Hu)
      as (b & row & loc & locs & old_pct
          & Hb & Hrow & Hsrc & Hlocs & Hold & Hskip).
    rewrite (update_progress_silent title_like db f p now Hu).
    apply ltb_lt in Hskip.
    unfold get_progress. cbn [negb]. rewrite Hb, Hrow.
    destruct Hsrc as [Hsrc | [Hsrc ->]]; rewrite Hsrc.
    + left. exists old_pct, (p_timestamp row). split; [|exact Hskip].
      unfold total_progression.
      destruct Hlocs as [Hg | [Hg ->]]; rewrite Hg.
      * destruct (get "totalProgression" locs) as [v|];
          now rewrite (to_float_as_number _ _ Hold).
      * cbn [get] in Hold. now rewrite (to_float_as_number _ _ Hold).
    + right. split; [reflexivity|]. split; [reflexivity|].
      destruct Hlocs as [Hg | [_ ->]]; [discriminate|].
      cbn [get as_number] in Hold. injection Hold as <-. exact Hskip.
Qed.

(** What [force_position_update] writes when it executes its UPDATE. *)
Lemma force_position_update_written (db : database) (f : string) (p : Q)
  (target_href : option string) (now : Z) (u : sql_update) :
  issued (force_position_update title_like db f p target_href now) = Some u ->
  exists b row old,
    select_book title_like db f = Some b /\
    latest_position db b = Some row /\
    (p_locator row = Some (JObj old) \/ (p_locator row = None /\ old = [])) /\
    let base :=
      [("type"%string,
        match get "type" old with
        | Some v => v
        | None => JStr "application/xhtml+xml"
        end);
       ("locations"%string, JObj [("totalProgression"%string, JNum p)])] in
    let href :=
      if Py.truthy_ostr target_href then option_map JStr target_href
      else match get "href" old with
           | Some h => if truthy h then Some h else None
           | None => None
           end in
    u = {| u_locator :=
             JObj (match href with
                   | Some h => base ++ [("href"%string, h)]
                   | None => base
                   end);
           u_timestamp := (now + FORCE_LEAP_MS)%Z;
           u_uuid := p_uuid row |} /\
    force_position_update title_like db f p target_href now = write db u.
Proof.
  unfold force_position_update.
  destruct (select_book title_like db f) as [b|] eqn:Hb; [|discriminate].
  destruct (latest_position db b) as [row|] eqn:Hrow; [|discriminate].
  assert (Hold : (exists old,
             (p_locator row = Some (JObj old) \/ (p_locator row = None /\ old = [])) /\
             match p_locator row with Some j => j | None => JObj [] end = JObj old)
            \/ forall old, match p_locator row with Some j => j | None => JObj [] end
                           <> JObj old).
  { destruct (p_locator row) as [[| | | | |old]|];
      try (right; intros ? ?; discriminate).
    - left. exists old. split; [now left | reflexivity].
    - left. exists []. split; [now right | reflexivity]. }
  destruct Hold as [(old & Hsrc & ->) | Hnot].
  2:{ destruct (match p_locator row with Some j => j | None => JObj [] end)
        as [| | | | |l]; try discriminate. now destruct (Hnot l). }
  intros Hu. exists b, row, old. cbv zeta.
  split; [first [reflexivity | exact Hb]|].
  split; [first [reflexivity | exact Hrow]|]. split; [exact Hsrc|].
  destruct (Py.truthy_ostr target_href) eqn:Ht.
  - destruct target_href as [h|]; [|discriminate].
    cbn in Hu. injection Hu as <-. split; reflexivity.
  - destruct (get "href" old) as [h|].
    + destruct (truthy h); cbn in Hu; injection Hu as <-; split; reflexivity.
    + cbn in Hu. injection Hu as <-. split; reflexivity.
Qed.

Lemma force_position_update_cases (db : database) (f : string) (p : Q)
  (target_href : option string) (now : Z) :
  force_position_update title_like db f p target_href now = no_write db false \/
  exists u, force_position_update title_like db f p target_href now = write db u.
Proof.
  destruct (issued (force_position_update title_like db f p target_href now))
    as [u|] eqn:Hu.
  - right. exists u.
    destruct (force_position_update_written db f p target_href now u Hu)
      as (b & row & old & _ & _ & _ & H).
    cbv zeta in H. exact (proj2 H).
  - left. revert Hu. unfold force_position_update.
    destruct (select_book title_like db f) as [b|]; [|reflexivity].
    destruct (latest_position db b) as [row|]; [|reflexivity].
    destruct (match p_locator row with Some j => j | None => JObj [] end);
      try reflexivity.
    discriminate.
Qed.

Lemma apply_update_shape (u : sql_update) (db : database) :
  book (apply_update u db) = book db /\
  map p_uuid (position (apply_update u db)) = map p_uuid (position db) /\
  map p_book_uuid (position (apply_update u db))
    = map p_book_uuid (position db).
Proof.
  unfold apply_update. cbn [book position]. rewrite !map_map.
  split; [reflexivity|].
  split; apply map_ext; intros r; now destruct (String.eqb _ _).
Qed.

(** X3. Neither write path adds, removes or re-keys a row: after
    [update_progress] or [force_position_update] the book table is the
    same and the position table has the same rows in the same order with
    the same uuid and book uuid. A call that returns [False] has changed
    nothing at all, and a call that executed an UPDATE returns [True]. *)
Theorem arbiter_keeps_rows (db : database) (f : string) (p : Q)
  (target_href : option string) (now : Z) :
  let o1 := update_progress title_like db f p now in
  let o2 := force_position_update title_like db f p target_href now in
  (book (db_after o1) = book db /\
   map p_uuid (position (db_after o1)) = map p_uuid (position db) /\
   map p_book_uuid (position (db_after o1)) = map p_book_uuid (position db) /\
   (returned o1 = false -> db_after o1 = db /\ issued o1 = None)) /\
  (book (db_after o2) = book db /\
   map p_uuid (position (db_after o2)) = map p_uuid (position db) /\
   map p_book_uuid (position (db_after o2)) = map p_book_uuid (position db) /\
   (returned o2 = false -> db_after o2 = db /\ issued o2 = None)).
Proof.
  cbv zeta. split.
  - destruct (update_progress_cases title_like db f p now) as [[ret ->] | [u ->]].
    + cbn. conjs; auto.
    + cbn [db_after write returned].
      destruct (apply_update_shape u db) as (H1 & H2 & H3).
      conjs; auto; discriminate.
  - destruct (force_position_update_cases db f p target_href now) as [-> | [u ->]].
    + cbn. conjs; auto.
    + cbn [db_after write returned].
      destruct (apply_update_shape u db) as (H1 & H2 & H3).
      conjs; auto; discriminate.
Qed.

(** X4. [force_position_update] rebuilds the locator: what it writes has the
    stored ['type'] (or the XHTML default), ['locations'] with
    ['totalProgression'] alone, and an ['href'] that is the target given
    or else the stored one when that is truthy; no other key of the stored
    locator survives. *)
Theorem force_position_update_rebuilds (db : database) (f : string) (p : Q)
  (target_href : option string) (now : Z) (u : sql_update) :
  issued (force_position_update title_like db f p target_href now) = Some u ->
  exists b row old l,
    select_book title_like db f = Some b /\
    latest_position db b = Some row /\
    (p_locator row = Some (JObj old) \/ (p_locator row = None /\ old = [])) /\
    u_locator u = JObj l /\
    u_uuid u = p_uuid row /\
    get "type" l = Some (match get "type" old with
                         | Some v => v
                         | None => JStr "application/xhtml+xml"
                         end) /\
    get "locations" l = Some (JObj [("totalProgression"%string, JNum p)]) /\
    get "href" l =
      (if Py.truthy_ostr target_href then option_map JStr target_href
       else match get "href" old with
            | Some h => if truthy h then Some h else None
            | None => None
            end) /\
    (forall k, k <> "type"%string -> k <> "locations"%string ->
       k <> "href"%string -> get k l = None).
Proof.
  intros Hu.
  destruct (force_position_update_written db f p target_href now u Hu)
    as (b & row & old & Hb & Hrow & Hsrc & H).
  cbv zeta in H. destruct H as (-> & _).
  exists b, row, old. eexists.
  split; [exact Hb|]. split; [exact Hrow|]. split; [exact Hsrc|].
  split; [reflexivity|]. split; [reflexivity|].
  destruct (if Py.truthy_ostr target_href then option_map JStr target_href
            else match get "href" old with
                 | Some h => if truthy h then Some h else None
                 | None => None
                 end) as [h|].
  - conjs; try reflexivity.
    intros k H1 H2 H3. apply String.eqb_neq in H1, H2, H3.
    cbn [get app]. now rewrite H1, H2, H3.
  - conjs; try reflexivity.
    intros k H1 H2 H3. apply String.eqb_neq in H1, H2.
    cbn [get]. now rewrite H1, H2.
Qed.

(** X5. After an UPDATE by [force_position_update], [get_progress] answers with
    the percentage written and the timestamp [now_ms + 60000], provided the
    newest row of the book was not already stamped that late. *)
Theorem force_position_update_then_get_progress (db : database) (f : string)
  (p : Q) (target_href : option string) (now : Z) (u : sql_update) :
  issued (force_position_update title_like db f p target_href now) = Some u ->
  (forall b row, select_book title_like db f = Some b ->
     latest_position db b = Some row ->
     (p_timestamp row < now + FORCE_LEAP_MS)%Z) ->
  get_progress title_like parse_float true
    (db_after (force_position_update title_like db f p target_href now)) f
    = (Some p, Some (now + FORCE_LEAP_MS)%Z).
Proof.
  intros Hu Hearly.
  destruct (force_position_update_written db f p target_href now u Hu)
    as (b & row & old & Hb & Hrow & Hsrc & H).
  cbv zeta in H. destruct H as (Hueq & Hw).
  assert (Hts : (p_timestamp row < u_timestamp u)%Z)
    by (rewrite Hueq; cbn [u_timestamp]; now apply (Hearly b row)).
  assert (Huuid : u_uuid u = p_uuid row) by (rewrite Hueq; reflexivity).
  destruct (latest_after_update db b row u Hrow Huuid Hts)
    as (r2 & Hr2 & Hloc2 & Hts2).
  rewrite Hw. cbn [db_after write]. unfold get_progress. cbn [negb].
  assert (Hsel : select_book title_like (apply_update u db) f = Some b)
    by exact Hb.
  rewrite Hsel, Hr2, Hloc2, Hts2, Hueq. cbn [u_locator u_timestamp].
  destruct (if Py.truthy_ostr target_href then option_map JStr target_href
            else match get "href" old with
                 | Some h => if truthy h then Some h else None
                 | None => None
                 end); reflexivity.
Qed.

End StoreRoundTrip.

(** ** The fragment of the stored position *)

Section Fragment.

Import Json StorytellerDB StorytellerQueries.

Variable title_like : string -> string -> bool.
Variable parse_float : string -> option Q.

Lemma before_hash_clean (s : string) :
  ~ In "#"%char (list_ascii_of_string (before_hash s)).
Proof.
  induction s as [|c rest IH]; simpl; [tauto|].
  destruct (Ascii.eqb c "#") eqn:E; simpl; [tauto|].
  intros [H | H]; [|contradiction].
  subst c. now rewrite Ascii.eqb_refl in E.
Qed.

Lemma after_hash_spec (s : string) :
  match after_hash s with
  | None => before_hash s = s
  | Some rest => s = (before_hash s ++ String "#" rest)%string
  end.
Proof.
  induction s as [|c rest IH]; simpl; [reflexivity|].
  destruct (Ascii.eqb c "#") eqn:E.
  - apply Ascii.eqb_eq in E. now subst c.
  - destruct (after_hash rest) as [r|]; simpl.
    + change (String c rest = String c (before_hash rest ++ String "#" r)%string).
      now rewrite <- IH.
    + now rewrite IH.
Qed.

(** X6. [get_progress_with_fragment] and [get_progress] read the same row:
    when the first yields a percentage the second yields the same
    percentage and timestamp, and when it yields none it yields nothing at
    all; when the second yields nothing, so does the first. *)
Theorem get_progress_with_fragment_agrees (connected : bool) (db : database)
  (f : string) :
  let '(pct, ts, href, frag) :=
    get_progress_with_fragment title_like parse_float connected db f in
  (pct = None -> ts = None /\ href = None /\ frag = None) /\
  (pct <> None ->
     get_progress title_like parse_float connected db f = (pct, ts)) /\
  (get_progress title_like parse_float connected db f = (None, None) ->
     pct = None).
Proof.
  unfold get_progress_with_fragment, get_progress. cbv zeta.
  destruct (negb connected); [conjs; auto; congruence|].
  destruct (select_book title_like db f) as [b|]; [|conjs; auto; congruence].
  destruct (latest_position db b) as [row|]; [|conjs; auto; congruence].
  destruct (p_locator row) as [data|]; [|conjs; auto; congruence].
  destruct (total_progression data) as [pct|]; [|conjs; auto; congruence].
  destruct (to_float parse_float pct) as [v|].
  - destruct (split_href _) as [[href' frag]|]; conjs; auto; congruence.
  - destruct (split_href _) as [[href' frag]|]; conjs; auto; congruence.
Qed.

(** X7. When the stored ['href'] is a string, the [href] returned has no ['#'],
    and the fragment returned is what stands between the first ['#'] and
    the next one (or the end): with no ['#'] in the stored value there is
    no fragment and the [href] is the stored value. *)
Theorem get_progress_with_fragment_splits (db : database) (f : string)
  (b : string) (row : position_row) (fields : list (string * json))
  (s : string) (v : Q) (ts : Z) (href : option json) (frag : option string) :
  select_book title_like db f = Some b ->
  latest_position db b = Some row ->
  p_locator row = Some (JObj fields) ->
  get "href" fields = Some (JStr s) ->
  get_progress_with_fragment title_like parse_float true db f
    = (Some v, Some ts, href, frag) ->
  exists h,
    href = Some (JStr h) /\
    ~ In "#"%char (list_ascii_of_string h) /\
    match frag with
    | None => h = s
    | Some g =>
        ~ In "#"%char (list_ascii_of_string g) /\
        exists tail,
          s = (h ++ String "#" (g ++ tail))%string /\
          (tail = ""%string \/ exists t, tail = String "#" t)
    end.
Proof.
  intros Hb Hrow Hloc Hhref.
  unfold get_progress_with_fragment. cbv zeta. cbn [negb].
  rewrite Hb, Hrow, Hloc.
  destruct (total_progression (JObj fields)) as [pct|]; [|discriminate].
  rewrite Hhref. cbn [split_href].
  pose proof (after_hash_spec s) as Hs.
  destruct (after_hash s) as [rest|].
  - destruct (to_float parse_float pct); [|discriminate].
    intros [= _ _ <- <-]. exists (before_hash s).
    split; [reflexivity|]. split; [apply before_hash_clean|].
    split; [apply before_hash_clean|].
    pose proof (after_hash_spec rest) as Hr.
    destruct (after_hash rest) as [rest'|].
    + exists (String "#" rest'). split.
      * rewrite Hs at 1. now rewrite <- Hr.
      * right. now exists rest'.
    + exists ""%string. split; [|now left].
      rewrite Hs at 1. rewrite Hr.
      assert (Happ : forall x : string, (x ++ "")%string = x).
      { induction x as [|a x IHx]; [reflexivity|].
        change (String a (x ++ "")%string = String a x). now rewrite IHx. }
      now rewrite Happ.
  - destruct (to_float parse_float pct); [|discriminate].
    intros [= _ _ <- <-]. exists s.
    split; [reflexivity|]. split; [|reflexivity].
    rewrite <- Hs. apply before_hash_clean.
Qed.

End Fragment.

(** ** Propagation *)

Section Propagation.

Import SyncManager.

(** The ways the [try] block of the propagation can end: nothing was
    done, the leader's position was propagated (three cases, by leader),
    or an exception cut the propagation short after its first call (three
    cases again). *)
Lemma propagate_cases (w : World) (m : mapping) (r : readings)
  (leader : source) (leader_pct : Q) :
  let start := {| final_ts := r_abs_ts r; final_pct := leader_pct;
                  sync_success := false; writes := [] |} in
  let result := propagate w m r leader leader_pct in
  result = start
  \/ (leader = ABS /\ exists match_pct xpath,
        Py.truthy match_pct = true /\
        result =
          hardcover_step m
            {| final_ts := r_abs_ts r; final_pct := match_pct;
               sync_success := true;
               writes := [KoSyncUpdate (kosync_doc_id m) match_pct xpath;
                          StorytellerUpdate (ebook_filename m) match_pct] |})
  \/ (leader = KOSYNC /\ exists ts,
        Py.truthy ts = true /\
        result =
          hardcover_step m
            {| final_ts := ts; final_pct := leader_pct;
               sync_success := true;
               writes := [ABSUpdate (abs_id m) ts;
                          StorytellerUpdate (ebook_filename m) (r_ko_pct r)] |})
  \/ (leader = STORYTELLER /\ exists ts xpath,
        Py.truthy ts = true /\
        result =
          hardcover_step m
            {| final_ts := ts; final_pct := leader_pct;
               sync_success := true;
               writes := [ABSUpdate (abs_id m) ts;
                          KoSyncUpdate (kosync_doc_id m) (r_st_pct r) xpath] |})
  \/ (leader = ABS /\ exists match_pct xpath,
        storyteller_update_raises w (ebook_filename m) match_pct = true /\
        result =
          {| final_ts := r_abs_ts r; final_pct := leader_pct;
             sync_success := false;
             writes := [KoSyncUpdate (kosync_doc_id m) match_pct xpath;
                        StorytellerRaised (ebook_filename m) match_pct] |})
  \/ (leader = KOSYNC /\ exists ts,
        storyteller_update_raises w (ebook_filename m) (r_ko_pct r) = true /\
        result =
          {| final_ts := r_abs_ts r; final_pct := leader_pct;
             sync_success := false;
             writes := [ABSUpdate (abs_id m) ts;
                        StorytellerRaised (ebook_filename m) (r_ko_pct r)] |})
  \/ (leader = STORYTELLER /\ exists ts,
        Py.truthy ts = true /\
        result =
          {| final_ts := r_abs_ts r; final_pct := leader_pct;
             sync_success := false;
             writes := [ABSUpdate (abs_id m) ts] |}).
Proof.
  cbv zeta. unfold propagate. destruct leader.
  - (* KOSYNC *)
    destruct (get_text_at_percentage w _ _) as [[txt|]|]; [|now left..].
    destruct (Py.truthy_str txt); [|now left].
    destruct (AudioTranscriber.find_time_for_text _ _ _) as [ts|]; [|now left].
    destruct (Py.truthy ts) eqn:Et; [|now left].
    destruct (storyteller_update_raises w _ _) eqn:Eu.
    + do 5 right. left. split; [reflexivity|]. exists ts. now split.
    + do 2 right. left. split; [reflexivity|]. exists ts. now split.
  - (* STORYTELLER *)
    destruct (storyteller_fragment w _) as [[href frag]|]; [|now left].
    destruct (if Py.truthy_ostr _ then _ else _) as [[txt|]|]; [|now left..].
    destruct (Py.truthy_str txt); [|now left].
    destruct (AudioTranscriber.find_time_for_text _ _ _) as [ts|]; [|now left].
    destruct (Py.truthy ts) eqn:Et; [|now left].
    destruct (find_text_location w _ _ _) as [[mp xpath]|].
    + do 3 right. left. split; [reflexivity|]. exists ts, xpath. now split.
    + do 6 right. split; [reflexivity|]. exists ts. now split.
  - (* ABS *)
    destruct (AudioTranscriber.get_text_at_time _ _) as [txt|]; [|now left].
    destruct (Py.truthy_str txt); [|now left].
    destruct (find_text_location w _ _ _) as [[[mp|] xpath]|]; [|now left..].
    destruct (Py.truthy mp) eqn:Et; [|now left].
    destruct (storyteller_update_raises w _ _) eqn:Eu.
    + do 4 right. left. split; [reflexivity|]. exists mp, xpath. now split.
    + right. left. split; [reflexivity|]. exists mp, xpath. now split.
Qed.

Lemma hardcover_step_spec (m : mapping) (p : propagation) :
  final_ts (hardcover_step m p) = final_ts p /\
  final_pct (hardcover_step m p) = final_pct p /\
  sync_success (hardcover_step m p) = sync_success p /\
  (writes (hardcover_step m p) = writes p \/
   (writes (hardcover_step m p)
      = writes p ++ [HardcoverSync (abs_id m) (final_pct p)] /\
    sync_success p = true /\ 1 # 100 < final_pct p)).
Proof.
  unfold hardcover_step.
  destruct (sync_success p) eqn:Es; cbn [andb].
  - destruct (Py.ltb (1 # 100) (final_pct p)) eqn:El.
    + apply ltb_lt in El. cbn. conjs; auto.
    + conjs; auto.
  - conjs; auto.
Qed.

(** X8. The propagation never writes to the leader, and it writes to no other
    book: every position write, also one that raises, carries the
    mapping's own identifier for a source other than the leader. *)
Theorem propagate_spares_leader (w : World) (m : mapping) (r : readings)
  (leader : source) (leader_pct : Q) (c : write_call) :
  In c (writes (propagate w m r leader leader_pct)) ->
  match c with
  | KoSyncUpdate doc_id _ _ => leader <> KOSYNC /\ doc_id = kosync_doc_id m
  | StorytellerUpdate epub _ => leader <> STORYTELLER /\ epub = ebook_filename m
  | StorytellerRaised epub _ => leader <> STORYTELLER /\ epub = ebook_filename m
  | ABSUpdate item_id _ => leader <> ABS /\ item_id = abs_id m
  | HardcoverSync item_id _ => item_id = abs_id m
  end.
Proof.
  pose proof (propagate_cases w m r leader leader_pct) as H. cbv zeta in H.
  destruct H as [-> | [(-> & mp & xp & _ & ->) | [(-> & ts & _ & ->)
               | [(-> & ts & xp & _ & ->) | [(-> & mp & xp & _ & ->)
               | [(-> & ts & _ & ->) | (-> & ts & _ & ->)]]]]]].
  - intros [].
  - match goal with |- context [hardcover_step m ?q] =>
      destruct (hardcover_step_spec m q) as (_ & _ & _ & [-> | (-> & _)]) end;
      cbn [writes app]; intros Hin; repeat destruct Hin as [<- | Hin];
      try destruct Hin; auto; split; auto; discriminate.
  - match goal with |- context [hardcover_step m ?q] =>
      destruct (hardcover_step_spec m q) as (_ & _ & _ & [-> | (-> & _)]) end;
      cbn [writes app]; intros Hin; repeat destruct Hin as [<- | Hin];
      try destruct Hin; auto; split; auto; discriminate.
  - match goal with |- context [hardcover_step m ?q] =>
      destruct (hardcover_step_spec m q) as (_ & _ & _ & [-> | (-> & _)]) end;
      cbn [writes app]; intros Hin; repeat destruct Hin as [<- | Hin];
      try destruct Hin; auto; split; auto; discriminate.
  - cbn [writes]. intros [<- | [<- | []]]; (split; [discriminate | reflexivity]).
  - cbn [writes]. intros [<- | [<- | []]]; (split; [discriminate | reflexivity]).
  - cbn [writes]. intros [<- | []]. split; [discriminate | reflexivity].
Qed.

(** X9. A propagation that does not succeed keeps the audio reading and
    the leader's position as the values to store. It has made no call at
    all, or it was cut short by an exception after its first call: with
    the audio source or KoSync leading, the other of the two was written
    and the update of the alternate reader raised; with the alternate
    reader leading, the audio source was written and the text lookup that
    follows raised. A propagation that succeeds made no call that
    raised. *)
Theorem propagate_failure (w : World) (m : mapping) (r : readings)
  (leader : source) (leader_pct : Q) :
  let result := propagate w m r leader leader_pct in
  (sync_success result = false ->
   final_ts result = r_abs_ts r /\
   final_pct result = leader_pct /\
   (writes result = [] \/
    (leader = ABS /\ exists match_pct xpath,
       storyteller_update_raises w (ebook_filename m) match_pct = true /\
       writes result = [KoSyncUpdate (kosync_doc_id m) match_pct xpath;
                        StorytellerRaised (ebook_filename m) match_pct]) \/
    (leader = KOSYNC /\ exists ts,
       storyteller_update_raises w (ebook_filename m) (r_ko_pct r) = true /\
       writes result = [ABSUpdate (abs_id m) ts;
                        StorytellerRaised (ebook_filename m) (r_ko_pct r)]) \/
    (leader = STORYTELLER /\ exists ts,
       writes result = [ABSUpdate (abs_id m) ts]))) /\
  (sync_success result = true ->
   forall epub pct, ~ In (StorytellerRaised epub pct) (writes result)) /\
  ((forall pct, storyteller_update_raises w (ebook_filename m) pct = false) ->
   leader <> STORYTELLER ->
   sync_success result = false -> writes result = []).
Proof.
  cbv zeta.
  pose proof (propagate_cases w m r leader leader_pct) as H. cbv zeta in H.
  destruct H as [-> | [(-> & mp & xp & _ & ->) | [(-> & ts & _ & ->)
               | [(-> & ts & xp & _ & ->) | [(-> & mp & xp & Hu & ->)
               | [(-> & ts & Hu & ->) | (-> & ts & _ & ->)]]]]]].
  - conjs; [intros _; cbn; auto | discriminate | intros _ _ _; reflexivity].
  - match goal with |- context [hardcover_step m ?q] =>
      destruct (hardcover_step_spec m q) as (_ & _ & Hs & Hw) end.
    rewrite Hs. cbn [sync_success]. conjs; [discriminate | | discriminate].
    intros _ epub pct Hin.
    destruct Hw as [Hw | (Hw & _)]; rewrite Hw in Hin; cbn in Hin;
      repeat destruct Hin as [Hin | Hin]; try discriminate; destruct Hin.
  - match goal with |- context [hardcover_step m ?q] =>
      destruct (hardcover_step_spec m q) as (_ & _ & Hs & Hw) end.
    rewrite Hs. cbn [sync_success]. conjs; [discriminate | | discriminate].
    intros _ epub pct Hin.
    destruct Hw as [Hw | (Hw & _)]; rewrite Hw in Hin; cbn in Hin;
      repeat destruct Hin as [Hin | Hin]; try discriminate; destruct Hin.
  - match goal with |- context [hardcover_step m ?q] =>
      destruct (hardcover_step_spec m q) as (_ & _ & Hs & Hw) end.
    rewrite Hs. cbn [sync_success]. conjs; [discriminate | | discriminate].
    intros _ epub pct Hin.
    destruct Hw as [Hw | (Hw & _)]; rewrite Hw in Hin; cbn in Hin;
      repeat destruct Hin as [Hin | Hin]; try discriminate; destruct Hin.
  - cbn. conjs; [| discriminate |].
    + intros _. conjs; [reflexivity | reflexivity |].
      right. left. split; [reflexivity|]. exists mp, xp. now split.
    + intros Hnever _ _. rewrite Hnever in Hu. discriminate.
  - cbn. conjs; [| discriminate |].
    + intros _. conjs; [reflexivity | reflexivity |].
      right. right. left. split; [reflexivity|]. exists ts. now split.
    + intros Hnever _ _. rewrite Hnever in Hu. discriminate.
  - cbn. conjs; [| discriminate |].
    + intros _. conjs; [reflexivity | reflexivity |].
      right. right. right. split; [reflexivity|]. now exists ts.
    + intros _ Hne. now destruct Hne.
Qed.

End Propagation.

(** ** What a cycle stores *)

Section Cycles.

Import SyncManager.

(** X10. In a cycle that attempts a propagation the state document keeps
    one position for both percentage sources. When the propagation runs
    to its end, every call it made carries what the state document
    keeps: the percentage written to KoSync, to the alternate reader and
    to the reading log is that position, the reading log is only written
    for a position above 1 %, and the timestamp written to the audio
    source is the one kept. When an exception cuts the propagation short
    after its first call, the state document keeps the audio reading and
    the leader's position instead, whatever that call wrote. *)
Theorem attempted_cycle_stores_what_it_writes (cfg : Config) (w : World)
  (now : Q) (state : gmap string State.t) (m : mapping) (r : readings) :
  status m = "active"%string ->
  read_positions w m = Py.Ret r ->
  any_changed cfg r (state !! abs_id m) = true ->
  exists e ws,
    sync_mapping cfg w now state m = (<[abs_id m := e]> state, ws) /\
    State.kosync_pct e = State.storyteller_pct e /\
    ((forall c, In c ws ->
        match c with
        | KoSyncUpdate _ pct _ => pct = State.kosync_pct e
        | StorytellerUpdate _ pct => pct = State.storyteller_pct e
        | StorytellerRaised _ _ => False
        | HardcoverSync _ pct => pct = State.kosync_pct e /\ 1 # 100 < pct
        | ABSUpdate _ ts => ts = State.abs_ts e
        end) \/
     (State.abs_ts e = r_abs_ts r /\
      State.kosync_pct e = snd (select_leader r) /\
      ((exists ts, ws = [ABSUpdate (abs_id m) ts]) \/
       (exists c epub pct, ws = [c; StorytellerRaised epub pct])))).
Proof.
  intros Hact Hr Hmoved. unfold sync_mapping.
  apply String.eqb_eq in Hact. rewrite Hact, Hr. cbn [negb].
  rewrite Hmoved. cbn [negb].
  pose proof (select_leader_first r) as Hlead.
  destruct (select_leader r) as [leader leader_pct].
  eexists. eexists. split; [reflexivity|].
  cbn [State.kosync_pct State.storyteller_pct State.abs_ts snd].
  split; [reflexivity|].
  pose proof (propagate_cases w m r leader leader_pct) as H. cbv zeta in H.
  destruct H as [-> | [(-> & mp & xp & _ & ->) | [(-> & ts & _ & ->)
               | [(-> & ts & xp & _ & ->) | [(-> & mp & xp & _ & ->)
               | [(-> & ts & _ & ->) | (-> & ts & _ & ->)]]]]]].
  - left. intros c [].
  - left.
    match goal with |- context [hardcover_step m ?q] =>
      destruct (hardcover_step_spec m q) as (-> & -> & _ & [-> | (-> & _ & Hmat)]) end;
      cbn [writes app final_pct final_ts] in *; intros c Hin;
      repeat destruct Hin as [<- | Hin]; try destruct Hin; auto.
  - left.
    match goal with |- context [hardcover_step m ?q] =>
      destruct (hardcover_step_spec m q) as (-> & -> & _ & [-> | (-> & _ & Hmat)]) end;
      cbn [writes app final_pct final_ts] in *; intros c Hin;
      repeat destruct Hin as [<- | Hin]; try destruct Hin; auto.
  - left. destruct Hlead as (-> & _).
    match goal with |- context [hardcover_step m ?q] =>
      destruct (hardcover_step_spec m q) as (-> & -> & _ & [-> | (-> & _ & Hmat)]) end;
      cbn [writes app final_pct final_ts] in *; intros c Hin;
      repeat destruct Hin as [<- | Hin]; try destruct Hin; auto.
  - right. cbn [writes final_pct final_ts].
    conjs; [reflexivity | reflexivity |]. right. eauto.
  - right. cbn [writes final_pct final_ts].
    conjs; [reflexivity | reflexivity |]. right. eauto.
  - right. cbn [writes final_pct final_ts].
    conjs; [reflexivity | reflexivity |]. left. eauto.
Qed.

(** X11. Sub-threshold movement never accumulates: after a quiet cycle the
    baseline is that cycle's reading, so a second cycle whose readings are
    within the thresholds of the first cycle's readings is quiet as well,
    however far they are from the baseline stored before the first. It
    writes nothing, makes its own readings the baseline and keeps
    [last_updated]. *)
Theorem quiet_cycles_follow_the_readings (cfg : Config) (w1 w2 : World)
  (now1 now2 : Q) (state : gmap string State.t) (m : mapping)
  (r1 r2 : readings) :
  status m = "active"%string ->
  read_positions w1 m = Py.Ret r1 ->
  read_positions w2 m = Py.Ret r2 ->
  any_changed cfg r1 (state !! abs_id m) = false ->
  Qabs (r_abs_ts r2 - r_abs_ts r1) <= delta_abs_thresh cfg ->
  Qabs (r_ko_pct r2 - r_ko_pct r1) <= delta_kosync_thresh cfg ->
  Qabs (r_st_pct r2 - r_st_pct r1) <= delta_kosync_thresh cfg ->
  sync_mapping cfg w2 now2 (fst (sync_mapping cfg w1 now1 state m)) m
  = (<[abs_id m :=
         {| State.abs_ts := r_abs_ts r2;
            State.abs_pct := Py.or_zero (r_abs_pct r2);
            State.kosync_pct := r_ko_pct r2;
            State.storyteller_pct := r_st_pct r2;
            State.last_updated := State.get State.last_updated (state !! abs_id m) |}]>
       state, []).
Proof.
  intros Hact Hr1 Hr2 Hq1 Ha Hk Hs.
  rewrite (sync_mapping_suppressed cfg w1 now1 state m r1 Hact Hr1 Hq1). cbn [fst].
  assert (Hq2 : any_changed cfg r2
                  (<[abs_id m := refreshed r1 (state !! abs_id m)]>
                     state !! abs_id m) = false).
  { rewrite lookup_insert_eq. apply any_changed_false. cbn. auto. }
  rewrite (sync_mapping_suppressed cfg w2 now2 _ m r2 Hact Hr2 Hq2).
  rewrite lookup_insert_eq, insert_insert_eq. reflexivity.
Qed.

Lemma sync_mapping_touches_own_entry (cfg : Config) (w : World) (now : Q)
  (state : gmap string State.t) (m : mapping) (k : string) :
  (status m = "active"%string -> abs_id m <> k) ->
  fst (sync_mapping cfg w now state m) !! k = state !! k.
Proof.
  intros Hk. unfold sync_mapping.
  destruct (String.eqb (status m) "active") eqn:Hact; cbn [negb]; [|reflexivity].
  apply String.eqb_eq in Hact. specialize (Hk Hact).
  destruct (read_positions w m) as [r|]; [|reflexivity].
  destruct (negb (any_changed _ _ _)); cbn [fst].
  - now rewrite lookup_insert_ne.
  - destruct (select_leader _) as [leader leader_pct]. cbn [fst].
    now rewrite lookup_insert_ne.
Qed.

Lemma sync_mapping_writes_inactive (cfg : Config) (w : World) (now : Q)
  (state : gmap string State.t) (m : mapping) :
  status m <> "active"%string ->
  snd (sync_mapping cfg w now state m) = [].
Proof. intros H. now rewrite sync_mapping_inactive. Qed.

(** X12. A whole cycle touches only the state entries of the audiobooks of its
    active mappings: every other entry of the state document is as before,
    and a document without an active mapping gives no write at all. *)
Theorem sync_cycle_frame (cfg : Config) (w : World) (clock : string -> Q)
  (state : gmap string State.t) (mappings : list mapping) :
  (forall k,
     (forall m, In m mappings -> status m = "active"%string -> abs_id m <> k) ->
     fst (sync_cycle cfg w clock state mappings) !! k = state !! k) /\
  ((forall m, In m mappings -> status m <> "active"%string) ->
   sync_cycle cfg w clock state mappings = (state, [])).
Proof.
  split.
  - revert state. induction mappings as [|m rest IH]; intros state k Hk;
      [reflexivity|].
    cbn [sync_cycle].
    pose proof (sync_mapping_touches_own_entry cfg w (clock (abs_id m)) state m k
                  (Hk m (or_introl eq_refl))) as H1.
    destruct (sync_mapping cfg w (clock (abs_id m)) state m) as [state1 ws1].
    specialize (IH state1 k (fun m' Hin => Hk m' (or_intror Hin))).
    destruct (sync_cycle cfg w clock state1 rest) as [state2 ws2].
    cbn [fst] in *. congruence.
  - revert state. induction mappings as [|m rest IH]; intros state Hall;
      [reflexivity|].
    cbn [sync_cycle].
    rewrite (sync_mapping_inactive cfg w _ state m (Hall m (or_introl eq_refl))).
    rewrite (IH state (fun m' Hin => Hall m' (or_intror Hin))). reflexivity.
Qed.

End Cycles.

(** ** The job pipeline *)

Section Jobs.

Import JobPipeline.

Variable run : nat -> mapping -> job_outcome.

Lemma jobs_from_final (done todo : list mapping) :
  fst (jobs_from run done todo) = done ++ job_results run (length done) todo.
Proof.
  revert done. induction todo as [|m rest IH]; intros done.
  - cbn. now rewrite app_nil_r.
  - cbn [jobs_from job_results]. unfold job_result.
    assert (Hlen : forall x : mapping, length (done ++ [x]) = S (length done))
      by (intros x; rewrite length_app; cbn; lia).
    destruct (String.eqb (status m) "pending") eqn:E.
    + destruct (run (length done) m) as [|path [| | |]];
        match goal with
        | |- context [jobs_from run (done ++ [?x]) rest] =>
            specialize (IH (done ++ [x]));
            destruct (jobs_from run (done ++ [x]) rest) as [final saves]
        end;
        cbn [fst] in *; rewrite IH, Hlen, <- app_assoc; reflexivity.
    + rewrite IH, Hlen, <- app_assoc. reflexivity.
Qed.

Lemma jobs_from_quiet (r : nat -> mapping -> job_outcome)
  (done todo : list mapping) :
  Forall (fun m => status m <> "pending"%string) todo ->
  jobs_from r done todo = (done ++ todo, []).
Proof.
  intros H. revert done.
  induction H as [|m rest Hm _ IH]; intros done.
  - cbn. now rewrite app_nil_r.
  - cbn [jobs_from]. apply String.eqb_neq in Hm. rewrite Hm.
    rewrite IH, <- app_assoc. reflexivity.
Qed.

Lemma job_result_not_pending (i : nat) (m : mapping) :
  status (job_result run i m) <> "pending"%string.
Proof.
  unfold job_result.
  destruct (String.eqb (status m) "pending") eqn:E.
  - destruct (run i m) as [|path [| | |]]; discriminate.
  - now apply String.eqb_neq.
Qed.

Lemma job_results_length (i : nat) (todo : list mapping) :
  length (job_results run i todo) = length todo.
Proof.
  revert i. induction todo as [|m rest IH]; intros i; [reflexivity|].
  cbn [job_results length]. now rewrite IH.
Qed.

Lemma job_results_nth (k i : nat) (todo : list mapping) (m : mapping) :
  nth_error todo i = Some m ->
  nth_error (job_results run k todo) i = Some (job_result run (k + i) m).
Proof.
  revert k i. induction todo as [|m0 rest IH]; intros k i H.
  - destruct i; discriminate.
  - destruct i as [|i]; cbn [job_results nth_error] in *.
    + injection H as ->. now rewrite Nat.add_0_r.
    + rewrite (IH (S k) i H). f_equal. f_equal. lia.
Qed.

Lemma job_results_not_pending (k : nat) (todo : list mapping) :
  Forall (fun m => status m <> "pending"%string) (job_results run k todo).
Proof.
  revert k. induction todo as [|m rest IH]; intros k; cbn [job_results].
  - constructor.
  - constructor; [apply job_result_not_pending | apply IH].
Qed.

Lemma last_cons_default {A : Type} (a d : A) (l : list A) :
  List.last (a :: l) d = List.last l a.
Proof.
  revert a d. induction l as [|b l IH]; intros a d; [reflexivity|].
  change (List.last (b :: l) d = List.last (b :: l) a).
  now rewrite (IH b d), (IH b a).
Qed.

Lemma jobs_from_last_save (done todo : list mapping) :
  List.last (snd (jobs_from run done todo)) (done ++ todo)
  = fst (jobs_from run done todo).
Proof.
  revert done. induction todo as [|m rest IH]; intros done.
  - cbn. now rewrite app_nil_r.
  - cbn [jobs_from].
    destruct (String.eqb (status m) "pending") eqn:E.
    + destruct (run (length done) m) as [|path [| | |]];
        match goal with
        | |- context [jobs_from run (done ++ [?x]) rest] =>
            specialize (IH (done ++ [x]));
            destruct (jobs_from run (done ++ [x]) rest) as [final saves]
        end;
        cbn [fst snd] in *; rewrite !last_cons_default;
        rewrite <- IH, <- app_assoc; reflexivity.
    + specialize (IH (done ++ [m])). rewrite <- app_assoc in IH. exact IH.
Qed.

(** X13. One pass of [check_pending_jobs] keeps the mappings, their order
    and their identifiers; a mapping that is not ['pending'] is left as it
    is; a pending one ends ['active'] with its transcript recorded when the
    setup and the catalogue step succeed, and ['failed_retry_later']
    otherwise (with the transcript recorded when only the catalogue step
    failed). No mapping is ['pending'] afterwards. *)
Theorem check_pending_jobs_settles (mappings : list mapping) :
  let final := fst (check_pending_jobs run mappings) in
  length final = length mappings /\
  (forall m', In m' final -> status m' <> "pending"%string) /\
  forall i m, nth_error mappings i = Some m ->
    exists m',
      nth_error final i = Some m' /\
      abs_id m' = abs_id m /\ kosync_doc_id m' = kosync_doc_id m /\
      ebook_filename m' = ebook_filename m /\
      (status m <> "pending"%string -> m' = m) /\
      (status m = "pending"%string ->
       match run i m with
       | SetupRaises =>
           status m' = "failed_retry_later"%string /\
           transcript_path m' = transcript_path m
       | SetupDone path NoMatch | SetupDone path Matched =>
           status m' = "active"%string /\ transcript_path m' = Some path
       | SetupDone path AutomatchRaises | SetupDone path MatchedRaises =>
           status m' = "failed_retry_later"%string /\
           transcript_path m' = Some path
       end).
Proof.
  cbv zeta. unfold check_pending_jobs. rewrite jobs_from_final. cbn [app length].
  split; [apply job_results_length|]. split.
  - intros m' Hin.
    exact (proj1 (List.Forall_forall _ _) (job_results_not_pending 0 mappings) m' Hin).
  - intros i m Hm. exists (job_result run i m).
    split; [exact (job_results_nth 0 i mappings m Hm)|].
    unfold job_result.
    destruct (String.eqb (status m) "pending") eqn:E.
    + apply String.eqb_eq in E.
      destruct (run i m) as [|path [| | |]]; cbn; conjs; auto;
        try (intros Hne; contradiction).
    + apply String.eqb_neq in E. conjs; auto. intros Hp. contradiction.
Qed.

(** X14. A second pass right after the first finds nothing to do, whatever
    the setup would do then: it changes no mapping and saves nothing. *)
Theorem check_pending_jobs_idempotent (run' : nat -> mapping -> job_outcome)
  (mappings : list mapping) :
  check_pending_jobs run' (fst (check_pending_jobs run mappings))
  = (fst (check_pending_jobs run mappings), []).
Proof.
  unfold check_pending_jobs. rewrite jobs_from_final. cbn [app length].
  apply (jobs_from_quiet run' []). apply job_results_not_pending.
Qed.

(** X15. The document on disk at the end of the pass is the document in
    memory: the last document saved is the final one, and when no mapping
    is pending nothing is saved and the document is the one loaded. *)
Theorem check_pending_jobs_saves_final (mappings : list mapping) :
  List.last (snd (check_pending_jobs run mappings)) mappings
  = fst (check_pending_jobs run mappings) /\
  (Forall (fun m => status m <> "pending"%string) mappings ->
   check_pending_jobs run mappings = (mappings, [])).
Proof.
  split.
  - exact (jobs_from_last_save [] mappings).
  - apply (jobs_from_quiet run []).
Qed.

Lemma jobs_from_skip (done pre todo : list mapping) :
  Forall (fun m => status m <> "pending"%string) pre ->
  jobs_from run done (pre ++ todo) = jobs_from run (done ++ pre) todo.
Proof.
  intros H. revert done.
  induction H as [|m rest Hm _ IH]; intros done.
  - cbn. now rewrite app_nil_r.
  - cbn [app jobs_from]. apply String.eqb_neq in Hm. rewrite Hm.
    rewrite IH, <- app_assoc. reflexivity.
Qed.

(** X16. While the job of the first pending mapping runs, the document on
    disk has that mapping in ['processing'] and everything else as
    loaded; and the startup recovery, run on that document after a crash,
    returns it unchanged and saves nothing. *)
Theorem crash_leaves_processing (pre post : list mapping) (m : mapping) :
  Forall (fun m' => status m' <> "pending"%string) pre ->
  status m = "pending"%string ->
  Forall (fun m' => status m' <> "crashed"%string) (pre ++ m :: post) ->
  exists later,
    snd (check_pending_jobs run (pre ++ m :: post))
      = (pre ++ set_status m "processing" :: post) :: later /\
    SyncManager.cleanup_stale_jobs (pre ++ set_status m "processing" :: post)
      = (pre ++ set_status m "processing" :: post, false).
Proof.
  intros Hpre Hm Hall.
  unfold check_pending_jobs. rewrite (jobs_from_skip [] pre _ Hpre).
  cbn [app jobs_from]. apply String.eqb_eq in Hm. rewrite Hm.
  assert (Hclean : SyncManager.cleanup_stale_jobs
                     (pre ++ set_status m "processing" :: post)
                   = (pre ++ set_status m "processing" :: post, false)).
  { apply cleanup_keeps_other_statuses.
    apply Forall_app in Hall. destruct Hall as (H1 & H2).
    apply Forall_app. split; [exact H1|].
    inversion H2; subst. constructor; [discriminate | assumption]. }
  destruct (run (length pre) m) as [|path [| | |]];
    match goal with
    | |- context [jobs_from run ?d post] =>
        destruct (jobs_from run d post) as [final saves]
    end; cbn [snd]; eexists; (split; [reflexivity | exact Hclean]).
Qed.

End Jobs.

(** ** The document hash *)

Section Hash.

Import AbsHash.
Local Open Scope nat_scope.

Context {A : Type}.
Implicit Types (file : list A) (offs : list N).

Lemma offsets_eq :
  offsets = [0; 1024; 4096; 16384; 65536; 262144; 1048576; 4194304;
             16777216; 67108864; 268435456; 1073741824]%N.
Proof. reflexivity. Qed.

Lemma sample_length file offs :
  length (sample file offs) <= 1024 * length offs.
Proof.
  induction offs as [|o rest IH]; cbn [sample length]; [lia|].
  destruct (N.of_nat (length file) <=? o)%N; [cbn; lia|].
  pose proof (firstn_le_length 1024 (skipn (N.to_nat o) file)) as Hc.
  destruct (firstn 1024 (skipn (N.to_nat o) file)) as [|a chunk]; [cbn; lia|].
  rewrite length_app. lia.
Qed.

(** X17. A file of at most 1024 bytes is hashed whole (the empty file gives the
    hash of no bytes), and of any file at most twelve blocks of 1024
    bytes are hashed. *)
Theorem sample_small_file file :
  (length file <= 1024 -> sample file offsets = file) /\
  length (sample file offsets) <= 12 * 1024.
Proof.
  split.
  - intros Hlen. rewrite offsets_eq. cbn [sample].
    destruct (N.of_nat (length file) <=? 0)%N eqn:E0.
    + apply N.leb_le in E0. destruct file; [reflexivity | cbn [length] in E0; lia].
    + cbn [N.to_nat skipn]. rewrite firstn_all2 by exact Hlen.
      destruct file as [|a rest]; [reflexivity|].
      assert (E1 : (N.of_nat (length (a :: rest)) <=? 1024)%N = true)
        by (apply N.leb_le; lia).
      rewrite E1. apply app_nil_r.
  - pose proof (sample_length file offsets) as H.
    rewrite offsets_eq in H at 2. cbn [length] in H. lia.
Qed.

Lemma window_untouched file (o pos : nat) (b : A) :
  ~ (o <= pos < o + 1024) ->
  firstn 1024 (skipn o (<[pos := b]> file)) = firstn 1024 (skipn o file).
Proof.
  intros Hout. destruct (Nat.lt_ge_cases pos o) as [Hlt | Hge].
  - now rewrite drop_insert_lt.
  - rewrite drop_insert_ge by exact Hge. apply take_insert_ge. lia.
Qed.

Lemma sample_insert_outside file offs (pos : nat) (b : A) :
  (forall o, In o offs ->
     ~ (N.to_nat o <= pos < N.to_nat o + 1024)) ->
  sample (<[pos := b]> file) offs = sample file offs.
Proof.
  induction offs as [|o rest IH]; intros Hout; [reflexivity|].
  cbn [sample]. rewrite length_insert.
  rewrite (window_untouched file (N.to_nat o) pos b (Hout o (or_introl eq_refl))).
  rewrite IH; [reflexivity|]. intros o' Hin. apply Hout. now right.
Qed.

(** X18. The hash does not see a byte outside the windows it reads: replacing
    the byte at such a position leaves the bytes hashed, and so the hash,
    unchanged. *)
Theorem hash_ignores_bytes_between_windows (md5 : list A -> string) file
  (pos : nat) (b : A) :
  in_window pos = false ->
  compute_abs_hash md5 (Some (<[pos := b]> file))
  = compute_abs_hash md5 (Some file).
Proof.
  intros Hwin. unfold compute_abs_hash. f_equal. f_equal.
  apply sample_insert_outside. intros o Hin Hrange.
  unfold in_window in Hwin.
  assert (Hex : existsb
            (fun offset => (offset <=? N.of_nat pos)%N
                           && (N.of_nat pos <? offset + 1024)%N) offsets = true).
  { apply existsb_exists. exists o. split; [exact Hin|].
    apply andb_true_iff. split; [apply N.leb_le | apply N.ltb_lt]; lia. }
  congruence.
Qed.

End Hash.

(** ** Stitching the transcript *)

Section Stitching.

Import Transcription.

Variable strip : string -> string.

Lemma laid_out_weaken (lo lo' hi hi' : Q) (l : list segment) :
  lo' <= lo -> hi <= hi' -> laid_out lo hi l -> laid_out lo' hi' l.
Proof.
  revert lo lo'. induction l as [|s rest IH]; intros lo lo' Hlo Hhi; cbn.
  - intros H. lra.
  - intros (H1 & H2 & H3). conjs; [lra | exact H2 |].
    apply (IH (seg_end s) (seg_end s)); [apply Qle_refl | exact Hhi | exact H3].
Qed.

Lemma laid_out_placed (c lo hi : Q) (l : list segment) :
  laid_out lo hi l -> laid_out (lo + c) (hi + c) (map (placed strip c) l).
Proof.
  revert lo. induction l as [|s rest IH]; intros lo; cbn.
  - intros H. lra.
  - intros (H1 & H2 & H3). conjs; [lra | lra |]. now apply IH.
Qed.

Lemma laid_out_app (a b c : Q) (l1 l2 : list segment) :
  laid_out a b l1 -> laid_out b c l2 -> laid_out a c (l1 ++ l2).
Proof.
  revert a. induction l1 as [|s rest IH]; intros a; cbn.
  - intros Hab H2. apply (laid_out_weaken b a c c); [exact Hab | apply Qle_refl | exact H2].
  - intros (H1 & H2 & H3) H4. conjs; [exact H1 | exact H2 |]. now apply IH.
Qed.

Lemma laid_out_inside (lo hi : Q) (l : list segment) :
  laid_out lo hi l ->
  lo <= hi /\
  forall s, In s l -> lo <= seg_start s /\ seg_start s <= seg_end s /\ seg_end s <= hi.
Proof.
  revert lo. induction l as [|x rest IH]; intros lo; cbn.
  - intros H. split; [exact H | intros ? []].
  - intros (H1 & H2 & H3). destruct (IH _ H3) as (Hb & Hin).
    split; [lra|]. intros s [<- | Hs].
    + conjs; lra.
    + destruct (Hin s Hs) as (Ha & Hc & Hd). conjs; lra.
Qed.

Lemma transcribe_parts_laid_out (parts : list (Q * list segment)) (c : Q) :
  Forall (fun p => laid_out 0 (fst p) (snd p)) parts ->
  laid_out c (c + total_duration parts) (transcribe_parts strip parts c).
Proof.
  intros H. revert c. induction H as [|[d segs] rest Hp _ IH]; intros c.
  - cbn. lra.
  - cbn [transcribe_parts total_duration fold_right fst snd] in *.
    fold (total_duration rest).
    apply (laid_out_app c (c + d)).
    + apply (laid_out_weaken (0 + c) c (d + c) (c + d)); [lra | lra |].
      now apply laid_out_placed.
    + apply (laid_out_weaken (c + d) (c + d) (c + d + total_duration rest));
        [apply Qle_refl | lra | apply IH].
Qed.

Lemma laid_out_last (lo hi : Q) (l : list segment) (d : segment) :
  laid_out lo hi l -> l <> [] ->
  lo <= seg_end (List.last l d) /\ seg_end (List.last l d) <= hi.
Proof.
  revert lo. induction l as [|x rest IH]; intros lo; [contradiction|].
  cbn [laid_out]. intros (H1 & H2 & H3) _.
  destruct rest as [|y rest'].
  - cbn in *. lra.
  - change (List.last (x :: y :: rest') d) with (List.last (y :: rest') d).
    destruct (IH _ H3) as (Ha & Hb); [discriminate|]. lra.
Qed.

(** X19. When each part's segments lie in order, without overlap, inside the
    part's duration, the stitched transcript lies in order, without
    overlap, inside the sum of the durations. It has every segment of
    every part once, in order, with the text stripped, and the duration
    read off it (the end of its last segment) is between zero and that
    sum. *)
Theorem full_transcript_laid_out (parts : list (Q * list segment)) :
  Forall (fun p => laid_out 0 (fst p) (snd p)) parts ->
  laid_out 0 (total_duration parts) (full_transcript strip parts) /\
  (forall s, In s (full_transcript strip parts) ->
     0 <= seg_start s /\ seg_start s <= seg_end s /\
     seg_end s <= total_duration parts) /\
  map seg_text (full_transcript strip parts)
    = map strip (concat (map (fun p => map seg_text (snd p)) parts)) /\
  exists duration,
    SyncManager._get_transcript_duration (SegList (full_transcript strip parts))
      = Seconds duration /\
    0 <= duration <= total_duration parts.
Proof.
  intros H. unfold full_transcript.
  pose proof (transcribe_parts_laid_out parts 0 H) as Hl.
  apply (laid_out_weaken 0 0 (0 + total_duration parts) (total_duration parts))
    in Hl; [|apply Qle_refl | lra].
  destruct (laid_out_inside _ _ _ Hl) as (Hb & Hin).
  conjs.
  - exact Hl.
  - exact Hin.
  - clear. generalize 0 as c.
    induction parts as [|[d segs] rest IH]; intros c; [reflexivity|].
    cbn [transcribe_parts map concat snd].
    rewrite !map_app, IH. f_equal.
    rewrite !map_map. reflexivity.
  - cbn [SyncManager._get_transcript_duration].
    destruct (transcribe_parts strip parts 0) as [|x rest] eqn:E.
    + exists 0. split; [reflexivity|]. split; [apply Qle_refl | exact Hb].
    + eexists. split; [reflexivity|].
      apply (laid_out_last 0 (total_duration parts) (x :: rest));
        [exact Hl | discriminate].
Qed.

End Stitching.

(** ** The reading log *)

Section Pages.

Import ReadingLog.

Ltac no_calls :=
  conjs; unfold not; intros; try reflexivity; try discriminate;
  try (match goal with H : In _ [] |- _ => destruct H end).

Lemma py_int_bounds (pages : Z) (pct : Q) :
  (0 <= pages)%Z -> 0 <= pct <= 1 ->
  (0 <= py_int (inject_Z pages * pct) <= pages)%Z.
Proof.
  intros Hpages (H0 & H1). unfold py_int.
  destruct pct as [n d]. unfold Qle in H0, H1. cbn in H0, H1 |- *.
  assert (Hn : (0 <= n)%Z) by lia.
  assert (Hd : (n <= Z.pos d)%Z) by lia.
  rewrite Z.quot_div_nonneg by lia.
  split.
  - apply Z.div_pos; lia.
  - apply Z.div_le_upper_bound; nia.
Qed.

Lemma py_int_floor (pages : Z) (pct : Q) :
  (0 <= pages)%Z -> 0 <= pct ->
  inject_Z (py_int (inject_Z pages * pct)) <= inject_Z pages * pct /\
  inject_Z pages * pct < inject_Z (py_int (inject_Z pages * pct)) + 1.
Proof.
  intros Hpages H0. unfold py_int.
  destruct pct as [n d]. unfold Qle in H0. cbn in H0.
  assert (Hn : (0 <= n)%Z) by lia.
  unfold Qle, Qlt, inject_Z, Qmult, Qplus. cbn.
  rewrite Z.quot_div_nonneg by nia.
  pose proof (Z.mul_div_le (pages * n) (Z.pos d) ltac:(lia)) as H1.
  pose proof (Z.mul_succ_div_gt (pages * n) (Z.pos d) ltac:(lia)) as H2.
  change (1 * d)%positive with d. change (1 * 1)%positive with 1%positive.
  set (q := ((pages * n) / Z.pos d)%Z) in *.
  split; lia.
Qed.

(** X20. [_sync_to_hardcover] makes no call without a token, a catalogue
    book (none, or the id [0]) or the user's record of it. Otherwise it
    makes one progress call for that record and the mapping's edition,
    with the page number that is the page count times the position,
    rounded down (zero when the count is unknown); for a position in
    [[0, 1]] that number lies between zero and the page count. After it,
    it marks the book as read (status 3) when the position is above 99 %,
    and makes no other call when it is not. *)
Theorem sync_to_hardcover_pages (token : bool) (find_user_book : Z -> option Z)
  (l : link) (pct : Q) :
  0 <= pct <= 1 ->
  (forall n, hardcover_pages l = Some n -> (0 <= n)%Z) ->
  let calls := _sync_to_hardcover token find_user_book l pct in
  let pages := match hardcover_pages l with Some n => n | None => 0%Z end in
  (token = false -> calls = []) /\
  (hardcover_book_id l = None \/ hardcover_book_id l = Some 0%Z -> calls = []) /\
  (forall b, hardcover_book_id l = Some b -> find_user_book b = None ->
     calls = []) /\
  (token = true ->
   forall b ub,
     hardcover_book_id l = Some b -> b <> 0%Z -> find_user_book b = Some ub ->
     exists page,
       (0 <= page <= pages)%Z /\
       inject_Z page <= inject_Z pages * pct /\
       inject_Z pages * pct < inject_Z page + 1 /\
       (99 # 100 < pct ->
        calls = [UpdateProgress ub page (hardcover_edition_id l);
                 UpdateStatus b 3 (hardcover_edition_id l)]) /\
       (pct <= 99 # 100 ->
        calls = [UpdateProgress ub page (hardcover_edition_id l)])) /\
  (forall c, In c calls ->
     match c with
     | UpdateProgress ub page edition =>
         (0 <= page <= pages)%Z /\ edition = hardcover_edition_id l /\
         exists b, hardcover_book_id l = Some b /\ find_user_book b = Some ub
     | UpdateStatus b status_id edition =>
         status_id = 3%Z /\ 99 # 100 < pct /\
         hardcover_book_id l = Some b /\ edition = hardcover_edition_id l
     end) /\
  (pct <= 99 # 100 -> forall b s e, ~ In (UpdateStatus b s e) calls).
Proof.
  intros Hpct Hpages. cbv zeta. unfold _sync_to_hardcover.
  assert (Hnn : (0 <= match hardcover_pages l with
                      | Some n => n
                      | None => 0%Z
                      end)%Z).
  { destruct (hardcover_pages l) as [n|]; [now apply Hpages | lia]. }
  pose proof (py_int_bounds _ pct Hnn Hpct) as Hb.
  pose proof (py_int_floor _ pct Hnn (proj1 Hpct)) as (Hf1 & Hf2).
  destruct token; cbn [negb]; [|no_calls].
  destruct (hardcover_book_id l) as [b|]; [|no_calls].
  destruct (b =? 0)%Z eqn:Eb.
  { apply Z.eqb_eq in Eb. no_calls. congruence. }
  apply Z.eqb_neq in Eb.
  destruct (find_user_book b) as [ub|] eqn:Hub; [|no_calls; congruence].
  destruct (Py.ltb (99 # 100) pct) eqn:E.
  - apply ltb_lt in E. conjs.
    + discriminate.
    + intros [H | H]; [discriminate | congruence].
    + intros b' [= <-]. congruence.
    + intros _ b' ub' [= <-] _ Hub'. rewrite Hub in Hub'. injection Hub' as <-.
      eexists. split; [exact Hb|]. split; [exact Hf1|]. split; [exact Hf2|].
      split; [reflexivity|]. intros Hle. exfalso. apply (Qlt_not_le _ _ E Hle).
    + intros c [<- | [<- | []]].
      * split; [exact Hb|]. split; [reflexivity|]. exists b. auto.
      * conjs; auto.
    + intros Hle. exfalso. apply (Qlt_not_le _ _ E Hle).
  - apply ltb_ge in E. conjs.
    + discriminate.
    + intros [H | H]; [discriminate | congruence].
    + intros b' [= <-]. congruence.
    + intros _ b' ub' [= <-] _ Hub'. rewrite Hub in Hub'. injection Hub' as <-.
      eexists. split; [exact Hb|]. split; [exact Hf1|]. split; [exact Hf2|].
      split; [|reflexivity]. intros Hlt. exfalso. apply (Qlt_not_le _ _ Hlt E).
    + intros c [<- | []].
      split; [exact Hb|]. split; [reflexivity|]. exists b. auto.
    + intros _ b' s e [H | []]. discriminate.
Qed.

End Pages.

(** ** Audio files *)

Section Files.

Import AudioFiles.

Lemma extension_of_dotted (af : audio_file) :
  starts_with_dot (extension_of af) = true.
Proof.
  unfold extension_of. cbv zeta.
  set (e := match ext af with Some e => _ | None => _ end).
  destruct (starts_with_dot e) eqn:E; [exact E | reflexivity].
Qed.

Lemma streams_of_some (base_url token item_id : string)
  (audio_files : list audio_file) (files : list stream) :
  streams_of base_url token item_id audio_files = Some files ->
  map stream_ext files = map extension_of audio_files /\
  Forall (fun af => ino af <> None) audio_files.
Proof.
  revert files. induction audio_files as [|af rest IH]; intros files H.
  - injection H as <-. split; [reflexivity | constructor].
  - cbn [streams_of] in H. destruct (ino af) as [i|] eqn:Hi; [|discriminate].
    destruct (streams_of base_url token item_id rest) as [fs|]; [|discriminate].
    injection H as <-. destruct (IH fs eq_refl) as [IH1 IH2]. split.
    + cbn [map stream_ext]. now rewrite IH1.
    + constructor; [rewrite Hi; discriminate | exact IH2].
Qed.

Lemma streams_of_none (base_url token item_id : string)
  (audio_files : list audio_file) :
  streams_of base_url token item_id audio_files = None ->
  exists af, In af audio_files /\ ino af = None.
Proof.
  induction audio_files as [|af rest IH]; intros H; [discriminate|].
  cbn [streams_of] in H. destruct (ino af) as [i|] eqn:Hi.
  - destruct (streams_of base_url token item_id rest) as [fs|]; [discriminate|].
    destruct (IH eq_refl) as (af' & Hin & Hno). exists af'. split; [now right | exact Hno].
  - exists af. split; [now left | exact Hi].
Qed.

(** X21. Every extension [get_audio_files] gives starts with a dot. For a
    200 answer whose audio files all have an ['ino'] it gives one entry per
    audio file, in order; a single file without ['ino'] makes the whole
    result empty, as does any other status. An extension that has its dot
    is kept as it is, and a missing or empty one becomes [.mp3]. *)
Theorem get_audio_files_extensions (base_url token item_id : string)
  (answer : option (nat * list audio_file)) :
  let files := get_audio_files base_url token item_id answer in
  (forall s, In s files -> starts_with_dot (stream_ext s) = true) /\
  (forall audio_files, answer = Some (200%nat, audio_files) ->
     (Forall (fun af => ino af <> None) audio_files ->
      map stream_ext files = map extension_of audio_files) /\
     ((exists af, In af audio_files /\ ino af = None) -> files = [])) /\
  ((forall audio_files, answer <> Some (200%nat, audio_files)) -> files = []) /\
  (forall af e, ext af = Some e -> starts_with_dot e = true ->
     extension_of af = e) /\
  (forall af, ext af = None \/ ext af = Some ""%string ->
     extension_of af = ".mp3"%string).
Proof.
  cbv zeta. unfold get_audio_files. conjs.
  - intros s Hin. destruct answer as [[code audio_files]|]; [|destruct Hin].
    destruct (Nat.eqb code 200); [|destruct Hin].
    destruct (streams_of base_url token item_id audio_files) as [fs|] eqn:E;
      [|destruct Hin].
    apply streams_of_some in E. destruct E as [E _].
    apply (in_map stream_ext) in Hin. rewrite E in Hin.
    apply in_map_iff in Hin. destruct Hin as (af & <- & _).
    apply extension_of_dotted.
  - intros audio_files ->. cbn [Nat.eqb].
    change (Nat.eqb 200 200) with true. cbv iota.
    destruct (streams_of base_url token item_id audio_files) as [fs|] eqn:E.
    + apply streams_of_some in E. destruct E as [E Hall]. split.
      * intros _. exact E.
      * intros (af & Hin & Hno). rewrite List.Forall_forall in Hall.
        now destruct (Hall af Hin).
    + apply streams_of_none in E. destruct E as (af & Hin & Hno). split.
      * intros Hall. rewrite List.Forall_forall in Hall.
        now destruct (Hall af Hin).
      * reflexivity.
  - intros Hno. destruct answer as [[code audio_files]|]; [|reflexivity].
    destruct (Nat.eqb code 200) eqn:E; [|reflexivity].
    apply Nat.eqb_eq in E. subst code. now destruct (Hno audio_files).
  - intros af e He Hdot. unfold extension_of. rewrite He.
    destruct e as [|c e']; [discriminate|]. cbn [Py.truthy_str].
    cbv zeta. now rewrite Hdot.
  - intros af [He | He]; unfold extension_of; rewrite He; reflexivity.
Qed.

End Files.

(** ** Suggestions *)

Section Suggestions.

Import SuggestionManager.

Variable token_sort_ratio : string -> string -> Q.
Variable lower : string -> string.

Lemma cleanup_kept_lookup (suggestions : gmap string suggestion)
  (now max_age_days : Q) (k : string) (s : suggestion) :
  fst (_cleanup_stale_suggestions suggestions now max_age_days) !! k = Some s
  <-> suggestions !! k = Some s /\
      stale (now - max_age_days * 86400) s = false.
Proof.
  unfold _cleanup_stale_suggestions. cbn [fst].
  rewrite map_lookup_filter_Some. reflexivity.
Qed.

Lemma cleanup_saved_false (suggestions : gmap string suggestion)
  (now max_age_days : Q) :
  snd (_cleanup_stale_suggestions suggestions now max_age_days) = false
  <-> fst (_cleanup_stale_suggestions suggestions now max_age_days)
      = suggestions.
Proof.
  unfold _cleanup_stale_suggestions. cbn [fst snd].
  rewrite negb_false_iff, Nat.eqb_eq. split.
  - intros Hsize. apply map_subseteq_size_eq.
    + apply map_filter_subseteq.
    + rewrite Hsize. apply le_n.
  - intros ->. reflexivity.
Qed.

(** X22. [_cleanup_stale_suggestions] removes exactly the suggestions that
    are ['pending'] or ['dismissed'] and older than the cutoff: every other
    suggestion is kept under its key, unchanged, and nothing is added. The
    document is saved if and only if something was removed. *)
Theorem cleanup_stale_suggestions_spec (suggestions : gmap string suggestion)
  (now max_age_days : Q) :
  let cutoff := now - max_age_days * 86400 in
  let kept := fst (_cleanup_stale_suggestions suggestions now max_age_days) in
  let saved := snd (_cleanup_stale_suggestions suggestions now max_age_days) in
  (forall k s,
     kept !! k = Some s <->
     suggestions !! k = Some s /\
     ~ ((state s = "pending"%string \/ state s = "dismissed"%string) /\
        timestamp s < cutoff)) /\
  (saved = true <->
   exists k s,
     suggestions !! k = Some s /\
     (state s = "pending"%string \/ state s = "dismissed"%string) /\
     timestamp s < cutoff) /\
  (saved = false -> kept = suggestions).
Proof.
  cbv zeta.
  assert (Hstale : forall s,
            stale (now - max_age_days * 86400) s = true <->
            (state s = "pending"%string \/ state s = "dismissed"%string) /\
            timestamp s < now - max_age_days * 86400).
  { intros s. unfold stale.
    rewrite andb_true_iff, orb_true_iff, !String.eqb_eq.
    split; intros [H1 H2]; (split; [exact H1|]).
    - now apply ltb_lt.
    - now apply ltb_lt. }
  conjs.
  - intros k s. rewrite cleanup_kept_lookup, <- Hstale.
    destruct (stale _ s); split; intros [H1 H2]; split; auto; try discriminate.
    exfalso. now apply H2.
  - split.
    + intros Hsaved.
      destruct (decide (map_Forall
                  (fun (_ : string) s =>
                     stale (now - max_age_days * 86400) s = false) suggestions))
        as [Hall | Hsome].
      * assert (Hid : fst (_cleanup_stale_suggestions suggestions now max_age_days)
                      = suggestions).
        { unfold _cleanup_stale_suggestions. cbn [fst].
          apply map_filter_id. intros i x Hix. exact (Hall i x Hix). }
        apply cleanup_saved_false in Hid. rewrite Hid in Hsaved. discriminate.
      * apply map_not_Forall in Hsome; [|intros ? ?; apply _].
        destruct Hsome as (k & s & Hk & Hs).
        exists k, s. split; [exact Hk|]. apply Hstale.
        now destruct (stale _ s).
    + intros (k & s & Hk & Hs). apply Hstale in Hs.
      destruct (snd _) eqn:E; [reflexivity|].
      apply cleanup_saved_false in E.
      assert (Hkept : fst (_cleanup_stale_suggestions suggestions now max_age_days)
                        !! k = Some s) by (rewrite E; exact Hk).
      apply cleanup_kept_lookup in Hkept. destruct Hkept as [_ Hno].
      rewrite Hs in Hno. discriminate.
  - apply cleanup_saved_false.
Qed.

(** X23. A second cleanup with the same clock and age removes nothing and
    saves nothing. *)
Theorem cleanup_stale_suggestions_idempotent
  (suggestions : gmap string suggestion) (now max_age_days : Q) :
  _cleanup_stale_suggestions
    (fst (_cleanup_stale_suggestions suggestions now max_age_days))
    now max_age_days
  = (fst (_cleanup_stale_suggestions suggestions now max_age_days), false).
Proof.
  assert (Hid : fst (_cleanup_stale_suggestions
                       (fst (_cleanup_stale_suggestions suggestions now max_age_days))
                       now max_age_days)
                = fst (_cleanup_stale_suggestions suggestions now max_age_days)).
  { unfold _cleanup_stale_suggestions at 1. cbn [fst].
    apply map_filter_id. intros i x Hix.
    apply cleanup_kept_lookup in Hix. exact (proj2 Hix). }
  pose proof (proj2 (cleanup_saved_false _ _ _) Hid) as Hsnd.
  destruct (_cleanup_stale_suggestions
              (fst (_cleanup_stale_suggestions suggestions now max_age_days))
              now max_age_days) as [kept saved].
  cbn [fst snd] in *. now subst.
Qed.

Lemma calculate_confidence_cases (title_a title_b : option string) :
  let '(confidence, score) :=
    _calculate_confidence token_sort_ratio lower title_a title_b in
  (confidence = "High"%string /\ 92 < score) \/
  (confidence = "Medium"%string /\ 80 < score /\ score <= 92) \/
  (confidence = "Low"%string /\ score <= 80).
Proof.
  unfold _calculate_confidence.
  destruct title_a as [a|], title_b as [b|];
    try (right; right; split; [reflexivity | apply Qle_bool_iff; reflexivity]).
  destruct (Py.truthy_str a && Py.truthy_str b);
    [|right; right; split; [reflexivity | apply Qle_bool_iff; reflexivity]].
  cbv zeta.
  destruct (Py.ltb 92 _) eqn:E1.
  - left. split; [reflexivity | now apply ltb_lt].
  - destruct (Py.ltb 80 _) eqn:E2.
    + right; left. conjs; [reflexivity | now apply ltb_lt | now apply ltb_ge].
    + right; right. split; [reflexivity | now apply ltb_ge].
Qed.

Lemma find_ebook_by_title_some (files : list (string * string))
  (title name : string) :
  _find_ebook_by_title token_sort_ratio lower files title = Some name ->
  exists stem, In (name, stem) files /\
               90 < token_sort_ratio (lower title) (lower stem).
Proof.
  induction files as [|[n st] rest IH]; [discriminate|].
  cbn [_find_ebook_by_title].
  destruct (Py.ltb 90 _) eqn:E.
  - intros [= <-]. exists st. split; [now left | now apply ltb_lt].
  - intros H. destruct (IH H) as (stem & Hin & Hs).
    exists stem. split; [now right | exact Hs].
Qed.

(** X24. [_create_suggestion] touches no key but its own. Under its own
    key it either leaves what was there or stores a suggestion that is
    ['pending'], stamped with the current time, rated ['High'] or
    ['Medium'] with a title score above 80 (['High'] exactly above 92),
    and that names the source and the match it was called with. A
    suggestion whose source is ['STORYTELLER'] is stored only with the
    name of an ebook on disk whose stem scores above 90 against the
    title; any other one has no source file name. *)
Theorem create_suggestion_stored (files : list (string * string)) (now : Q)
  (suggestions : gmap string suggestion) (key : string)
  (source : source_item) (found : match_item) (match_type : string) :
  let after :=
    _create_suggestion token_sort_ratio lower files now suggestions key
      source found match_type in
  (forall k, k <> key -> after !! k = suggestions !! k) /\
  (after = suggestions \/
   exists s,
     after = <[key := s]> suggestions /\
     state s = "pending"%string /\ timestamp s = now /\
     (confidence s = "High"%string \/ confidence s = "Medium"%string) /\
     (confidence s = "High"%string <-> 92 < score s) /\
     80 < score s /\
     (exists title_b,
        or_else (mi_title found) (mi_filename found) = Some title_b /\
        score s = token_sort_ratio (lower (item_title source)) (lower title_b)) /\
     source_type s = item_source source /\
     source_title s = item_title source /\
     source_id s = item_id source /\
     SuggestionManager.match_type s = match_type /\
     match_id s = mi_id found /\
     match_filename s = mi_filename found /\
     (item_source source = "STORYTELLER"%string ->
      exists name stem,
        source_filename s = Some name /\ name <> ""%string /\
        In (name, stem) files /\
        90 < token_sort_ratio (lower (item_title source)) (lower stem)) /\
     (item_source source <> "STORYTELLER"%string -> source_filename s = None)).
Proof.
  cbv zeta. unfold _create_suggestion.
  pose proof (calculate_confidence_cases (Some (item_title source))
                (or_else (mi_title found) (mi_filename found))) as Hc.
  assert (Hscore : forall c sc,
            _calculate_confidence token_sort_ratio lower
              (Some (item_title source))
              (or_else (mi_title found) (mi_filename found)) = (c, sc) ->
            c <> "Low"%string ->
            exists title_b,
              or_else (mi_title found) (mi_filename found) = Some title_b /\
              sc = token_sort_ratio (lower (item_title source)) (lower title_b)).
  { intros c sc. unfold _calculate_confidence.
    destruct (or_else (mi_title found) (mi_filename found)) as [b|];
      [|intros [= <- <-] H; now destruct H].
    destruct (Py.truthy_str (item_title source) && Py.truthy_str b);
      [|intros [= <- <-] H; now destruct H].
    cbv zeta. intros H _. exists b. split; [reflexivity|].
    destruct (Py.ltb 92 _); [now injection H|].
    destruct (Py.ltb 80 _); now injection H. }
  destruct (_calculate_confidence token_sort_ratio lower
              (Some (item_title source))
              (or_else (mi_title found) (mi_filename found))) as [c sc] eqn:Hcs.
  specialize (Hscore c sc eq_refl).
  destruct (String.eqb c "Low") eqn:Elow.
  { split; [reflexivity | now left]. }
  apply String.eqb_neq in Elow. specialize (Hscore Elow).
  assert (Hrate : (c = "High"%string \/ c = "Medium"%string) /\
                  (c = "High"%string <-> 92 < sc) /\ 80 < sc).
  { destruct Hc as [(-> & H) | [(-> & H1 & H2) | (-> & _)]].
    - conjs; [now left | tauto |].
      apply Qlt_trans with 92; [reflexivity | exact H].
    - conjs; [now right | | exact H1].
      split; [discriminate|]. intros H. exfalso.
      apply (Qlt_not_le _ _ H H2).
    - now destruct Elow. }
  destruct Hrate as (Hr1 & Hr2 & Hr3).
  destruct (String.eqb (item_source source) "STORYTELLER") eqn:Esrc.
  - apply String.eqb_eq in Esrc.
    destruct (_find_ebook_by_title token_sort_ratio lower files
                (item_title source)) as [ebook_file|] eqn:Hfile;
      [|split; [reflexivity | now left]].
    destruct (Py.truthy_str ebook_file) eqn:Htruthy;
      [|split; [reflexivity | now left]].
    split; [intros k Hk; now rewrite lookup_insert_ne|].
    right. eexists. split; [reflexivity|]. cbn.
    conjs; auto.
    + intros _. apply find_ebook_by_title_some in Hfile.
      destruct Hfile as (stem & Hin & Hs).
      exists ebook_file, stem. conjs; auto.
      intros ->. discriminate.
    + intros Hne. now destruct Hne.
  - apply String.eqb_neq in Esrc.
    split; [intros k Hk; now rewrite lookup_insert_ne|].
    right. eexists. split; [reflexivity|]. cbn.
    conjs; auto.
    intros Heq. now destruct Esrc.
Qed.

Lemma best_ebook_from_spec (files : list (string * string)) (title : string)
  (highest_score : Q) (best_file : option string) :
  let res := best_ebook_from token_sort_ratio lower files title
               highest_score best_file in
  highest_score <= fst res /\
  (forall name stem, In (name, stem) files ->
     token_sort_ratio (lower title) (lower stem) <= fst res) /\
  (res = (highest_score, best_file) \/
   exists pre name stem post,
     files = pre ++ (name, stem) :: post /\
     res = (token_sort_ratio (lower title) (lower stem), Some name) /\
     highest_score < fst res /\
     forall name' stem', In (name', stem') pre ->
       token_sort_ratio (lower title) (lower stem') < fst res).
Proof.
  cbv zeta. revert highest_score best_file.
  induction files as [|[n st] rest IH]; intros hs bf.
  - cbn. conjs; [apply Qle_refl | intros ? ? [] | now left].
  - cbn [best_ebook_from]. cbv zeta.
    destruct (Py.ltb hs _) eqn:E.
    + apply ltb_lt in E.
      destruct (IH (token_sort_ratio (lower title) (lower st)) (Some n))
        as (H1 & H2 & H3).
      conjs.
      * apply Qlt_le_weak. eapply Qlt_le_trans; eassumption.
      * intros name stem [[= <- <-] | Hin]; [exact H1 | now apply (H2 name)].
      * right. destruct H3 as [H3 | (pre & name & stem & post & -> & H3 & H4 & H5)].
        -- exists [], n, st, rest. rewrite H3. cbn [fst].
           conjs; [reflexivity | reflexivity | exact E | intros ? ? []].
        -- exists ((n, st) :: pre), name, stem, post.
           conjs; [reflexivity | exact H3 | |].
           ++ eapply Qlt_trans; eassumption.
           ++ intros name' stem' [[= <- <-] | Hin]; [exact H4 | now apply (H5 name')].
    + apply ltb_ge in E.
      destruct (IH hs bf) as (H1 & H2 & H3).
      conjs.
      * exact H1.
      * intros name stem [[= <- <-] | Hin]; [|now apply (H2 name)].
        eapply Qle_trans; eassumption.
      * destruct H3 as [H3 | (pre & name & stem & post & -> & H3 & H4 & H5)];
          [now left|].
        right. exists ((n, st) :: pre), name, stem, post.
        conjs; [reflexivity | exact H3 | exact H4 |].
        intros name' stem' [[= <- <-] | Hin]; [|now apply (H5 name')].
        eapply Qle_lt_trans; eassumption.
Qed.

(** X25. [_find_best_ebook_match] answers with the first of the ebooks
    whose stem scores highest against the title, and with that score,
    provided the score is above 80; when no ebook scores above 80 it
    answers [None]. *)
Theorem find_best_ebook_match_spec (files : list (string * string))
  (title : string) :
  match _find_best_ebook_match token_sort_ratio lower files title with
  | Some (filename, score) =>
      80 < score /\
      exists pre name stem post,
        files = pre ++ (name, stem) :: post /\
        filename = Some name /\
        score = token_sort_ratio (lower title) (lower stem) /\
        (forall name' stem', In (name', stem') pre ->
           token_sort_ratio (lower title) (lower stem') < score) /\
        (forall name' stem', In (name', stem') post ->
           token_sort_ratio (lower title) (lower stem') <= score)
  | None =>
      forall name stem, In (name, stem) files ->
        token_sort_ratio (lower title) (lower stem) <= 80
  end.
Proof.
  unfold _find_best_ebook_match.
  pose proof (best_ebook_from_spec files title 0 None) as H. cbv zeta in H.
  destruct (best_ebook_from token_sort_ratio lower files title 0 None)
    as [hs bf] eqn:Hres.
  cbn [fst] in H. destruct H as (H1 & H2 & H3).
  destruct (Py.ltb 80 hs) eqn:E.
  - apply ltb_lt in E. split; [exact E|].
    destruct H3 as [[= -> ->] | (pre & name & stem & post & -> & [= -> ->] & H4 & H5)].
    + exfalso. apply (Qlt_not_le _ _ E). apply Qle_bool_iff. reflexivity.
    + exists pre, name, stem, post.
      conjs; [reflexivity | reflexivity | reflexivity | exact H5 |].
      intros name' stem' Hin. apply (H2 name').
      apply in_or_app. right. now right.
  - apply ltb_ge in E. intros name stem Hin.
    eapply Qle_trans; [apply (H2 name stem Hin) | exact E].
Qed.

End Suggestions.

(** ** Short transcripts and long segments *)

Section Excerpts.

Import AudioTranscriber.
Local Open Scope nat_scope.

Lemma run_len_split (data : list segment) (lo mid hi : nat) :
  lo <= mid -> mid <= hi ->
  Window.run_len data lo hi
  = Window.run_len data lo mid + Window.run_len data mid hi.
Proof.
  intros H1 H2. induction H2 as [|hi H2 IH].
  - unfold Window.run_len at 3. rewrite Nat.sub_diag. cbn. lia.
  - rewrite (run_len_right data lo hi) by lia.
    rewrite (run_len_right data mid hi) by lia. lia.
Qed.

Lemma run_len_total (data : list segment) (lo hi : nat) :
  lo <= hi -> hi <= length data ->
  Window.run_len data lo hi <= Window.total_len data.
Proof.
  intros H1 H2. rewrite <- run_len_all.
  rewrite (run_len_split data 0 lo (length data)) by lia.
  rewrite (run_len_split data lo hi (length data)) by lia. lia.
Qed.

(** X26. On a transcript whose texts add up to fewer than 400 characters,
    [get_text_at_time] returns the whole transcript, the texts of all
    segments joined by single spaces, whatever the timestamp. *)
Theorem get_text_at_time_short_transcript (data : list segment) (t : Q) :
  data <> [] ->
  Window.total_len data < TARGET_LEN ->
  get_text_at_time (SegList data) t
  = Some (String.concat " " (map seg_text data)).
Proof.
  intros Hne Hshort.
  destruct (locate_spec data t Hne) as (target & seg & Hloc & Hseg & _).
  assert (Hlt : target < length data)
    by (apply nth_error_Some; rewrite Hseg; discriminate).
  destruct (covers_initial data target Hlt) as (Hcov0 & Halt0).
  destruct (expand_spec data target (length data) _ target (S target) Hcov0 Halt0)
    as (w & lo & hi & Hexp & Hcov & _ & Hdone); [lia|].
  destruct Hcov as (Hrange & Hhi & Hidx & _ & _ & Hlen).
  rewrite Hlen in Hdone.
  destruct Hdone as [Hfull | [-> ->]].
  - pose proof (run_len_total data lo hi ltac:(lia) Hhi). lia.
  - unfold get_text_at_time. rewrite Hloc. cbv zeta. rewrite Hexp, Hidx.
    rewrite join_texts_run. unfold Window.run.
    now rewrite Nat.sub_0_r, map_seg_at_seq.
Qed.

(** X27. When the segment the search settles on has a text of at least
    400 characters, [get_text_at_time] returns that text alone. In
    particular this holds for the first segment that contains the
    timestamp. *)
Theorem get_text_at_time_long_segment (data : list segment) (t : Q)
  (target : nat) (seg : segment) :
  nth_error data target = Some seg ->
  (seg_start seg <= t <= seg_end seg)%Q ->
  (forall j seg', j < target -> nth_error data j = Some seg' ->
     ~ (seg_start seg' <= t <= seg_end seg')%Q) ->
  TARGET_LEN <= String.length (seg_text seg) ->
  get_text_at_time (SegList data) t = Some (seg_text seg).
Proof.
  intros Hseg Hin Hfirst Hlong.
  assert (Hne : data <> []) by (intros ->; destruct target; discriminate).
  destruct (locate_spec data t Hne) as (target' & seg' & Hloc & Hseg' & Hwhere).
  assert (Hsame : target' = target).
  { destruct Hwhere as [(Hin' & Hfirst') | (Hout & _)].
    - destruct (Nat.lt_trichotomy target' target) as [Hl | [He | Hg]].
      + now destruct (Hfirst target' seg' Hl Hseg').
      + exact He.
      + now destruct (Hfirst' target seg Hg Hseg).
    - destruct (Hout seg (nth_error_In _ _ Hseg) Hin). }
  subst target'. rewrite Hseg in Hseg'. injection Hseg' as <-.
  assert (Hat : seg_at data target = seg).
  { unfold seg_at. now apply nth_error_nth. }
  unfold get_text_at_time. rewrite Hloc. cbv zeta.
  assert (Hexp : forall fuel w,
            TARGET_LEN <= current_len w -> expand fuel data w = Some w).
  { intros fuel w Hw. apply Nat.leb_le in Hw.
    destruct fuel; cbn [expand]; now rewrite Hw. }
  rewrite Hexp.
  - cbn [segments_indices]. unfold join_texts. cbn. now rewrite Hat.
  - cbn [current_len]. unfold text_len. now rewrite Hat.
Qed.

End Excerpts.

(** ** Producing a transcript *)

Section Producing.

Import Transcription ProcessAudio.

Variable strip : string -> string.

Lemma download_from_ret (idx : nat) (parts : list part) (cached cached' : list nat) :
  download_from idx parts cached = (Py.Ret tt, cached') <->
  Forall (fun p => fetch p = Fetched) parts /\
  cached' = cached ++ seq idx (length parts).
Proof.
  revert idx cached. induction parts as [|p rest IH]; intros idx cached.
  - cbn. rewrite app_nil_r. split.
    + intros [= <-]. split; [constructor | reflexivity].
    + intros [_ ->]. reflexivity.
  - cbn [download_from length seq].
    destruct (fetch p) eqn:E.
    + rewrite IH, <- app_assoc. cbn [app]. split.
      * intros [H ->]. split; [now constructor | reflexivity].
      * intros [H ->]. inversion H; subst. split; [assumption | reflexivity].
    + split; [discriminate|]. intros [H _]. inversion H; congruence.
    + split; [discriminate|]. intros [H _]. inversion H; congruence.
Qed.

Lemma download_from_unit (idx : nat) (parts : list part) (cached : list nat) :
  fst (download_from idx parts cached) = Py.Ret tt \/
  fst (download_from idx parts cached) = Py.Raise.
Proof.
  revert idx cached. induction parts as [|p rest IH]; intros idx cached.
  - now left.
  - cbn [download_from]. destruct (fetch p); [apply IH | now right | now right].
Qed.

Lemma transcribe_from_some (parts : list part) (c : Q) (full : list segment) :
  transcribe_from strip parts c = Some full <->
  exists texts,
    map transcribed parts = map Some texts /\
    full = transcribe_parts strip (combine (map duration parts) texts) c.
Proof.
  revert c full. induction parts as [|p rest IH]; intros c full.
  - cbn. split.
    + intros [= <-]. exists []. split; reflexivity.
    + intros (texts & Ht & ->). destruct texts; [reflexivity | discriminate].
  - cbn [transcribe_from map]. destruct (transcribed p) as [segs|] eqn:E.
    + destruct (transcribe_from strip rest (c + duration p)) as [more|] eqn:Hm.
      * apply IH in Hm. destruct Hm as (texts & Ht & ->). split.
        -- intros [= <-]. exists (segs :: texts). split.
           ++ cbn [map]. now rewrite Ht.
           ++ reflexivity.
        -- intros (texts' & Ht' & ->). destruct texts' as [|s0 texts']; [discriminate|].
           cbn [map] in Ht'. injection Ht' as <- Ht'.
           assert (texts' = texts).
           { rewrite Ht in Ht'. clear -Ht'. revert texts' Ht'.
             induction texts as [|a l IHl]; intros [|b l'] H; try discriminate;
               [reflexivity|].
             cbn in H. injection H as -> H. f_equal. now apply IHl. }
           subst texts'. reflexivity.
      * split; [discriminate|].
        intros (texts' & Ht' & _). destruct texts' as [|s0 texts']; [discriminate|].
        cbn [map] in Ht'. injection Ht' as _ Ht'.
        assert (Hsome : transcribe_from strip rest (c + duration p)
                        = Some (transcribe_parts strip
                                  (combine (map duration rest) texts')
                                  (c + duration p))).
        { apply IH. exists texts'. split; [exact Ht' | reflexivity]. }
        rewrite Hsome in Hm. discriminate.
    + split; [discriminate|].
      intros (texts' & Ht' & _). destruct texts'; discriminate.
Qed.

(** X28. [process_audio] does all or nothing. When the transcript exists
    it returns at once and touches nothing. Otherwise the cache directory
    is gone afterwards on every path, and either the path is returned,
    which happens exactly when every part was fetched, the model loaded
    and transcribed every part and the file was written, and then the
    transcript holds the stitched segments of all parts; or the exception
    is raised again and there is no transcript file, not even a partial
    one. *)
Theorem process_audio_all_or_nothing (model_loads : bool) (d : dump)
  (dk : disk) (parts : list part) :
  let r := fst (process_audio strip model_loads d dk parts) in
  let dk' := snd (process_audio strip model_loads d dk parts) in
  (forall old, output_file dk = Some old -> r = Py.Ret tt /\ dk' = dk) /\
  (output_file dk = None ->
   book_cache_dir dk' = None /\
   (r = Py.Ret tt \/ r = Py.Raise) /\
   (r = Py.Raise -> output_file dk' = None) /\
   (r = Py.Ret tt <->
    Forall (fun p => fetch p = Fetched) parts /\ model_loads = true /\
    d = Dumped /\ exists texts, map transcribed parts = map Some texts) /\
   (r = Py.Ret tt ->
    exists texts,
      map transcribed parts = map Some texts /\
      output_file dk'
      = Some (SegList (full_transcript strip
                         (combine (map duration parts) texts))))).
Proof.
  cbv zeta. unfold process_audio. split.
  - intros old ->. split; reflexivity.
  - intros ->. unfold try_body.
    destruct (download_from 0 parts []) as [[[]|] cached] eqn:Hd.
    + apply download_from_ret in Hd. destruct Hd as [Hall _].
      destruct model_loads; cbn [negb].
      * destruct (transcribe_from strip parts 0) as [full|] eqn:Ht.
        -- apply transcribe_from_some in Ht. destruct Ht as (texts & Ht & ->).
           destruct d as [|left]; cbn.
           ++ conjs; [reflexivity | now left | discriminate | | ].
              ** split; [intros _|reflexivity]. conjs; auto. now exists texts.
              ** intros _. exists texts. split; [exact Ht | reflexivity].
           ++ conjs; [reflexivity | now right | reflexivity | |discriminate].
              split; [discriminate|]. intros (_ & _ & H & _). discriminate.
        -- cbn. conjs; [reflexivity | now right | reflexivity | |discriminate].
           split; [discriminate|]. intros (_ & _ & _ & texts & Htx).
           assert (Hsome : transcribe_from strip parts 0
                           = Some (transcribe_parts strip
                                     (combine (map duration parts) texts) 0)).
           { apply transcribe_from_some. exists texts. split; [exact Htx | reflexivity]. }
           rewrite Hsome in Ht. discriminate.
      * cbn. conjs; [reflexivity | now right | reflexivity | |discriminate].
        split; [discriminate|]. intros (_ & H & _). discriminate.
    + cbn. conjs; [reflexivity | now right | reflexivity | |discriminate].
      split; [discriminate|]. intros (Hall & _).
      assert (Hret : download_from 0 parts [] = (Py.Ret tt, [] ++ seq 0 (length parts)))
        by (apply download_from_ret; split; [exact Hall | reflexivity]).
      rewrite Hret in Hd. discriminate.
Qed.

End Producing.

(** ** The REST client *)

Section Rest.

Import StorytellerAPI.

Variable upper : string -> string.

Local Open Scope nat_scope.

Lemma get_fresh_token_effects (s : server) (st : state) :
  exists new,
    log (snd (_get_fresh_token s st)) = log st ++ new /\
    (new = [] \/ new = [LoginRequest]) /\
    (length new + logins st = logins (snd (_get_fresh_token s st)))%nat /\
    sends (snd (_get_fresh_token s st)) = sends st /\
    username (cl (snd (_get_fresh_token s st))) = username (cl st) /\
    password (cl (snd (_get_fresh_token s st))) = password (cl st).
Proof.
  unfold _get_fresh_token.
  destruct (Py.truthy_ostr (_token (cl st)));
    [destruct (Py.ltb _ _)|];
    try (exists []; cbn; rewrite app_nil_r; conjs; auto; fail);
    cbn [tick cl];
    (destruct (negb _ || negb _);
     [exists []; cbn; rewrite app_nil_r; conjs; auto|]);
    (destruct (login s _) as [|code [tok|]]; [| destruct (Nat.eqb code 200) ..]);
    exists [LoginRequest]; cbn; conjs; auto.
Qed.

(** X29. A token that [_get_fresh_token] returns is the one the client
    keeps, and it is reused: a call whose clock reading is less than 30
    seconds after the token's timestamp returns the same token without a
    login and leaves the client as it is. One call logs in at most once,
    never sends a request on the session, and does not log in at all
    while the kept token is younger than 30 seconds or when the user name
    or the password is missing. *)
Theorem get_fresh_token_reuse (s : server) (st : state) :
  let token := fst (_get_fresh_token s st) in
  let st1 := snd (_get_fresh_token s st) in
  (Py.truthy_ostr token = true ->
   _token (cl st1) = token /\
   forall s',
     (time s' (ticks st1) - _token_timestamp (cl st1) < _token_max_age)%Q ->
     _get_fresh_token s' st1 = (token, tick st1)) /\
  (logins st1 = logins st \/ logins st1 = S (logins st)) /\
  sends st1 = sends st /\
  (Py.truthy_ostr (_token (cl st)) = true ->
   (time s (ticks st) - _token_timestamp (cl st) < _token_max_age)%Q ->
   token = _token (cl st) /\ logins st1 = logins st /\ cl st1 = cl st) /\
  (Py.truthy_ostr (username (cl st)) = false \/
   Py.truthy_ostr (password (cl st)) = false ->
   logins st1 = logins st /\ log st1 = log st /\
   (token = None \/ token = _token (cl st))).
Proof.
  cbv zeta.
  assert (Hreuse : forall st0 tok,
            _token (cl st0) = tok -> Py.truthy_ostr tok = true ->
            forall s',
              (time s' (ticks st0) - _token_timestamp (cl st0) < _token_max_age)%Q ->
              _get_fresh_token s' st0 = (tok, tick st0)).
  { intros st0 tok Htok Htruthy s' Hage. unfold _get_fresh_token.
    rewrite Htok, Htruthy. apply ltb_lt in Hage. rewrite Hage.
    cbn [tick cl]. now rewrite Htok. }
  conjs.
  - intros Htruthy.
    assert (Hkept : _token (cl (snd (_get_fresh_token s st)))
                    = fst (_get_fresh_token s st)).
    { revert Htruthy. unfold _get_fresh_token.
      destruct (Py.truthy_ostr (_token (cl st)));
        [destruct (Py.ltb _ _)|];
        try reflexivity;
        cbn [tick cl];
        (destruct (negb _ || negb _); [discriminate|]);
        (destruct (login s _) as [|code [tok|]]; [| destruct (Nat.eqb code 200) ..]);
        try discriminate; reflexivity. }
    split; [exact Hkept|]. intros s' Hage.
    now apply Hreuse.
  - destruct (get_fresh_token_effects s st) as (new & _ & [-> | ->] & Hl & _).
    + left. cbn in Hl. now rewrite <- Hl.
    + right. cbn in Hl. now rewrite <- Hl.
  - destruct (get_fresh_token_effects s st) as (new & _ & _ & _ & Hs & _).
    exact Hs.
  - intros Htruthy Hage.
    rewrite (Hreuse st (_token (cl st)) eq_refl Htruthy s Hage).
    cbn. conjs; reflexivity.
  - intros Hmissing. unfold _get_fresh_token.
    assert (Hor : negb (Py.truthy_ostr (username (cl st)))
                  || negb (Py.truthy_ostr (password (cl st))) = true).
    { destruct Hmissing as [-> | ->]; [reflexivity | apply orb_true_r]. }
    destruct (Py.truthy_ostr (_token (cl st)));
      [destruct (Py.ltb _ _)|]; cbn [tick cl]; try rewrite Hor; cbn;
      conjs; auto.
Qed.

Lemma get_fresh_token_sends (s : server) (st : state) :
  sends (snd (_get_fresh_token s st)) = sends st.
Proof.
  destruct (get_fresh_token_effects s st) as (new & _ & _ & _ & Hs & _).
  exact Hs.
Qed.

Lemma get_fresh_token_logins (s : server) (st : state) :
  (logins st <= logins (snd (_get_fresh_token s st)) <= S (logins st))%nat.
Proof.
  destruct (get_fresh_token_effects s st) as (new & _ & [-> | ->] & Hl & _);
    cbn in Hl; lia.
Qed.

Lemma get_fresh_token_log (s : server) (st : state) :
  exists new,
    log (snd (_get_fresh_token s st)) = log st ++ new /\
    forall m e tok, ~ In (Request m e tok) new.
Proof.
  destruct (get_fresh_token_effects s st) as (new & Hlog & [-> | ->] & _).
  - exists []. split; [exact Hlog | intros m e tok []].
  - exists [LoginRequest]. split; [exact Hlog|].
    intros m e tok [H | []]. discriminate.
Qed.

(** X30. [_make_request] sends at most two requests on the session and
    logs in at most twice. It sends nothing without a token or for a
    method that is neither GET nor POST; every request it sends is for
    the method and endpoint asked for and carries a token. The second
    request is sent only after a 401 answer to the first, and then under
    a token obtained by a new login; the response returned is the answer
    to the last request sent, so a 401 is returned only after one retry. *)
Theorem make_request_retries_once (s : server) (st : state)
  (method endpoint : string) :
  let r := fst (_make_request upper s st method endpoint) in
  let st' := snd (_make_request upper s st method endpoint) in
  (sends st <= sends st' <= sends st + 2)%nat /\
  (logins st <= logins st' <= logins st + 2)%nat /\
  (exists new,
     log st' = log st ++ new /\
     forall m e tok, In (Request m e tok) new ->
       m = method /\ e = endpoint /\ Py.truthy_ostr tok = true) /\
  (sends st' = sends st + 2 ->
   (exists r1, answer s (sends st) = Some r1 /\ status_code r1 = 401%nat) /\
   (logins st < logins st')%nat) /\
  (forall resp, r = Some resp ->
     (sends st < sends st')%nat /\
     answer s (sends st' - 1) = Some resp /\
     (status_code resp = 401%nat -> sends st' = sends st + 2)) /\
  (upper method <> "GET"%string -> upper method <> "POST"%string ->
   r = None /\ sends st' = sends st).
Proof.
  cbv zeta. unfold _make_request.
  pose proof (get_fresh_token_sends s st) as Hs1.
  pose proof (get_fresh_token_logins s st) as Hl1.
  destruct (get_fresh_token_log s st) as (new1 & Hlog1 & Hnew1).
  destruct (_get_fresh_token s st) as [token st1]. cbn [fst snd] in *.
  assert (Hquiet : (sends st <= sends st1 <= sends st + 2)%nat /\
                   (logins st <= logins st1 <= logins st + 2)%nat /\
                   (exists new,
                      log st1 = log st ++ new /\
                      forall m e tok, In (Request m e tok) new ->
                        m = method /\ e = endpoint /\ Py.truthy_ostr tok = true) /\
                   (sends st1 = sends st + 2 ->
                    (exists r1, answer s (sends st) = Some r1 /\
                                status_code r1 = 401%nat) /\
                    (logins st < logins st1)%nat) /\
                   (forall resp, @None response = Some resp ->
                      (sends st < sends st1)%nat /\
                      answer s (sends st1 - 1) = Some resp /\
                      (status_code resp = 401%nat -> sends st1 = sends st + 2))).
  { conjs; try lia.
    - exists new1. split; [exact Hlog1|]. intros m e tok Hin.
      now destruct (Hnew1 m e tok).
    - discriminate. }
  destruct (Py.truthy_ostr token) eqn:Htok; cbn [negb].
  2:{ destruct Hquiet as (H1 & H2 & H3 & H4 & H5). cbn [fst snd].
      conjs; [exact (proj1 H1) | exact (proj2 H1) | exact (proj1 H2)
              | exact (proj2 H2) | exact H3 | exact H4 | exact H5 |].
      intros _ _. split; [reflexivity | exact Hs1]. }
  destruct (String.eqb (upper method) "GET" || String.eqb (upper method) "POST")
    eqn:Hm; cbn [negb].
  2:{ destruct Hquiet as (H1 & H2 & H3 & H4 & H5). cbn [fst snd].
      conjs; [exact (proj1 H1) | exact (proj2 H1) | exact (proj1 H2)
              | exact (proj2 H2) | exact H3 | exact H4 | exact H5 |].
      intros _ _. split; [reflexivity | exact Hs1]. }
  clear Hquiet.
  assert (Hmeth : upper method <> "GET"%string ->
                  upper method <> "POST"%string -> False).
  { intros Hg Hp. apply String.eqb_neq in Hg, Hp.
    rewrite Hg, Hp in Hm. discriminate. }
  destruct (answer s (sends st1)) as [response|] eqn:Ha.
  2:{ cbn [fst snd sent sends logins log].
      conjs; try lia.
      - exists (new1 ++ [Request method endpoint token]).
        rewrite Hlog1, <- app_assoc. split; [reflexivity|].
        intros m e tok Hin. apply in_app_or in Hin.
        destruct Hin as [Hin | [[= <- <- <-] | []]];
          [now destruct (Hnew1 m e tok) | auto].
      - discriminate.
      - intros Hg Hp. now destruct (Hmeth Hg Hp). }
  destruct (Nat.eqb (status_code response) 401) eqn:E401.
  2:{ cbn [fst snd sent sends logins log].
      apply Nat.eqb_neq in E401.
      conjs; try lia.
      - exists (new1 ++ [Request method endpoint token]).
        rewrite Hlog1, <- app_assoc. split; [reflexivity|].
        intros m e tok Hin. apply in_app_or in Hin.
        destruct Hin as [Hin | [[= <- <- <-] | []]];
          [now destruct (Hnew1 m e tok) | auto].
      - intros resp [= <-]. conjs; [lia | | intros H; now destruct E401].
        replace (S (sends st1) - 1)%nat with (sends st1) by lia. exact Ha.
      - intros Hg Hp. now destruct (Hmeth Hg Hp). }
  apply Nat.eqb_eq in E401.
  set (st3 := set_token (sent st1 method endpoint token) None).
  pose proof (get_fresh_token_sends s st3) as Hs4.
  pose proof (get_fresh_token_logins s st3) as Hl4.
  destruct (get_fresh_token_log s st3) as (new4 & Hlog4 & Hnew4).
  assert (Hrelogin : Py.truthy_ostr (fst (_get_fresh_token s st3)) = true ->
                     (logins st3 < logins (snd (_get_fresh_token s st3)))%nat).
  { unfold _get_fresh_token. cbn [st3 set_token cl _token Py.truthy_ostr].
    destruct (negb _ || negb _); [discriminate|].
    destruct (login s _) as [|code [tok|]]; [| destruct (Nat.eqb code 200) ..];
      try discriminate.
    intros _. cbn. lia. }
  destruct (_get_fresh_token s st3) as [token' st4]. cbn [fst snd] in *.
  assert (Hs3 : sends st3 = S (sends st1)) by reflexivity.
  assert (Hl3 : logins st3 = logins st1) by reflexivity.
  assert (Hlog3 : log st3 = log st ++ new1 ++ [Request method endpoint token])
    by (cbn; rewrite Hlog1, <- app_assoc; reflexivity).
  destruct (Py.truthy_ostr token') eqn:Htok'; cbn [negb].
  2:{ cbn [fst snd]. conjs; try lia.
      - exists (new1 ++ [Request method endpoint token] ++ new4).
        rewrite Hlog4, Hlog3, <- !app_assoc. split; [reflexivity|].
        intros m e tok Hin. apply in_app_or in Hin.
        destruct Hin as [Hin | Hin]; [now destruct (Hnew1 m e tok)|].
        apply in_app_or in Hin.
        destruct Hin as [[[= <- <- <-] | []] | Hin];
          [auto | now destruct (Hnew4 m e tok)].
      - discriminate.
      - intros Hg Hp. now destruct (Hmeth Hg Hp). }
  specialize (Hrelogin eq_refl).
  assert (Hlog5 : exists new,
            log st4 ++ [Request method endpoint token'] = log st ++ new /\
            forall m e tok, In (Request m e tok) new ->
              m = method /\ e = endpoint /\ Py.truthy_ostr tok = true).
  { exists (new1 ++ [Request method endpoint token] ++ new4
              ++ [Request method endpoint token']).
    rewrite Hlog4, Hlog3, <- !app_assoc. split; [reflexivity|].
    intros m e tok Hin. apply in_app_or in Hin.
    destruct Hin as [Hin | Hin]; [now destruct (Hnew1 m e tok)|].
    apply in_app_or in Hin.
    destruct Hin as [[[= <- <- <-] | []] | Hin]; [auto|].
    apply in_app_or in Hin.
    destruct Hin as [Hin | [[= <- <- <-] | []]];
      [now destruct (Hnew4 m e tok) | auto]. }
  assert (Hfirst : exists r1, answer s (sends st) = Some r1 /\
                              status_code r1 = 401%nat).
  { exists response. rewrite <- Hs1. split; [exact Ha | exact E401]. }
  destruct (answer s (sends st4)) as [response'|] eqn:Ha';
    cbn [fst snd sent sends logins log].
  - conjs; try lia; auto.
    + intros _. split; [exact Hfirst | lia].
    + intros resp [= <-]. conjs; [lia | | intros _; lia].
      replace (S (sends st4) - 1)%nat with (sends st4) by lia. exact Ha'.
    + intros Hg Hp. now destruct (Hmeth Hg Hp).
  - conjs; try lia; auto.
    + intros _. split; [exact Hfirst | lia].
    + discriminate.
    + intros Hg Hp. now destruct (Hmeth Hg Hp).
Qed.

End Rest.

(** * Worked examples *)

(** The hypotheses of the properties above, met on the sample data. *)

Section StoreExamples.

Import Json StorytellerDB StorytellerQueries.

Lemma update_progress_then_get_progress_witness :
  issued (update_progress Sample.title_like Sample.db "book.epub" (1 # 2)
            1700000000000) = Some Sample.expected_update /\
  get_progress Sample.title_like SampleMore.parse_float true
    (db_after (update_progress Sample.title_like Sample.db "book.epub" (1 # 2)
                 1700000000000)) "book.epub"
  = (Some (1 # 2), Some 1700000010000%Z) /\
  forall q ts,
    get_progress Sample.title_like SampleMore.parse_float true Sample.db
      "book.epub" = (Some q, Some ts) ->
    (ts + LEAP_MS <= 1700000010000)%Z.
Proof.
  assert (H : issued (update_progress Sample.title_like Sample.db "book.epub"
                        (1 # 2) 1700000000000) = Some Sample.expected_update)
    by reflexivity.
  split; [exact H|].
  exact (update_progress_then_get_progress Sample.title_like
           SampleMore.parse_float Sample.db "book.epub" (1 # 2) 1700000000000
           Sample.expected_update H).
Defined.

Lemma update_progress_true_postcondition_witness :
  returned (update_progress Sample.title_like Sample.db "book.epub" (1 # 2)
              1700000000000) = true /\
  ((exists q ts,
      get_progress Sample.title_like SampleMore.parse_float true
        (db_after (update_progress Sample.title_like Sample.db "book.epub"
                     (1 # 2) 1700000000000)) "book.epub"
      = (Some q, Some ts) /\
      Qabs ((1 # 2) - q) < 1 # 1000) \/
   (get_progress Sample.title_like SampleMore.parse_float true
      (db_after (update_progress Sample.title_like Sample.db "book.epub"
                   (1 # 2) 1700000000000)) "book.epub" = (None, None) /\
    db_after (update_progress Sample.title_like Sample.db "book.epub" (1 # 2)
                1700000000000) = Sample.db /\
    Qabs ((1 # 2) - 0) < 1 # 1000)).
Proof.
  assert (H : returned (update_progress Sample.title_like Sample.db "book.epub"
                          (1 # 2) 1700000000000) = true) by reflexivity.
  split; [exact H|].
  exact (update_progress_true_postcondition Sample.title_like
           SampleMore.parse_float Sample.db "book.epub" (1 # 2) 1700000000000 H).
Defined.

Lemma force_position_update_rebuilds_witness :
  issued (force_position_update Sample.title_like Sample.db "book.epub"
            (1 # 2) None 1700000000000) = Some SampleMore.forced_update /\
  exists b row old l,
    select_book Sample.title_like Sample.db "book.epub" = Some b /\
    latest_position Sample.db b = Some row /\
    (p_locator row = Some (JObj old) \/ (p_locator row = None /\ old = [])) /\
    u_locator SampleMore.forced_update = JObj l /\
    u_uuid SampleMore.forced_update = p_uuid row /\
    get "type" l = Some (match get "type" old with
                         | Some v => v
                         | None => JStr "application/xhtml+xml"
                         end) /\
    get "locations" l = Some (JObj [("totalProgression"%string, JNum (1 # 2))]) /\
    get "href" l =
      (if Py.truthy_ostr None then option_map JStr None
       else match get "href" old with
            | Some h => if truthy h then Some h else None
            | None => None
            end) /\
    (forall k, k <> "type"%string -> k <> "locations"%string ->
       k <> "href"%string -> get k l = None).
Proof.
  assert (H : issued (force_position_update Sample.title_like Sample.db
                        "book.epub" (1 # 2) None 1700000000000)
              = Some SampleMore.forced_update) by reflexivity.
  split; [exact H|].
  exact (force_position_update_rebuilds Sample.title_like Sample.db "book.epub"
           (1 # 2) None 1700000000000 SampleMore.forced_update H).
Defined.

Lemma force_position_update_then_get_progress_witness :
  issued (force_position_update Sample.title_like Sample.db "book.epub"
            (1 # 2) None 1700000000000) = Some SampleMore.forced_update /\
  get_progress Sample.title_like SampleMore.parse_float true
    (db_after (force_position_update Sample.title_like Sample.db "book.epub"
                 (1 # 2) None 1700000000000)) "book.epub"
  = (Some (1 # 2), Some (1700000000000 + FORCE_LEAP_MS)%Z).
Proof.
  assert (H : issued (force_position_update Sample.title_like Sample.db
                        "book.epub" (1 # 2) None 1700000000000)
              = Some SampleMore.forced_update) by reflexivity.
  split; [exact H|].
  apply (force_position_update_then_get_progress Sample.title_like
           SampleMore.parse_float Sample.db "book.epub" (1 # 2) None
           1700000000000 SampleMore.forced_update H).
  intros b row Hb Hrow.
  assert (Hb' : b = "b-1"%string) by (vm_compute in Hb; congruence).
  subst b. vm_compute in Hrow. injection Hrow as <-. reflexivity.
Defined.

Lemma get_progress_with_fragment_splits_witness :
  get_progress_with_fragment Sample.title_like SampleMore.parse_float true
    Sample.db "book.epub"
  = (Some (1 # 5), Some 1699999995000%Z,
     Some (JStr "OEBPS/chapter3.xhtml"), Some "frag12"%string) /\
  exists h,
    Some (JStr "OEBPS/chapter3.xhtml") = Some (JStr h) /\
    ~ In "#"%char (list_ascii_of_string h) /\
    ~ In "#"%char (list_ascii_of_string "frag12") /\
    exists tail,
      "OEBPS/chapter3.xhtml#frag12"%string
      = (h ++ String "#" ("frag12" ++ tail))%string /\
      (tail = ""%string \/ exists t, tail = String "#" t).
Proof.
  assert (H : get_progress_with_fragment Sample.title_like
                SampleMore.parse_float true Sample.db "book.epub"
              = (Some (1 # 5), Some 1699999995000%Z,
                 Some (JStr "OEBPS/chapter3.xhtml"), Some "frag12"%string))
    by reflexivity.
  split; [exact H|].
  exact (get_progress_with_fragment_splits Sample.title_like
           SampleMore.parse_float Sample.db "book.epub" "b-1"
           SampleMore.newest_row SampleMore.locator_fields
           "OEBPS/chapter3.xhtml#frag12" (1 # 5) 1699999995000%Z
           (Some (JStr "OEBPS/chapter3.xhtml")) (Some "frag12"%string)
           eq_refl eq_refl eq_refl eq_refl H).
Defined.

End StoreExamples.

Section CycleExamples.

Import SyncManager.

Lemma propagate_spares_leader_witness :
  In (ABSUpdate "li_1" 100)
     (writes (propagate SampleMore.world Sample.active_mapping
                SampleMore.readings KOSYNC (3 # 4))) /\
  KOSYNC <> ABS /\ "li_1"%string = abs_id Sample.active_mapping.
Proof.
  assert (H : In (ABSUpdate "li_1" 100)
                (writes (propagate SampleMore.world Sample.active_mapping
                           SampleMore.readings KOSYNC (3 # 4))))
    by (left; reflexivity).
  split; [exact H|].
  exact (propagate_spares_leader SampleMore.world Sample.active_mapping
           SampleMore.readings KOSYNC (3 # 4) (ABSUpdate "li_1" 100) H).
Defined.

Lemma propagate_failure_witness :
  sync_success (propagate SampleMore.raising_world Sample.active_mapping
                  SampleMore.readings KOSYNC (3 # 4)) = false /\
  final_ts (propagate SampleMore.raising_world Sample.active_mapping
              SampleMore.readings KOSYNC (3 # 4))
  = r_abs_ts SampleMore.readings /\
  final_pct (propagate SampleMore.raising_world Sample.active_mapping
               SampleMore.readings KOSYNC (3 # 4)) = 3 # 4 /\
  writes (propagate SampleMore.raising_world Sample.active_mapping
            SampleMore.readings KOSYNC (3 # 4))
  = [ABSUpdate "li_1" 100; StorytellerRaised "book.epub" (3 # 4)].
Proof.
  assert (H : sync_success
                (propagate SampleMore.raising_world Sample.active_mapping
                   SampleMore.readings KOSYNC (3 # 4)) = false) by reflexivity.
  split; [exact H|].
  destruct (proj1 (propagate_failure SampleMore.raising_world
                     Sample.active_mapping SampleMore.readings KOSYNC (3 # 4)) H)
    as (Hts & Hpct & _).
  split; [exact Hts|]. split; [exact Hpct | reflexivity].
Defined.

Lemma attempted_cycle_stores_what_it_writes_witness :
  read_positions SampleMore.world Sample.active_mapping
    = Py.Ret SampleMore.readings /\
  any_changed Sample.cfg SampleMore.readings
    ((∅ : gmap string State.t) !! abs_id Sample.active_mapping) = true /\
  exists e ws,
    sync_mapping Sample.cfg SampleMore.world 1700000300 ∅ Sample.active_mapping
    = (<[abs_id Sample.active_mapping := e]> ∅, ws) /\
    State.kosync_pct e = State.storyteller_pct e /\
    ((forall c, In c ws ->
        match c with
        | KoSyncUpdate _ pct _ => pct = State.kosync_pct e
        | StorytellerUpdate _ pct => pct = State.storyteller_pct e
        | StorytellerRaised _ _ => False
        | HardcoverSync _ pct => pct = State.kosync_pct e /\ 1 # 100 < pct
        | ABSUpdate _ ts => ts = State.abs_ts e
        end) \/
     (State.abs_ts e = r_abs_ts SampleMore.readings /\
      State.kosync_pct e = snd (select_leader SampleMore.readings) /\
      ((exists ts, ws = [ABSUpdate (abs_id Sample.active_mapping) ts]) \/
       (exists c epub pct, ws = [c; StorytellerRaised epub pct])))).
Proof.
  assert (Hr : read_positions SampleMore.world Sample.active_mapping
               = Py.Ret SampleMore.readings) by reflexivity.
  assert (H : any_changed Sample.cfg SampleMore.readings
                ((∅ : gmap string State.t) !! abs_id Sample.active_mapping)
              = true) by reflexivity.
  split; [exact Hr|]. split; [exact H|].
  exact (attempted_cycle_stores_what_it_writes Sample.cfg SampleMore.world
           1700000300 ∅ Sample.active_mapping SampleMore.readings eq_refl Hr H).
Defined.

Lemma quiet_cycles_follow_the_readings_witness :
  read_positions Sample.world Sample.active_mapping = Py.Ret Sample.readings /\
  any_changed Sample.cfg Sample.readings
    (Sample.state !! abs_id Sample.active_mapping) = false /\
  sync_mapping Sample.cfg Sample.world 1700000600
    (fst (sync_mapping Sample.cfg Sample.world 1700000300 Sample.state
            Sample.active_mapping))
    Sample.active_mapping
  = (<[abs_id Sample.active_mapping :=
         {| State.abs_ts := r_abs_ts Sample.readings;
            State.abs_pct := Py.or_zero (r_abs_pct Sample.readings);
            State.kosync_pct := r_ko_pct Sample.readings;
            State.storyteller_pct := r_st_pct Sample.readings;
            State.last_updated :=
              State.get State.last_updated
                (Sample.state !! abs_id Sample.active_mapping) |}]>
       Sample.state, []).
Proof.
  assert (Hr : read_positions Sample.world Sample.active_mapping
               = Py.Ret Sample.readings) by reflexivity.
  assert (H : any_changed Sample.cfg Sample.readings
                (Sample.state !! abs_id Sample.active_mapping) = false)
    by reflexivity.
  split; [exact Hr|]. split; [exact H|].
  apply (quiet_cycles_follow_the_readings Sample.cfg Sample.world Sample.world
           1700000300 1700000600 Sample.state Sample.active_mapping
           Sample.readings Sample.readings eq_refl Hr Hr H);
    apply Qle_bool_iff; reflexivity.
Defined.

End CycleExamples.

Section JobExamples.

Import JobPipeline.

Lemma crash_leaves_processing_witness :
  status SampleMore.pending_mapping = "pending"%string /\
  exists later,
    snd (check_pending_jobs SampleMore.failing_run
           ([Sample.active_mapping] ++ SampleMore.pending_mapping :: []))
    = ([Sample.active_mapping]
         ++ set_status SampleMore.pending_mapping "processing" :: []) :: later /\
    SyncManager.cleanup_stale_jobs
      ([Sample.active_mapping]
         ++ set_status SampleMore.pending_mapping "processing" :: [])
    = ([Sample.active_mapping]
         ++ set_status SampleMore.pending_mapping "processing" :: [], false).
Proof.
  split; [reflexivity|].
  apply (crash_leaves_processing SampleMore.failing_run [Sample.active_mapping]
           [] SampleMore.pending_mapping).
  - constructor; [discriminate | constructor].
  - reflexivity.
  - constructor; [discriminate|]. constructor; [discriminate | constructor].
Defined.

End JobExamples.

Section FileExamples.

Import AbsHash Transcription ReadingLog AudioTranscriber.

Lemma hash_ignores_bytes_between_windows_witness :
  in_window 3000 = false /\
  compute_abs_hash SampleMore.digest (Some (<[3000%nat := 1%nat]> SampleMore.file))
  = compute_abs_hash SampleMore.digest (Some SampleMore.file).
Proof.
  assert (H : in_window 3000 = false) by reflexivity.
  split; [exact H|].
  exact (hash_ignores_bytes_between_windows SampleMore.digest SampleMore.file
           3000%nat 1%nat H).
Defined.

Lemma full_transcript_laid_out_witness :
  Forall (fun p => laid_out 0 (fst p) (snd p)) SampleMore.parts /\
  laid_out 0 (total_duration SampleMore.parts)
    (full_transcript (fun s => s) SampleMore.parts) /\
  (forall s, In s (full_transcript (fun s => s) SampleMore.parts) ->
     0 <= seg_start s /\ seg_start s <= seg_end s /\
     seg_end s <= total_duration SampleMore.parts) /\
  map seg_text (full_transcript (fun s => s) SampleMore.parts)
    = map (fun s => s)
        (concat (map (fun p => map seg_text (snd p)) SampleMore.parts)) /\
  exists duration,
    SyncManager._get_transcript_duration
      (SegList (full_transcript (fun s => s) SampleMore.parts))
      = Seconds duration /\
    0 <= duration <= total_duration SampleMore.parts.
Proof.
  assert (H : Forall (fun p => laid_out 0 (fst p) (snd p)) SampleMore.parts).
  { constructor; [|constructor; [|constructor]]; cbn;
      repeat split; apply Qle_bool_iff; reflexivity. }
  split; [exact H|].
  exact (full_transcript_laid_out (fun s => s) SampleMore.parts H).
Defined.

Lemma sync_to_hardcover_pages_witness :
  0 <= 1 # 2 <= 1 /\
  exists page,
    (0 <= page <= 300)%Z /\
    inject_Z page <= inject_Z 300 * (1 # 2) /\
    inject_Z 300 * (1 # 2) < inject_Z page + 1 /\
    (99 # 100 < 1 # 2 ->
     _sync_to_hardcover true (fun _ => Some 11%Z) SampleMore.link (1 # 2)
     = [UpdateProgress 11 page (hardcover_edition_id SampleMore.link);
        UpdateStatus 7 3 (hardcover_edition_id SampleMore.link)]) /\
    (1 # 2 <= 99 # 100 ->
     _sync_to_hardcover true (fun _ => Some 11%Z) SampleMore.link (1 # 2)
     = [UpdateProgress 11 page (hardcover_edition_id SampleMore.link)]).
Proof.
  assert (H : 0 <= 1 # 2 <= 1) by (split; apply Qle_bool_iff; reflexivity).
  assert (Hp : forall n, hardcover_pages SampleMore.link = Some n -> (0 <= n)%Z)
    by (intros n [= <-]; discriminate).
  split; [exact H|].
  apply (proj1 (proj2 (proj2 (proj2
           (sync_to_hardcover_pages true (fun _ => Some 11%Z) SampleMore.link
              (1 # 2) H Hp)))) eq_refl 7%Z 11%Z eq_refl).
  - discriminate.
  - reflexivity.
Defined.

Lemma get_text_at_time_short_transcript_witness :
  (Window.total_len Sample.segments < TARGET_LEN)%nat /\
  get_text_at_time (SegList Sample.segments) 130
  = Some (String.concat " " (map seg_text Sample.segments)).
Proof.
  assert (H : (Window.total_len Sample.segments < TARGET_LEN)%nat)
    by (apply Nat.ltb_lt; reflexivity).
  split; [exact H|].
  apply (get_text_at_time_short_transcript Sample.segments 130);
    [discriminate | exact H].
Defined.

Lemma get_text_at_time_long_segment_witness :
  (TARGET_LEN <= String.length SampleMore.long_text)%nat /\
  get_text_at_time (SegList SampleMore.long_segments) 50
  = Some SampleMore.long_text.
Proof.
  assert (H : (TARGET_LEN <= String.length SampleMore.long_text)%nat)
    by (apply Nat.leb_le; reflexivity).
  split; [exact H|].
  apply (get_text_at_time_long_segment SampleMore.long_segments 50 0%nat
           (Segment 0 100 SampleMore.long_text)).
  - reflexivity.
  - split; apply Qle_bool_iff; reflexivity.
  - intros j seg' Hj. exfalso. exact (Nat.nlt_0_r j Hj).
  - exact H.
Defined.

End FileExamples.
